(** * dcstop: a shallow embedding of the devcontainer stopper

    The Go packages [internal/devcontainer], [internal/docker] and [cmd]
    are embedded as Rocq functions.  Go strings are byte strings
    ([String.string]); slices are lists; the Docker API and the file
    system are interfaces whose calls thread an explicit world. *)

From Stdlib Require Import String Ascii List Bool Arith NArith ZArith Lia.
From Stdlib Require Import DecimalString.
From stdpp Require Import base list strings gmap.
Import ListNotations.

(* Byte strings are computed with: [String.append] unfolds under [cbn]. *)
#[global] Arguments String.append : simpl nomatch.

Local Open Scope string_scope.
Local Open Scope list_scope.

Notation "a +:+ b" := (String.append a b)
  (at level 60, right associativity) : string_scope.

(** ** UTF-8, as [unicode/utf8] decodes and encodes it *)
Module Utf8.
Local Open Scope N_scope.

Definition RuneError : N := 65533.            (* U+FFFD *)

Definition byte (c : ascii) : N := N_of_ascii c.
Definition chr (n : N) : ascii := ascii_of_N n.

Definition inRange (lo hi n : N) : bool := (lo <=? n) && (n <=? hi).
Definition isCont (c : ascii) : bool := inRange 128 191 (byte c).
Definition low6 (c : ascii) : N := N.land (byte c) 63.

(** [utf8.DecodeRuneInString]: the rune and its width; an ill-formed
    sequence decodes to [(RuneError, 1)]. *)
Definition DecodeRune (s : string) : N * nat :=
  match s with
  | EmptyString => (RuneError, 0%nat)
  | String c0 r0 =>
      let b0 := byte c0 in
      if b0 <? 128 then (b0, 1%nat)
      else if inRange 194 223 b0 then
        match r0 with
        | String c1 _ =>
            if isCont c1 then (N.land b0 31 * 64 + low6 c1, 2%nat)
            else (RuneError, 1%nat)
        | _ => (RuneError, 1%nat)
        end
      else if inRange 224 239 b0 then
        match r0 with
        | String c1 (String c2 _) =>
            let lo := if b0 =? 224 then 160 else 128 in
            let hi := if b0 =? 237 then 159 else 191 in
            if inRange lo hi (byte c1) && isCont c2
            then (N.land b0 15 * 4096 + low6 c1 * 64 + low6 c2, 3%nat)
            else (RuneError, 1%nat)
        | _ => (RuneError, 1%nat)
        end
      else if inRange 240 244 b0 then
        match r0 with
        | String c1 (String c2 (String c3 _)) =>
            let lo := if b0 =? 240 then 144 else 128 in
            let hi := if b0 =? 244 then 143 else 191 in
            if inRange lo hi (byte c1) && isCont c2 && isCont c3
            then (N.land b0 7 * 262144 + low6 c1 * 4096
                  + low6 c2 * 64 + low6 c3, 4%nat)
            else (RuneError, 1%nat)
        | _ => (RuneError, 1%nat)
        end
      else (RuneError, 1%nat)
  end.

Definition isSurrogate (r : N) : bool := inRange 55296 57343 r.

Definition str (l : list N) : string :=
  fold_right (fun n acc => String (chr n) acc) EmptyString l.

(** [utf8.EncodeRune]; a surrogate or a rune past U+10FFFF is written
    as U+FFFD. *)
Definition EncodeRune (r : N) : string :=
  if r <? 128 then str [r]
  else if r <? 2048 then str [192 + r / 64; 128 + r mod 64]
  else if isSurrogate r || (1114111 <? r) then str [239; 191; 189]
  else if r <? 65536 then
    str [224 + r / 4096; 128 + (r / 64) mod 64; 128 + r mod 64]
  else
    str [240 + r / 262144; 128 + (r / 4096) mod 64;
         128 + (r / 64) mod 64; 128 + r mod 64].

Fixpoint drop (n : nat) (s : string) : string :=
  match n, s with
  | S n', String _ r => drop n' r
  | _, _ => s
  end.

End Utf8.

(** ** Go's [strings] package, the part the program uses *)
Module Strings.

Definition byteIn (lo hi c : ascii) : bool :=
  ((nat_of_ascii lo <=? nat_of_ascii c)%nat
   && (nat_of_ascii c <=? nat_of_ascii hi)%nat)%bool.

Definition isUpperByte (c : ascii) : bool := byteIn "A"%char "Z"%char c.

(** [c < utf8.RuneSelf] *)
Definition isASCIIByte (c : ascii) : bool := (nat_of_ascii c <? 128)%nat.

(** [c += 'a' - 'A'] for an upper-case ASCII byte *)
Definition lowerByte (c : ascii) : ascii :=
  if isUpperByte c then ascii_of_nat (nat_of_ascii c + 32) else c.

Fixpoint all (p : ascii -> bool) (s : string) : bool :=
  match s with
  | EmptyString => true
  | String c r => p c && all p r
  end.

Fixpoint any (p : ascii -> bool) (s : string) : bool :=
  match s with
  | EmptyString => false
  | String c r => p c || any p r
  end.

Fixpoint mapBytes (f : ascii -> ascii) (s : string) : string :=
  match s with
  | EmptyString => EmptyString
  | String c r => String (f c) (mapBytes f r)
  end.

Section ToLower.
(** [strings.Map(unicode.ToLower, s)], the path [strings.ToLower] takes
    for a string with a byte outside ASCII.  It depends on the Unicode
    tables of the Go runtime, which are kept abstract. *)
Variable unicodeToLower : string -> string.

(** [strings.ToLower]: the ASCII fast path is written out. *)
Definition ToLower (s : string) : string :=
  if all isASCIIByte s then
    if any isUpperByte s then mapBytes lowerByte s else s
  else unicodeToLower s.
End ToLower.

(** [strings.Join(elems, sep)] *)
Fixpoint Join (elems : list string) (sep : string) : string :=
  match elems with
  | [] => ""
  | [e] => e
  | e :: rest => e +:+ sep +:+ Join rest sep
  end.

Fixpoint rev (s : string) : string :=
  match s with
  | EmptyString => EmptyString
  | String c r => rev r +:+ String c EmptyString
  end.

Fixpoint cutPrefix (prefix s : string) : option string :=
  match prefix, s with
  | EmptyString, _ => Some s
  | String p prefix', String c r =>
      if Ascii.eqb p c then cutPrefix prefix' r else None
  | String _ _, EmptyString => None
  end.

(** [strings.HasPrefix] *)
Definition HasPrefix (s prefix : string) : bool :=
  match cutPrefix prefix s with
  | Some _ => true
  | None => false
  end.

(** The runes of which [unicode.IsSpace] holds. *)
Definition spaceRunes : list N :=
  [9; 10; 11; 12; 13; 32; 133; 160; 5760; 8192; 8193; 8194; 8195; 8196;
   8197; 8198; 8199; 8200; 8201; 8202; 8232; 8233; 8239; 8287; 12288]%N.

Definition spaces : list string := map Utf8.EncodeRune spaceRunes.

(** The input after one of [encodings] at its head, if there is one. *)
Fixpoint cutAny (encodings : list string) (s : string) : option string :=
  match encodings with
  | [] => None
  | e :: rest =>
      match cutPrefix e s with
      | Some r => Some r
      | None => cutAny rest s
      end
  end.

Fixpoint trimLeft (encodings : list string) (fuel : nat) (s : string)
  : string :=
  match fuel with
  | O => s
  | S fuel' =>
      match cutAny encodings s with
      | Some r => trimLeft encodings fuel' r
      | None => s
      end
  end.

(** [strings.TrimSpace]: the white-space runes at both ends are cut.  A
    rune decodes to a white-space rune, forwards or backwards, exactly
    where the bytes are its encoding, so decoding is matching of the
    encodings; the right end is trimmed on the reversed string. *)
Definition TrimSpace (s : string) : string :=
  let l := trimLeft spaces (String.length s) s in
  rev (trimLeft (map rev spaces) (String.length l) (rev l)).

(** No byte of [s] is an upper-case ASCII letter. *)
Definition noUpper (s : string) : bool := all (fun c => negb (isUpperByte c)) s.

End Strings.

(** ** Go's [path/filepath] on Unix (separator [/], no volume names) *)
Module Filepath.

Definition isSep (c : ascii) : bool := Ascii.eqb c "/"%char.

(** The elements of a path: [strings.Split(path, "/")]. *)
Fixpoint elements (path : string) : list string :=
  match path with
  | EmptyString => [EmptyString]
  | String c r =>
      if isSep c then EmptyString :: elements r
      else match elements r with
           | e :: es => String c e :: es
           | [] => [String c EmptyString]
           end
  end.

(** One turn of the loop of [Clean] on the element that starts at [r].
    [out] is the output buffer as a stack of elements, last written
    first.  An element [..] on top of the stack is the buffer at
    [out.w == dotdot]. *)
Definition cleanStep (rooted : bool) (out : list string) (elem : string)
  : list string :=
  if String.eqb elem "" then out            (* empty path element *)
  else if String.eqb elem "." then out      (* . element *)
  else if String.eqb elem ".." then         (* .. element *)
    match out with
    | top :: rest =>
        if String.eqb top ".." then (if rooted then out else elem :: out)
        else rest                            (* can backtrack *)
    | [] => if rooted then out else [elem]  (* cannot backtrack *)
    end
  else elem :: out.                          (* real path element *)

(** [filepath.Clean] *)
Definition Clean (path : string) : string :=
  if String.eqb path "" then "."
  else
    let rooted := Strings.HasPrefix path "/" in
    let out := fold_left (cleanStep rooted) (elements path) [] in
    let body := Strings.Join (rev out) "/" in
    if rooted then "/" +:+ body
    else if String.eqb body "" then "." else body.

(** [path[:i+1]] for [i] the index of the last separator of [path]. *)
Fixpoint upToLastSep (path : string) : string :=
  match path with
  | EmptyString => EmptyString
  | String c r =>
      if Strings.any isSep path then String c (upToLastSep r) else EmptyString
  end.

(** [filepath.Dir] *)
Definition Dir (path : string) : string := Clean (upToLastSep path).

(** The loop of [Base] that strips trailing separators. *)
Fixpoint stripTrailingSeps (path : string) : string :=
  match path with
  | EmptyString => EmptyString
  | String c r =>
      if Strings.all isSep path then EmptyString
      else String c (stripTrailingSeps r)
  end.

(** [path[i+1:]] for [i] the index of the last separator, [path] if none. *)
Fixpoint afterLastSep (path : string) : string :=
  match path with
  | EmptyString => EmptyString
  | String c r => if Strings.any isSep path then afterLastSep r else path
  end.

(** [filepath.Base] *)
Definition Base (path : string) : string :=
  if String.eqb path "" then "."
  else
    let last := afterLastSep (stripTrailingSeps path) in
    if String.eqb last "" then "/" else last.

(** [filepath.IsAbs] *)
Definition IsAbs (path : string) : bool := Strings.HasPrefix path "/".

(** [filepath.Join]: leading empty elements are dropped, the rest is
    joined with the separator and cleaned. *)
Fixpoint Join (elem : list string) : string :=
  match elem with
  | [] => ""
  | e :: rest =>
      if String.eqb e "" then Join rest
      else Clean (Strings.Join elem "/")
  end.

(** An element that [Clean] keeps as it is: not empty, not [.] or [..],
    without a separator. *)
Definition realElem (e : string) : bool :=
  negb (String.eqb e "") && negb (String.eqb e ".")
  && negb (String.eqb e "..") && negb (Strings.any isSep e).

(** The absolute path with the elements [elems]. *)
Definition absPath (elems : list string) : string :=
  "/" +:+ Strings.Join elems "/".

(** The text before the last element of an absolute path. *)
Definition stem (elems : list string) : string :=
  match elems with
  | [] => ""
  | _ => absPath elems
  end.

End Filepath.

(** ** Go's [error] values *)
Module Errors.

(** An [error] is known by its message and, for the errors of [os], by
    whether [os.IsNotExist] holds of it.  [fmt.Errorf] with [%w] keeps
    the error it wraps. *)
Inductive error : Type :=
| osError (notExist : bool) (msg : string)   (* *fs.PathError *)
| apiError (msg : string)                    (* returned by the Docker API *)
| jsonError (msg : string)                   (* returned by encoding/json *)
| errorString (msg : string)                 (* fmt.Errorf without %w *)
| wrapError (msg : string) (err : error).    (* fmt.Errorf with %w *)

(** [err.Error()] *)
Definition Error (e : error) : string :=
  match e with
  | osError _ msg | apiError msg | jsonError msg
  | errorString msg | wrapError msg _ => msg
  end.

(** [fmt.Errorf(prefix + "%w", err)] *)
Definition Errorf_w (prefix : string) (err : error) : error :=
  wrapError (prefix +:+ Error err) err.

(** [os.IsNotExist]: it looks through the error types of [os] only, not
    through [fmt] wrappers. *)
Definition IsNotExist (e : option error) : bool :=
  match e with
  | Some (osError true _) => true
  | _ => false
  end.

Inductive result (A : Type) : Type :=
| Ok (a : A)
| Err (e : error).
Arguments Ok {A} a.
Arguments Err {A} e.

End Errors.
Export Errors.

(** ** The process: environment, working directory, panics *)
Module Os.

(** [os.Getenv] (the empty string for a variable that is not set),
    [os.UserHomeDir] and [os.Getwd]. *)
Class Environ : Type := {
  Getenv : string -> string;
  UserHomeDir : result string;
  Getwd : result string
}.

(** The run-time panics of the program: an index and a slice bound out
    of range. *)
Inductive panic : Type :=
| IndexOutOfRange (index : Z) (len : nat)
| SliceBoundsOutOfRange (bound len : nat).

(** How an evaluation ends: with its value, or in a panic. *)
Inductive completion (A : Type) : Type :=
| Returns (a : A)
| Panics (p : panic).
Arguments Returns {A} a.
Arguments Panics {A} p.

(** [l[i]] *)
Definition index {A} (l : list A) (i : Z) : completion A :=
  if (i <? 0)%Z then Panics (IndexOutOfRange i (length l))
  else match nth_error l (Z.to_nat i) with
       | Some a => Returns a
       | None => Panics (IndexOutOfRange i (length l))
       end.

(** [s[:n]] *)
Definition slicePrefix (s : string) (n : nat) : completion string :=
  if (n <=? String.length s)%nat then Returns (String.substring 0 n s)
  else Panics (SliceBoundsOutOfRange n (String.length s)).

(** [%d] of a length *)
Definition decimal (n : nat) : string := NilEmpty.string_of_uint (Nat.to_uint n).

End Os.


(** ** Go's [encoding/json]: the scanner and the values it accepts *)
Module Json.

#[local] Set Warnings "-register-all".
Inductive json : Type :=
| JNull
| JBool (b : bool)
| JNumber (literal : string)
| JString (s : string)
| JArray (elems : list json)
| JObject (members : list (string * json)).

(** What a parsing function returns: a value and the rest of the input,
    a syntax error, or the recursion bound of the embedding reached
    (which [document] below never reaches, [document_total]: it starts
    with more than the input can consume). *)
Inductive parsed (A : Type) : Type :=
| Parsed (a : A) (rest : string)
| SyntaxError
| OutOfFuel.
Arguments Parsed {A} a rest.
Arguments SyntaxError {A}.
Arguments OutOfFuel {A}.

Definition andThen {A B} (p : parsed A) (k : A -> string -> parsed B)
  : parsed B :=
  match p with
  | Parsed a rest => k a rest
  | SyntaxError => SyntaxError
  | OutOfFuel => OutOfFuel
  end.

Definition isByte (c : ascii) (lit : string) : bool :=
  match lit with
  | String d EmptyString => Ascii.eqb c d
  | _ => false
  end.

(** The double quote. *)
Definition dquote : ascii := "034".

(** The scanner's [isSpace]: space, tab, carriage return, line feed. *)
Definition isSpace (c : ascii) : bool :=
  isByte c " " || Ascii.eqb c "009" || Ascii.eqb c "013" || Ascii.eqb c "010".

Fixpoint skipSpace (s : string) : string :=
  match s with
  | String c r => if isSpace c then skipSpace r else s
  | EmptyString => s
  end.

Definition isDigit (c : ascii) : bool := Strings.byteIn "0" "9" c.

Definition hexVal (c : ascii) : option N :=
  if isDigit c then Some (N_of_ascii c - 48)%N
  else if Strings.byteIn "a" "f" c then Some (N_of_ascii c - 87)%N
  else if Strings.byteIn "A" "F" c then Some (N_of_ascii c - 55)%N
  else None.

(** [getu4] on the text after [\u]: four hexadecimal digits. *)
Definition hex4 (s : string) : option (N * string) :=
  match s with
  | String a (String b (String c (String d rest))) =>
      match hexVal a, hexVal b, hexVal c, hexVal d with
      | Some x, Some y, Some z, Some w =>
          Some ((x * 4096 + y * 256 + z * 16 + w)%N, rest)
      | _, _, _, _ => None
      end
  | _ => None
  end.

(** [utf16.DecodeRune] *)
Definition decodeSurrogates (r1 r2 : N) : N :=
  if Utf8.inRange 55296 56319 r1 && Utf8.inRange 56320 57343 r2
  then ((r1 - 55296) * 1024 + (r2 - 56320) + 65536)%N
  else Utf8.RuneError.

(** The second half of a surrogate pair, when the text goes on with one. *)
Definition lowSurrogate (s : string) : option (N * string) :=
  match s with
  | String b (String u rest) =>
      if isByte b "\" && isByte u "u" then hex4 rest else None
  | _ => None
  end.

(** A string literal after its opening quote: the scanner's checks and
    [unquote] in one pass. *)
Fixpoint stringBody (fuel : nat) (s : string) : parsed string :=
  match fuel with
  | O => OutOfFuel
  | S fuel' =>
      match s with
      | EmptyString => SyntaxError
      | String c r =>
          let emit (t : string) (rest : string) :=
            andThen (stringBody fuel' rest)
                    (fun body rest' => Parsed (t +:+ body) rest') in
          if Ascii.eqb c dquote then Parsed EmptyString r
          else if isByte c "\" then
            match r with
            | EmptyString => SyntaxError
            | String e r' =>
                if Ascii.eqb e dquote || isByte e "\" || isByte e "/"
                then emit (String e EmptyString) r'
                else if isByte e "b" then emit (String "008" EmptyString) r'
                else if isByte e "f" then emit (String "012" EmptyString) r'
                else if isByte e "n" then emit (String "010" EmptyString) r'
                else if isByte e "r" then emit (String "013" EmptyString) r'
                else if isByte e "t" then emit (String "009" EmptyString) r'
                else if isByte e "u" then
                  match hex4 r' with
                  | None => SyntaxError
                  | Some (rr, r2) =>
                      if Utf8.isSurrogate rr then
                        match lowSurrogate r2 with
                        | Some (rr1, r3) =>
                            if (decodeSurrogates rr rr1 =? Utf8.RuneError)%N
                            then emit (Utf8.EncodeRune Utf8.RuneError) r2
                            else emit (Utf8.EncodeRune
                                         (decodeSurrogates rr rr1)) r3
                        | None => emit (Utf8.EncodeRune Utf8.RuneError) r2
                        end
                      else emit (Utf8.EncodeRune rr) r2
                  end
                else SyntaxError
            end
          else if (N_of_ascii c <? 32)%N then SyntaxError
          else if (N_of_ascii c <? 128)%N then emit (String c EmptyString) r
          else
            let '(rr, size) := Utf8.DecodeRune s in
            emit (Utf8.EncodeRune rr) (Utf8.drop size s)
      end
  end.

Fixpoint digits (s : string) : string * string :=
  match s with
  | String c r =>
      if isDigit c then let '(d, rest) := digits r in (String c d, rest)
      else (EmptyString, s)
  | EmptyString => (EmptyString, s)
  end.

(** A number literal: an optional minus sign; a zero, or a digit from 1
    to 9 and more digits; an optional fraction, a dot and one digit or
    more; an optional exponent, [e] or [E], an optional sign and one
    digit or more. *)
Definition number (s : string) : parsed string :=
  let '(sign, s1) :=
    match s with
    | String c r => if isByte c "-" then ("-", r) else ("", s)
    | _ => ("", s)
    end in
  let intPart :=
    match s1 with
    | String c r =>
        if isByte c "0" then Parsed "0" r
        else if isDigit c then let '(d, rest) := digits s1 in Parsed d rest
        else SyntaxError
    | EmptyString => SyntaxError
    end in
  andThen intPart (fun i s2 =>
  let fracPart :=
    match s2 with
    | String c r =>
        if isByte c "." then
          match digits r with
          | (EmptyString, _) => SyntaxError
          | (d, rest) => Parsed ("." +:+ d) rest
          end
        else Parsed "" s2
    | EmptyString => Parsed "" s2
    end in
  andThen fracPart (fun f s3 =>
  let expPart :=
    match s3 with
    | String c r =>
        if isByte c "e" || isByte c "E" then
          let '(sg, r1) :=
            match r with
            | String d r' =>
                if isByte d "+" || isByte d "-" then (String d EmptyString, r')
                else ("", r)
            | _ => ("", r)
            end in
          match digits r1 with
          | (EmptyString, _) => SyntaxError
          | (d, rest) => Parsed (String c EmptyString +:+ sg +:+ d) rest
          end
        else Parsed "" s3
    | EmptyString => Parsed "" s3
    end in
  andThen expPart (fun e s4 => Parsed (sign +:+ i +:+ f +:+ e) s4))).

Definition literal (lit : string) (v : json) (s : string) : parsed json :=
  if Strings.HasPrefix s lit then Parsed v (Utf8.drop (String.length lit) s)
  else SyntaxError.

(** One value.  [depth] is what is left of the scanner's
    [maxNestingDepth]. *)
Fixpoint value (fuel depth : nat) (s : string) : parsed json :=
  match fuel with
  | O => OutOfFuel
  | S fuel' =>
      match skipSpace s with
      | EmptyString => SyntaxError
      | String c r =>
          if isByte c "{" then
            match depth with
            | O => SyntaxError
            | S depth' =>
                match skipSpace r with
                | String c' r' =>
                    if isByte c' "}" then Parsed (JObject []) r'
                    else andThen (members fuel' depth' r)
                                 (fun ms rest => Parsed (JObject ms) rest)
                | EmptyString => SyntaxError
                end
            end
          else if isByte c "[" then
            match depth with
            | O => SyntaxError
            | S depth' =>
                match skipSpace r with
                | String c' r' =>
                    if isByte c' "]" then Parsed (JArray []) r'
                    else andThen (elements fuel' depth' r)
                                 (fun es rest => Parsed (JArray es) rest)
                | EmptyString => SyntaxError
                end
            end
          else if Ascii.eqb c dquote then
            andThen (stringBody (S (String.length r)) r)
                    (fun str rest => Parsed (JString str) rest)
          else if isByte c "t" then literal "true" (JBool true) (String c r)
          else if isByte c "f" then literal "false" (JBool false) (String c r)
          else if isByte c "n" then literal "null" JNull (String c r)
          else if isByte c "-" || isDigit c then
            andThen (number (String c r))
                    (fun lit rest => Parsed (JNumber lit) rest)
          else SyntaxError
      end
  end

(** The members of an object after [{], up to and including [}]. *)
with members (fuel depth : nat) (s : string) : parsed (list (string * json)) :=
  match fuel with
  | O => OutOfFuel
  | S fuel' =>
      match skipSpace s with
      | String q r =>
          if Ascii.eqb q dquote then
            andThen (stringBody (S (String.length r)) r) (fun key r1 =>
            match skipSpace r1 with
            | String colon r2 =>
                if isByte colon ":" then
                  andThen (value fuel' depth r2) (fun v r3 =>
                  match skipSpace r3 with
                  | String d r4 =>
                      if isByte d "," then
                        andThen (members fuel' depth r4)
                                (fun ms rest => Parsed ((key, v) :: ms) rest)
                      else if isByte d "}" then Parsed [(key, v)] r4
                      else SyntaxError
                  | EmptyString => SyntaxError
                  end)
                else SyntaxError
            | EmptyString => SyntaxError
            end)
          else SyntaxError
      | EmptyString => SyntaxError
      end
  end

(** The elements of an array after [[], up to and including []]. *)
with elements (fuel depth : nat) (s : string) : parsed (list json) :=
  match fuel with
  | O => OutOfFuel
  | S fuel' =>
      andThen (value fuel' depth s) (fun v r1 =>
      match skipSpace r1 with
      | String d r2 =>
          if isByte d "," then
            andThen (elements fuel' depth r2)
                    (fun es rest => Parsed (v :: es) rest)
          else if isByte d "]" then Parsed [v] r2
          else SyntaxError
      | EmptyString => SyntaxError
      end)
  end.

Definition maxNestingDepth : nat := 100 * 100.

(** [checkValid] and the value of a whole document: one value between
    optional white space. *)
Definition document (data : string) : parsed json :=
  andThen (value (2 * String.length data + 2) maxNestingDepth data)
          (fun v rest =>
             match skipSpace rest with
             | EmptyString => Parsed v EmptyString
             | _ => SyntaxError
             end).

(** *** Decoding into the Go types the program decodes into *)

(** [foldRune]: the least rune of the case orbit.  The long s (U+017F)
    and the Kelvin sign (U+212A) are the runes outside ASCII whose orbit
    holds an ASCII letter; the fold of any other rune outside ASCII stays
    outside ASCII and is written as the rune itself, which decides the
    comparison with an ASCII field name the same way. *)
Definition foldRune (r : N) : N :=
  if (r =? 383)%N then 83%N else if (r =? 8490)%N then 75%N else r.

(** [foldName]: the key with its letters in upper case. *)
Fixpoint foldName (fuel : nat) (s : string) : string :=
  match fuel with
  | O => s
  | S fuel' =>
      match s with
      | EmptyString => EmptyString
      | String c r =>
          if (N_of_ascii c <? 128)%N then
            String (if Strings.byteIn "a" "z" c
                    then ascii_of_N (N_of_ascii c - 32) else c)
                   (foldName fuel' r)
          else
            let '(rr, size) := Utf8.DecodeRune s in
            Utf8.EncodeRune (foldRune rr) +:+ foldName fuel' (Utf8.drop size s)
      end
  end.

(** The field of a struct that a key of the document names: the field
    with exactly that name, else the first whose folded name is the
    folded key. *)
Definition fieldNamed (fields : list string) (key : string) : option string :=
  match find (String.eqb key) fields with
  | Some f => Some f
  | None =>
      let folded := foldName (String.length key) key in
      find (fun f => String.eqb (foldName (String.length f) f) folded) fields
  end.

(** A value stored into a Go [string] that holds [cur]: a string is
    stored, [null] has no effect, anything else is an
    [UnmarshalTypeError]. *)
Definition storeString (cur : string) (v : json) : option string :=
  match v with
  | JString s => Some s
  | JNull => Some cur
  | _ => None
  end.

(** The errors of [encoding/json] are told apart by their kind only, a
    [*json.UnmarshalTypeError] or a [*json.SyntaxError].  Their text
    depends on the input and is not followed: one message stands for
    each kind, and the statements below name the kind, never the text. *)
Definition typeError : error :=
  jsonError "json: cannot unmarshal value into Go value".
Definition syntaxError : error :=
  jsonError "invalid character or unexpected end of JSON input".

(** Not an error of Go: the recursion bound of the embedding, kept apart
    from the errors of the scanner. *)
Definition recursionBound : error := jsonError "recursion bound".

(** [json.Unmarshal(data, &single)] for [var single string], on the value
    that [data] holds. *)
Definition UnmarshalString (data : json) : result string :=
  match storeString "" data with
  | Some s => Ok s
  | None => Err typeError
  end.

(** The elements of an array stored into a fresh [[]string]: every
    element is decoded, a type error is reported at the end. *)
Fixpoint storeStrings (elems : list json) : option (list string) :=
  match elems with
  | [] => Some []
  | v :: rest =>
      match storeString "" v, storeStrings rest with
      | Some s, Some l => Some (s :: l)
      | _, _ => None
      end
  end.

(** [json.Unmarshal(data, &multiple)] for [var multiple []string]. *)
Definition UnmarshalStrings (data : json) : result (list string) :=
  match data with
  | JArray elems =>
      match storeStrings elems with
      | Some l => Ok l
      | None => Err typeError
      end
  | JNull => Ok []
  | _ => Err typeError
  end.

End Json.


(** ** Package [internal/devcontainer] *)
Module Devcontainer.
Import Json.

(** *** The file system, as [os] shows it *)

Record DirEntry : Type := { Name : string; IsDir : bool }.

(** [Stat] is the error of [os.Stat] ([None] for [nil]), [ReadDir] and
    [ReadFile] are the results of [os.ReadDir] and [os.ReadFile]. *)
Class FileSystem : Type := {
  Stat : string -> option error;
  ReadDir : string -> result (list DirEntry);
  ReadFile : string -> result string
}.

(** *** finder.go *)
Section Finder.
Context {fs : FileSystem}.

(** The loop over the entries of the [.devcontainer] directory. *)
Fixpoint subConfigs (devcontainerDir : string) (entries : list DirEntry)
         (configs : list string) : list string :=
  match entries with
  | [] => configs
  | entry :: rest =>
      if negb (IsDir entry) then subConfigs devcontainerDir rest configs
      else
        let subConfig :=
          Filepath.Join [devcontainerDir; Name entry; "devcontainer.json"] in
        match Stat subConfig with
        | None => subConfigs devcontainerDir rest (configs ++ [subConfig])
        | Some _ => subConfigs devcontainerDir rest configs
        end
  end.

(** The pair is the two results of the Go function, [[]] for a [nil]
    slice and [None] for a [nil] error. *)
Definition FindDevcontainerConfigs (dir : string)
  : list string * option error :=
  if IsNotExist (Stat dir) then
    ([], Some (errorString ("directory does not exist: " +:+ dir)))
  else
    let configs : list string := [] in
    let devcontainerDir := Filepath.Join [dir; ".devcontainer"] in
    if IsNotExist (Stat devcontainerDir) then (configs, None)
    else
      let mainConfig := Filepath.Join [devcontainerDir; "devcontainer.json"] in
      let configs :=
        match Stat mainConfig with
        | None => configs ++ [mainConfig]
        | Some _ => configs
        end in
      match ReadDir devcontainerDir with
      | Err err =>
          ([], Some (Errorf_w "failed to read .devcontainer directory: " err))
      | Ok entries => (subConfigs devcontainerDir entries configs, None)
      end.
End Finder.

(** The bytes of a file of the examples, written with ['] where the file
    has a double quote. *)
Definition bytes (text : string) : string :=
  Strings.mapBytes (fun c => if Ascii.eqb c "'" then dquote else c) text.


(** The definition file of the examples. *)
Definition workspaceConfig : string := "/ws/.devcontainer/devcontainer.json".

(** File systems for the examples.  [noSuchFile] is the error of [os]
    for a path that does not exist. *)
Definition noSuchFile (path : string) : error :=
  osError true ("stat " +:+ path +:+ ": no such file or directory").

(** A file system that holds the one file [path] with the bytes
    [content] (and no directory that could be listed). *)
Definition singleFile (path content : string) : FileSystem :=
  {| Stat p := if String.eqb p path then None else Some (noSuchFile p);
     ReadDir p := Err (noSuchFile p);
     ReadFile p := if String.eqb p path then Ok content else Err (noSuchFile p) |}.

(** A file system given by the directories it holds, each with its
    entries, and the files it holds. *)
Definition tree (dirs : list (string * list DirEntry)) (files : list string)
  : FileSystem :=
  {| Stat p :=
       if existsb (fun d => String.eqb (fst d) p) dirs
          || existsb (String.eqb p) files
       then None else Some (noSuchFile p);
     ReadDir p :=
       match find (fun d => String.eqb (fst d) p) dirs with
       | Some d => Ok (snd d)
       | None => Err (noSuchFile p)
       end;
     ReadFile p := Err (noSuchFile p) |}.

(** [permissionDenied op path] is the error of [os] when the process may
    not do [op] on [path]; [os.IsNotExist] does not hold of it. *)
Definition permissionDenied (op path : string) : error :=
  osError false (op +:+ " " +:+ path +:+ ": permission denied").

(** A file system known by what [os.Stat] and [os.ReadDir] answer on the
    paths a run asks about; every other path does not exist. *)
Definition answering (stats : list (string * option error))
           (listings : list (string * result (list DirEntry))) : FileSystem :=
  {| Stat p :=
       match find (fun a => String.eqb (fst a) p) stats with
       | Some a => snd a
       | None => Some (noSuchFile p)
       end;
     ReadDir p :=
       match find (fun a => String.eqb (fst a) p) listings with
       | Some a => snd a
       | None => Err (noSuchFile p)
       end;
     ReadFile p := Err (noSuchFile p) |}.

(** The root [/ws] with an empty [.devcontainer] that the process may
    neither list nor search (a directory of mode 000). *)
Definition lockedWorkspace : FileSystem :=
  answering
    [("/ws", None);
     ("/ws/.devcontainer", None);
     (workspaceConfig, Some (permissionDenied "stat" workspaceConfig))]
    [("/ws", Ok [{| Name := ".devcontainer"; IsDir := true |}]);
     ("/ws/.devcontainer", Err (permissionDenied "open" "/ws/.devcontainer"))].

(** *** parser.go *)

Record Config : Type := {
  Image : string;
  DockerComposeFile : list string;
  Service : string;
  ConfigPath : string
}.

(** [json.RawMessage] is the bytes of one value of a valid document; it
    is kept as the value those bytes denote, [None] for the empty
    message of a field that the document does not have. *)
Record rawConfig : Type := {
  rawImage : string;
  rawDockerComposeFile : option json;
  rawService : string
}.

Definition rawFields : list string := ["image"; "dockerComposeFile"; "service"].

(** One member of the document stored into [raw]; [None] is an
    [UnmarshalTypeError].  A key that names no field is skipped. *)
Definition storeMember (raw : rawConfig) (member : string * json)
  : option rawConfig :=
  let '(key, v) := member in
  match fieldNamed rawFields key with
  | Some "image" =>
      option_map (fun s => {| rawImage := s;
                              rawDockerComposeFile := rawDockerComposeFile raw;
                              rawService := rawService raw |})
                 (storeString (rawImage raw) v)
  | Some "dockerComposeFile" =>
      Some {| rawImage := rawImage raw;
              rawDockerComposeFile := Some v;
              rawService := rawService raw |}
  | Some "service" =>
      option_map (fun s => {| rawImage := rawImage raw;
                              rawDockerComposeFile := rawDockerComposeFile raw;
                              rawService := s |})
                 (storeString (rawService raw) v)
  | _ => Some raw
  end.

(** The members in the order of the document: a later member overwrites
    an earlier one; a member of the wrong type leaves the field as it is
    and makes the decoding fail at the end. *)
Fixpoint storeMembers (raw : rawConfig) (failed : bool)
         (members : list (string * json)) : rawConfig * bool :=
  match members with
  | [] => (raw, failed)
  | m :: rest =>
      match storeMember raw m with
      | Some raw' => storeMembers raw' failed rest
      | None => storeMembers raw true rest
      end
  end.

Definition zeroRaw : rawConfig :=
  {| rawImage := ""; rawDockerComposeFile := None; rawService := "" |}.

(** [json.Unmarshal([]byte(cleaned), &raw)] for [var raw rawConfig]. *)
Definition UnmarshalRawConfig (cleaned : string) : result rawConfig :=
  match document cleaned with
  | Parsed (JObject members) _ =>
      match storeMembers zeroRaw false members with
      | (raw, false) => Ok raw
      | (_, true) => Err typeError
      end
  | Parsed JNull _ => Ok zeroRaw
  | Parsed _ _ => Err typeError
  | SyntaxError => Err syntaxError
  | OutOfFuel => Err recursionBound
  end.

(** The error of [parseDockerComposeFile]. *)
Definition mustBeStringOrArray : error :=
  errorString "dockerComposeFile must be a string or array of strings".

(** [parseDockerComposeFile] *)
Definition parseDockerComposeFile (data : json) : result (list string) :=
  match UnmarshalString data with
  | Ok single => Ok [single]
  | Err _ =>
      match UnmarshalStrings data with
      | Ok multiple => Ok multiple
      | Err _ => Err mustBeStringOrArray
      end
  end.

(** The three regular expressions of [stripJSONC], each with
    [ReplaceAllString]: the matches are found from left to right and do
    not overlap. *)

Definition newline : ascii := "010".

(** [//[^\n]*] replaced by the empty string.  [inComment] holds from the
    first slash of a match to the end of its line. *)
Fixpoint stripLineComments (inComment : bool) (content : string) : string :=
  match content with
  | EmptyString => EmptyString
  | String c r =>
      if inComment then
        if Ascii.eqb c newline then String c (stripLineComments false r)
        else stripLineComments true r
      else if isByte c "/" && Strings.HasPrefix r "/"
      then stripLineComments true r
      else String c (stripLineComments false r)
  end.

(** Whether [*/] occurs in the text. *)
Fixpoint hasClose (content : string) : bool :=
  match content with
  | EmptyString => false
  | String c r => (isByte c "*" && Strings.HasPrefix r "/") || hasClose r
  end.

(** Where the scanner of the block comments is: outside a match, on the
    star that opens one, inside one, or on the slash that closes one. *)
Inductive blockMode : Type := Outside | Opening | Inside | Closing.

(** [/\*[\s\S]*?\*/] replaced by the empty string: a match starts at the
    first [/*] that a [*/] follows and ends with the first such [*/]. *)
Fixpoint stripBlockComments (mode : blockMode) (content : string) : string :=
  match content with
  | EmptyString => EmptyString
  | String c r =>
      match mode with
      | Outside =>
          if isByte c "/" && Strings.HasPrefix r "*" && hasClose (Utf8.drop 1 r)
          then stripBlockComments Opening r
          else String c (stripBlockComments Outside r)
      | Opening => stripBlockComments Inside r
      | Inside =>
          if isByte c "*" && Strings.HasPrefix r "/"
          then stripBlockComments Closing r
          else stripBlockComments Inside r
      | Closing => stripBlockComments Outside r
      end
  end.

(** [\s] of the regular expressions: tab, line feed, form feed, carriage
    return, space. *)
Definition isReSpace (c : ascii) : bool :=
  Ascii.eqb c "009" || Ascii.eqb c "010" || Ascii.eqb c "012"
  || Ascii.eqb c "013" || isByte c " ".

(** Whether the text matches [\s*[}\]]] at its head. *)
Fixpoint closesAfterSpace (content : string) : bool :=
  match content with
  | EmptyString => false
  | String c r =>
      if isReSpace c then closesAfterSpace r
      else isByte c "}" || isByte c "]"
  end.

(** [,(\s*[}\]])] replaced by its group: the comma of a match goes. *)
Fixpoint stripTrailingCommas (content : string) : string :=
  match content with
  | EmptyString => EmptyString
  | String c r =>
      if isByte c "," && closesAfterSpace r then stripTrailingCommas r
      else String c (stripTrailingCommas r)
  end.

(** [stripJSONC] *)
Definition stripJSONC (content : string) : string :=
  let content := stripLineComments false content in
  let content := stripBlockComments Outside content in
  let content := stripTrailingCommas content in
  Strings.TrimSpace content.

(** What the passes leave nothing to do on: a text without [//], and a
    text in which no [/*] is followed by a [*/]. *)
Fixpoint noLine (content : string) : bool :=
  match content with
  | EmptyString => true
  | String c r =>
      negb (isByte c "/" && Strings.HasPrefix r "/") && noLine r
  end.

Fixpoint openFree (content : string) : bool :=
  match content with
  | EmptyString => true
  | String c r =>
      negb (isByte c "/" && Strings.HasPrefix r "*" && hasClose (Utf8.drop 1 r))
      && openFree r
  end.

(** The text that the scanner of the block comments is on fits its mode:
    on the star of the opening, on the slash of the closing. *)
Definition fits (mode : blockMode) (content : string) : Prop :=
  match mode with
  | Opening => Strings.HasPrefix content "*" = true
  | Closing => Strings.HasPrefix content "/" = true
  | Outside | Inside => True
  end.

Section Parser.
Context {fs : FileSystem}.

(** [ParseConfig] *)
Definition ParseConfig (path : string) : result Config :=
  match ReadFile path with
  | Err err => Err (Errorf_w "failed to read config file: " err)
  | Ok data =>
      let cleaned := stripJSONC data in
      match UnmarshalRawConfig cleaned with
      | Err err => Err (Errorf_w "failed to parse config: " err)
      | Ok raw =>
          let config := {| Image := rawImage raw;
                           DockerComposeFile := [];
                           Service := rawService raw;
                           ConfigPath := path |} in
          match rawDockerComposeFile raw with
          | Some data' =>
              match parseDockerComposeFile data' with
              | Err err => Err err
              | Ok files => Ok {| Image := Image config;
                                  DockerComposeFile := files;
                                  Service := Service config;
                                  ConfigPath := ConfigPath config |}
              end
          | None => Ok config
          end
      end
  end.
End Parser.

(** [IsImageBased] *)
Definition IsImageBased (c : Config) : bool :=
  negb (String.eqb (Image c) "") && (length (DockerComposeFile c) =? 0)%nat.

(** [IsComposeBased] *)
Definition IsComposeBased (c : Config) : bool :=
  (0 <? length (DockerComposeFile c))%nat.

(** The body of the loop of [GetComposeFiles]: what is written for the
    compose file [f]. *)
Definition resolveComposeFile (configDir f : string) : string :=
  if Filepath.IsAbs f then f
  else Filepath.Clean (Filepath.Join [configDir; f]).

(** The loop of [GetComposeFiles]: [files[i]] is written for the [i]-th
    compose file [f]. *)
Fixpoint resolveFrom (configDir : string) (i : nat) (composeFiles : list string)
         (files : list string) : list string :=
  match composeFiles with
  | [] => files
  | f :: rest =>
      let file := resolveComposeFile configDir f in
      resolveFrom configDir (S i) rest (<[i := file]> files)
  end.

(** [GetComposeFiles]; [files] starts as [make([]string, len)]. *)
Definition GetComposeFiles (c : Config) : list string :=
  if (length (DockerComposeFile c) =? 0)%nat then []
  else
    let configDir := Filepath.Dir (ConfigPath c) in
    let files := replicate (length (DockerComposeFile c)) "" in
    resolveFrom configDir 0 (DockerComposeFile c) files.

End Devcontainer.

(** ** Package [internal/docker] *)
Module Docker.
Import Devcontainer.

(** *** client.go, compose.go: the data *)

Record ContainerInfo : Type := {
  ID : string;
  Names : list string;
  Labels : list (string * string);
  State : string
}.

Record ContainerListOptions : Type := { All : bool; LabelFilter : string }.

Record NetworkInfo : Type := { NetworkID : string; NetworkName : string }.

Record NetworkListOptions : Type := { NetworkLabelFilter : string }.

Record VolumeInfo : Type := {
  VolumeName : string;
  VolumeLabels : list (string * string)
}.

Record VolumeListOptions : Type := { VolumeLabelFilter : string }.

(** *** The interfaces

    A method takes the world it runs in (the daemon behind the client,
    and the [context.Context] with it) and returns its Go results with
    the world it leaves.  [None] is the [nil] error, [[]] the [nil]
    slice. *)

Definition M (W A : Type) : Type := W -> A * W.

Definition ret {W A} (a : A) : M W A := fun w => (a, w).

Definition bind {W A B} (m : M W A) (k : A -> M W B) : M W B :=
  fun w => let '(a, w') := m w in k a w'.

Notation "x <- m ;; k" := (bind m (fun x => k))
  (at level 100, m at next level, right associativity).

Class ContainerClient (W : Type) : Type := {
  ContainerList : ContainerListOptions -> M W (list ContainerInfo * option error);
  ContainerStop : string -> option Z -> M W (option error);
  ContainerRemove : string -> bool -> M W (option error);
  Close : M W (option error)
}.

Class ComposeClient (W : Type) : Type := {
  containerClient :: ContainerClient W;
  NetworkList : NetworkListOptions -> M W (list NetworkInfo * option error);
  NetworkRemove : string -> M W (option error);
  VolumeList : VolumeListOptions -> M W (list VolumeInfo * option error);
  VolumeRemove : string -> bool -> M W (option error)
}.

(** A [for ... range] loop whose body may [return] an error: [body x] is
    [Some e] when the turn for [x] returns [e] from the function. *)
Fixpoint forRange {W A} (body : A -> M W (option error)) (l : list A)
  : M W (option error) :=
  match l with
  | [] => ret None
  | x :: rest =>
      err <- body x ;;
      match err with
      | Some e => ret (Some e)
      | None => forRange body rest
      end
  end.

(** [fmt.Errorf(what + " %s: %w", name, err)] when [err] is not [nil]. *)
Definition orErrorf (what name : string) (err : option error) : option error :=
  option_map (Errorf_w (what +:+ " " +:+ name +:+ ": ")) err.

(** [fmt.Sprintf("com.docker.compose.project=%s", projectName)] *)
Definition projectLabel (projectName : string) : string :=
  "com.docker.compose.project=" +:+ projectName.

(** *** client.go: [ContainerOps] *)
Section ContainerOps.
Context {W : Type} {client : ContainerClient W}.

Definition FindDevcontainersByFolder (folderPath : string)
  : M W (list ContainerInfo * option error) :=
  ContainerList {| All := true;
                   LabelFilter := "devcontainer.local_folder=" +:+ folderPath |}.

Definition FindDevcontainersByConfigPath (configPath : string)
  : M W (list ContainerInfo * option error) :=
  ContainerList {| All := true;
                   LabelFilter := "devcontainer.config_file=" +:+ configPath |}.

Definition StopContainers (containers : list ContainerInfo)
  : M W (option error) :=
  forRange (fun container =>
              err <- ContainerStop (ID container) None ;;
              ret (orErrorf "failed to stop container" (ID container) err))
           containers.

Definition RemoveContainers (containers : list ContainerInfo)
  : M W (option error) :=
  forRange (fun container =>
              err <- ContainerRemove (ID container) true ;;
              ret (orErrorf "failed to remove container" (ID container) err))
           containers.
End ContainerOps.

(** *** compose.go: [ComposeOps] *)
Section ComposeOps.
Context {W : Type} {client : ComposeClient W}.

Definition FindComposeContainers (projectName : string)
  : M W (list ContainerInfo * option error) :=
  ContainerList {| All := true; LabelFilter := projectLabel projectName |}.

Definition StopComposeProject (projectName : string) : M W (option error) :=
  found <- FindComposeContainers projectName ;;
  let '(containers, err) := found in
  match err with
  | Some e => ret (Some (Errorf_w "failed to find compose containers: " e))
  | None =>
      forRange (fun container =>
                  err <- ContainerStop (ID container) None ;;
                  ret (orErrorf "failed to stop container" (ID container) err))
               containers
  end.

(** The volume phase of [DownComposeProject], the body of
    [if removeVolumes]. *)
Definition removeProjectVolumes (projectName : string) : M W (option error) :=
  listed <- VolumeList {| VolumeLabelFilter := projectLabel projectName |} ;;
  let '(volumes, err) := listed in
  match err with
  | Some e => ret (Some (Errorf_w "failed to list volumes: " e))
  | None =>
      forRange (fun volume =>
                  err <- VolumeRemove (VolumeName volume) true ;;
                  ret (orErrorf "failed to remove volume" (VolumeName volume) err))
               volumes
  end.

Definition DownComposeProject (projectName : string) (removeVolumes : bool)
  : M W (option error) :=
  found <- FindComposeContainers projectName ;;
  let '(containers, err) := found in
  match err with
  | Some e => ret (Some (Errorf_w "failed to find compose containers: " e))
  | None =>
      (* Stop containers *)
      err <- forRange (fun container =>
               err <- ContainerStop (ID container) None ;;
               ret (orErrorf "failed to stop container" (ID container) err))
             containers ;;
      match err with
      | Some e => ret (Some e)
      | None =>
          (* Remove containers *)
          err <- forRange (fun container =>
                   err <- ContainerRemove (ID container) true ;;
                   ret (orErrorf "failed to remove container" (ID container) err))
                 containers ;;
          match err with
          | Some e => ret (Some e)
          | None =>
              (* Remove networks *)
              listed <- NetworkList
                          {| NetworkLabelFilter := projectLabel projectName |} ;;
              let '(networks, err) := listed in
              match err with
              | Some e => ret (Some (Errorf_w "failed to list networks: " e))
              | None =>
                  err <- forRange (fun network =>
                           err <- NetworkRemove (NetworkID network) ;;
                           ret (orErrorf "failed to remove network"
                                         (NetworkName network) err))
                         networks ;;
                  match err with
                  | Some e => ret (Some e)
                  | None =>
                      (* Remove volumes if requested *)
                      if removeVolumes then removeProjectVolumes projectName
                      else ret None
                  end
              end
          end
      end
  end.
End ComposeOps.

(** *** Project names *)
Section Naming.
(** See [Strings.ToLower]. *)
Variable unicodeToLower : string -> string.
Let ToLower := Strings.ToLower unicodeToLower.

Definition DeriveDevcontainerProjectName (configPath : string) : string :=
  (* Get the directory containing devcontainer.json *)
  let configDir := Filepath.Dir configPath in
  (* Get the base name of the config directory *)
  let configDirName := Filepath.Base configDir in
  (* Check if devcontainer.json is directly in .devcontainer directory *)
  if String.eqb configDirName ".devcontainer" then
    let parentDir := Filepath.Dir configDir in
    let name := Filepath.Base parentDir in
    ToLower name +:+ "_devcontainer"
  else
    ToLower configDirName.

(** Modelled from the spec: [DeriveProjectNameFromComposeFile], of which
    the sources hold the tests only.  The spec (4.3,
    deriveFromComposeFilePath): with [dir] the parent directory of the
    path, if the base name of [dir] is the reserved directory name,
    the lower-case base name of the parent of [dir] and
    [_devcontainer]; else if the base name of the parent of [dir] is
    the reserved directory name, the lower-case base name of [dir];
    else the lower-case base name of [dir]. *)
Definition DeriveProjectNameFromComposeFile (composeFilePath : string)
  : string :=
  let dir := Filepath.Dir composeFilePath in
  if String.eqb (Filepath.Base dir) ".devcontainer" then
    ToLower (Filepath.Base (Filepath.Dir dir)) +:+ "_devcontainer"
  else if String.eqb (Filepath.Base (Filepath.Dir dir)) ".devcontainer" then
    ToLower (Filepath.Base dir)
  else
    ToLower (Filepath.Base dir).

(** Modelled from the spec: [DeriveProjectNameFromComposeFiles], of which
    the sources hold the tests only.  The spec (4.3): the derivation is
    applied to the first path of the sequence; an empty sequence gives
    the empty string. *)
Definition DeriveProjectNameFromComposeFiles (composeFiles : list string)
  : string :=
  match composeFiles with
  | [] => ""
  | first :: _ => DeriveProjectNameFromComposeFile first
  end.

(** Modelled from the spec: [DeriveProjectNameFromConfig], of which the
    sources hold the tests and the callers only.  The spec (4.3,
    deriveForDefinition): for a definition with compose files, the
    derivation from the first of them, resolved against the directory
    of the definition file (4.2); else the derivation from the path of
    the definition file. *)
Definition DeriveProjectNameFromConfig (cfg : Config) : string :=
  if IsComposeBased cfg
  then DeriveProjectNameFromComposeFiles (GetComposeFiles cfg)
  else DeriveDevcontainerProjectName (ConfigPath cfg).
End Naming.

(** *** client.go: the Docker context and the client *)

(** [dockerConfig], [contextEndpoint] and [contextMeta] (whose field
    [Name] is [MetaName] here). *)
Record dockerConfig : Type := { CurrentContext : string }.

Record contextEndpoint : Type := { Host : string }.

Record contextMeta : Type := {
  MetaName : string;
  Endpoints : gmap string contextEndpoint
}.

(** One member of the document stored into a [dockerConfig]; the flag
    is set by an [UnmarshalTypeError]. *)
Definition storeDockerConfig (acc : dockerConfig * bool)
           (member : string * Json.json) : dockerConfig * bool :=
  let '(config, failed) := acc in
  let '(key, v) := member in
  match Json.fieldNamed ["currentContext"] key with
  | Some _ =>
      match Json.storeString (CurrentContext config) v with
      | Some s => ({| CurrentContext := s |}, failed)
      | None => (config, true)
      end
  | None => (config, failed)
  end.

(** [json.Unmarshal(data, &config)] for [var config dockerConfig]. *)
Definition UnmarshalDockerConfig (data : string) : result dockerConfig :=
  match Json.document data with
  | Json.Parsed (Json.JObject members) _ =>
      match fold_left storeDockerConfig members ({| CurrentContext := "" |}, false) with
      | (config, false) => Ok config
      | (_, true) => Err Json.typeError
      end
  | Json.Parsed Json.JNull _ => Ok {| CurrentContext := "" |}
  | Json.Parsed _ _ => Err Json.typeError
  | Json.SyntaxError => Err Json.syntaxError
  | Json.OutOfFuel => Err Json.recursionBound
  end.

(** One member of an object stored into a [contextEndpoint]. *)
Definition storeEndpointMember (acc : contextEndpoint * bool)
           (member : string * Json.json) : contextEndpoint * bool :=
  let '(endpoint, failed) := acc in
  let '(key, v) := member in
  match Json.fieldNamed ["Host"] key with
  | Some _ =>
      match Json.storeString (Host endpoint) v with
      | Some s => ({| Host := s |}, failed)
      | None => (endpoint, true)
      end
  | None => (endpoint, failed)
  end.

(** A value stored into a fresh element of the map: an object fills the
    fields, [null] leaves the zero value, anything else is an
    [UnmarshalTypeError]. *)
Definition storeEndpoint (v : Json.json) : contextEndpoint * bool :=
  match v with
  | Json.JObject members =>
      fold_left storeEndpointMember members ({| Host := "" |}, false)
  | Json.JNull => ({| Host := "" |}, false)
  | _ => ({| Host := "" |}, true)
  end.

(** A value stored into a [map[string]contextEndpoint]: the members of
    an object are written under their keys, in their order, also when
    the element had an error; [null] makes the map [nil]. *)
Definition storeEndpoints (endpoints : gmap string contextEndpoint)
           (v : Json.json) : gmap string contextEndpoint * bool :=
  match v with
  | Json.JObject members =>
      fold_left (fun (acc : gmap string contextEndpoint * bool)
                     (member : string * Json.json) =>
                   let '(endpoint, failed) := storeEndpoint (snd member) in
                   (<[fst member := endpoint]> (fst acc), snd acc || failed))
                members (endpoints, false)
  | Json.JNull => (∅, false)
  | _ => (endpoints, true)
  end.

Definition storeMetaMember (acc : contextMeta * bool)
           (member : string * Json.json) : contextMeta * bool :=
  let '(meta, failed) := acc in
  let '(key, v) := member in
  match Json.fieldNamed ["Name"; "Endpoints"] key with
  | Some "Name" =>
      match Json.storeString (MetaName meta) v with
      | Some s => ({| MetaName := s; Endpoints := Endpoints meta |}, failed)
      | None => (meta, true)
      end
  | Some "Endpoints" =>
      let '(endpoints, failed') := storeEndpoints (Endpoints meta) v in
      ({| MetaName := MetaName meta; Endpoints := endpoints |}, failed || failed')
  | _ => (meta, failed)
  end.

(** [json.Unmarshal(data, &meta)] for [var meta contextMeta]. *)
Definition UnmarshalContextMeta (data : string) : result contextMeta :=
  let zero := {| MetaName := ""; Endpoints := ∅ |} in
  match Json.document data with
  | Json.Parsed (Json.JObject members) _ =>
      match fold_left storeMetaMember members (zero, false) with
      | (meta, false) => Ok meta
      | (_, true) => Err Json.typeError
      end
  | Json.Parsed Json.JNull _ => Ok zero
  | Json.Parsed _ _ => Err Json.typeError
  | Json.SyntaxError => Err Json.syntaxError
  | Json.OutOfFuel => Err Json.recursionBound
  end.

(** The options that [NewClientWithContext] gives to the SDK. *)
Inductive Opt : Type :=
| WithAPIVersionNegotiation
| WithHost (host : string)
| FromEnv.

(** [client.DefaultDockerHost] *)
Definition DefaultDockerHost : string := "unix:///var/run/docker.sock".

Section ClientContext.
Context {fs : FileSystem} {env : Os.Environ}.

(** [hex.EncodeToString] of [sha256.Sum256], and [%q] of a string
    ([strconv.Quote]): both are kept abstract. *)
Variable Sum256Hex : string -> string.
Variable Quote : string -> string.

(** [client.NewClientWithOpts] of the SDK; the client it returns is
    known by the methods that [RealDockerClient] has on it. *)
Context {W : Type}.
Variable NewClientWithOpts : list Opt -> result (ComposeClient W).

Definition getDockerConfigDir : string :=
  let dir := Os.Getenv "DOCKER_CONFIG" in
  if negb (String.eqb dir "") then dir
  else
    match Os.UserHomeDir with
    | Err _ => Filepath.Join ["."; ".docker"]
    | Ok home => Filepath.Join [home; ".docker"]
    end.

Definition getCurrentContext : string :=
  let configPath := Filepath.Join [getDockerConfigDir; "config.json"] in
  match ReadFile configPath with
  | Err _ => ""
  | Ok data =>
      match UnmarshalDockerConfig data with
      | Err _ => ""
      | Ok config => CurrentContext config
      end
  end.

Definition resolveContextEndpoint (contextName : string) : result string :=
  (* Special case: "default" context uses the default Docker socket *)
  if String.eqb contextName "default" then Ok DefaultDockerHost
  else
    let dockerConfigDir := getDockerConfigDir in
    (* Context ID is SHA256 of the context name *)
    let contextID := Sum256Hex contextName in
    let metaPath :=
      Filepath.Join [dockerConfigDir; "contexts"; "meta"; contextID; "meta.json"] in
    match ReadFile metaPath with
    | Err err =>
        Err (Errorf_w ("context " +:+ Quote contextName +:+ " not found: ") err)
    | Ok data =>
        match UnmarshalContextMeta data with
        | Err err => Err (Errorf_w "failed to parse context metadata: " err)
        | Ok meta =>
            match Endpoints meta !! "docker" with
            | None =>
                Err (errorString ("no docker endpoint found in context "
                                  +:+ Quote contextName))
            | Some endpoint =>
                if String.eqb (Host endpoint) "" then
                  Err (errorString ("empty host in context " +:+ Quote contextName))
                else Ok (Host endpoint)
            end
        end
    end.

(** [NewClientWithContext]; the wrapper [RealDockerClient] around the
    client of the SDK is not written. *)
Definition NewClientWithContext (contextName : string)
  : result (ComposeClient W) :=
  let opts := [WithAPIVersionNegotiation] in
  (* Determine which context to use *)
  let resolvedContext := contextName in
  let resolvedContext :=
    if String.eqb resolvedContext "" then
      (* Check DOCKER_CONTEXT environment variable first *)
      let envContext := Os.Getenv "DOCKER_CONTEXT" in
      if negb (String.eqb envContext "") then envContext
      else if String.eqb (Os.Getenv "DOCKER_HOST") "" then
        (* If DOCKER_HOST is not set, check current context from config *)
        let currentCtx := getCurrentContext in
        if negb (String.eqb currentCtx "") && negb (String.eqb currentCtx "default")
        then currentCtx else resolvedContext
      else resolvedContext
    else resolvedContext in
  let opts :=
    if negb (String.eqb resolvedContext "")
       && negb (String.eqb resolvedContext "default")
    then
      (* Use specified context *)
      match resolveContextEndpoint resolvedContext with
      | Err err =>
          Err (Errorf_w ("failed to resolve context " +:+ Quote resolvedContext
                         +:+ ": ") err)
      | Ok host => Ok (opts ++ [WithHost host])
      end
    else
      (* Use default behavior (DOCKER_HOST or default socket) *)
      Ok (opts ++ [FromEnv]) in
  match opts with
  | Err err => Err err
  | Ok opts =>
      match NewClientWithOpts opts with
      | Err err => Err (Errorf_w "failed to create docker client: " err)
      | Ok cli => Ok cli
      end
  end.

(** [NewClient] *)
Definition NewClient : result (ComposeClient W) := NewClientWithContext "".
End ClientContext.

End Docker.

(** ** Package [internal/ui] *)
Module Ui.
Import Devcontainer Os.

(** [promptui.Select] with the fields that the program sets.  [Run]
    returns the index and the text of the item that was chosen, and an
    error; what the user does is what [SelectRun] answers. *)
Record Select : Type := { Label : string; Items : list string; Size : Z }.

Class Terminal : Type := { SelectRun : Select -> Z * string * option error }.

Section SelectConfig.
Context {term : Terminal}.

(** [docker.DeriveProjectNameFromConfig]: the sources do not hold it, and
    it is any function here. *)
Variable DeriveProjectNameFromConfig : Config -> string.

(** The loop of [deduplicateConfigs]. *)
Fixpoint deduplicateLoop (configs : list Config) (seen : gmap string bool)
         (result : list Config) : list Config :=
  match configs with
  | [] => result
  | cfg :: rest =>
      let projectName := DeriveProjectNameFromConfig cfg in
      if negb (default false (seen !! projectName)) then
        deduplicateLoop rest (<[projectName := true]> seen) (result ++ [cfg])
      else deduplicateLoop rest seen result
  end.

Definition deduplicateConfigs (configs : list Config) : list Config :=
  if (length configs <=? 1)%nat then configs
  else deduplicateLoop configs ∅ [].

(** The loop that builds the display items: [items[i]] is written for
    the [i]-th configuration. *)
Fixpoint itemsFrom (i : nat) (uniqueConfigs : list Config) (items : list string)
  : list string :=
  match uniqueConfigs with
  | [] => items
  | cfg :: rest =>
      let configType := if IsComposeBased cfg then "compose" else "image" in
      let projectName := DeriveProjectNameFromConfig cfg in
      itemsFrom (S i) rest
                (<[i := projectName +:+ " (" +:+ configType +:+ ")"]> items)
  end.

(** [SelectConfig]; [Err] is a [nil] configuration with the error. *)
Definition SelectConfig (configs : list Config) : completion (result Config) :=
  if (length configs =? 0)%nat then
    Returns (Err (errorString "no configs to select from"))
  else
    (* Deduplicate configs by project name *)
    let uniqueConfigs := deduplicateConfigs configs in
    if (length uniqueConfigs =? 1)%nat then
      match index uniqueConfigs 0 with
      | Returns cfg => Returns (Ok cfg)
      | Panics p => Panics p
      end
    else
      (* Build display items *)
      let items := itemsFrom 0 uniqueConfigs
                             (replicate (length uniqueConfigs) "") in
      let prompt := {| Label := "Select devcontainer"; Items := items;
                       Size := 10 |} in
      let '(idx, _, err) := SelectRun prompt in
      match err with
      | Some e => Returns (Err (Errorf_w "selection cancelled: " e))
      | None =>
          match index uniqueConfigs idx with
          | Returns cfg => Returns (Ok cfg)
          | Panics p => Panics p
          end
      end.
End SelectConfig.

End Ui.

(** ** Package [cmd] *)
Module Cmd.
Import Devcontainer.

(** The two functions [runStop] ends in. *)
Inductive handler : Type := handleCompose | handleImage.

(** The last statements of [runStop], "handle based on config type":
    which function the selected configuration is given to. *)
Definition runStop_handler (selectedConfig : Config) : handler :=
  if IsComposeBased selectedConfig then handleCompose else handleImage.

End Cmd.

(** ** Package [cmd], root.go with its effects *)
Module Root.
Import Devcontainer Docker Os Ui.

(** The flags of the command. *)
Record Flags : Type := {
  downFlag : bool;
  volumesFlag : bool;
  contextFlag : string
}.

(** What the command has written. *)
Record Console : Type := { stdout : string; stderr : string }.

(** A part of the command: it runs in the world of the Docker client
    and the console, and ends with a value or in a panic. *)
Definition Prog (W A : Type) : Type := M (W * Console) (completion A).

Definition retP {W A} (a : A) : Prog W A := ret (Returns a).

Definition bindP {W A B} (m : Prog W A) (k : A -> Prog W B) : Prog W B :=
  fun s => let '(r, s') := m s in
           match r with
           | Returns a => k a s'
           | Panics p => (Panics p, s')
           end.

Notation "x <~ m ;; k" := (bindP m (fun x => k))
  (at level 100, m at next level, right associativity).

(** A call of a method of the client. *)
Definition lift {W A} (m : M W A) : Prog W A :=
  fun '(w, console) => let '(a, w') := m w in (Returns a, (w', console)).

(** An evaluation that may panic. *)
Definition eval {W A} (r : completion A) : Prog W A := ret r.

Definition nl : string := String newline "".

(** [fmt.Printf] and [fmt.Println] with the text they write, and
    [fmt.Fprintf(os.Stderr, ...)]. *)
Definition Print {W} (text : string) : Prog W unit :=
  fun '(w, console) =>
    (Returns tt, (w, {| stdout := stdout console +:+ text;
                        stderr := stderr console |})).

Definition Println {W} (text : string) : Prog W unit := Print (text +:+ nl).

Definition Eprint {W} (text : string) : Prog W unit :=
  fun '(w, console) =>
    (Returns tt, (w, {| stdout := stdout console;
                        stderr := stderr console +:+ text |})).

(** [defer cleanup()] before [body]: [cleanup] runs when [body] has
    returned and when it has panicked. *)
Definition deferred {W A} (cleanup : Prog W unit) (body : Prog W A) : Prog W A :=
  fun s => let '(r, s') := body s in
           let '(c, s'') := cleanup s' in
           match c with
           | Returns _ => (r, s'')
           | Panics p => (Panics p, s'')
           end.

(** A [for ... range] loop without [return]. *)
Fixpoint forEach {W A} (body : A -> Prog W unit) (l : list A) : Prog W unit :=
  match l with
  | [] => retP tt
  | x :: rest => _ <~ body x ;; forEach body rest
  end.

(** [filepath.Abs] on Unix *)
Definition Abs {env : Environ} (path : string) : result string :=
  if Filepath.IsAbs path then Ok (Filepath.Clean path)
  else
    match Getwd with
    | Err err => Err err
    | Ok wd => Ok (Filepath.Join [wd; path])
    end.

(** A container whose line cannot be printed: its identifier has fewer
    than twelve bytes. *)
Definition shortID (c : ContainerInfo) : bool :=
  (String.length (ID c) <? 12)%nat.

Section Handlers.
Variable flags : Flags.

(** See [Ui.SelectConfig]. *)
Variable DeriveProjectNameFromConfig : Config -> string.

Section WithClient.
Context {W : Type} {client : ComposeClient W}.

(** The line that is printed for a container: its first name and the
    first twelve bytes of its identifier. *)
Definition printContainer (c : ContainerInfo) : Prog W unit :=
  let name := match Names c with
              | first :: _ => first
              | [] => ""
              end in
  short <~ eval (slicePrefix (ID c) 12) ;;
  Print ("  - " +:+ name +:+ " (" +:+ short +:+ ")" +:+ nl).

Definition handleImage (cfg : Config) : Prog W (option error) :=
  (* Find containers by config path *)
  found <~ lift (FindDevcontainersByConfigPath (ConfigPath cfg)) ;;
  let '(containers, err) := found in
  match err with
  | Some e => retP (Some (Errorf_w "failed to find containers: " e))
  | None =>
      if (length containers =? 0)%nat then
        _ <~ Println "No running containers found for this devcontainer" ;;
        retP None
      else
        _ <~ Print ("Found " +:+ decimal (length containers)
                    +:+ " container(s) to stop" +:+ nl) ;;
        _ <~ forEach printContainer containers ;;
        (* Stop containers *)
        err <~ lift (StopContainers containers) ;;
        match err with
        | Some e => retP (Some e)
        | None =>
            if downFlag flags then
              (* Remove containers *)
              err <~ lift (RemoveContainers containers) ;;
              match err with
              | Some e => retP (Some e)
              | None =>
                  _ <~ Println "Containers stopped and removed successfully" ;;
                  retP None
              end
            else
              _ <~ Println "Containers stopped successfully" ;;
              retP None
        end
  end.

(** The second half of [handleCompose], from [if downFlag]. *)
Definition stopOrDown (projectName : string) : Prog W (option error) :=
  if downFlag flags then
    (* Stop and remove containers, networks, and optionally volumes *)
    err <~ lift (DownComposeProject projectName (volumesFlag flags)) ;;
    match err with
    | Some e => retP (Some e)
    | None =>
        _ <~ (if volumesFlag flags
              then Println "Compose project stopped and removed (including volumes) successfully"
              else Println "Compose project stopped and removed successfully") ;;
        retP None
    end
  else
    (* Just stop containers *)
    err <~ lift (StopComposeProject projectName) ;;
    match err with
    | Some e => retP (Some e)
    | None =>
        _ <~ Println "Compose project stopped successfully" ;;
        retP None
    end.

Definition handleCompose (cfg : Config) : Prog W (option error) :=
  (* Derive project name from devcontainer config *)
  let projectName := DeriveProjectNameFromConfig cfg in
  (* Find containers *)
  found <~ lift (FindComposeContainers projectName) ;;
  let '(containers, err) := found in
  match err with
  | Some e => retP (Some (Errorf_w "failed to find compose containers: " e))
  | None =>
      if (length containers =? 0)%nat then
        if negb (downFlag flags) then
          _ <~ Print ("No containers found for compose project '"
                      +:+ projectName +:+ "'" +:+ nl) ;;
          retP None
        else
          _ <~ Print ("No containers found for compose project '"
                      +:+ projectName +:+ "', cleaning up resources..." +:+ nl) ;;
          stopOrDown projectName
      else
        _ <~ Print ("Found " +:+ decimal (length containers)
                    +:+ " container(s) in compose project '"
                    +:+ projectName +:+ "'" +:+ nl) ;;
        _ <~ forEach printContainer containers ;;
        stopOrDown projectName
  end.
End WithClient.

Section RunStop.
Context {fs : FileSystem} {env : Environ} {term : Terminal}.

(** See [Docker.NewClientWithContext]. *)
Variable Sum256Hex : string -> string.
Variable Quote : string -> string.
Context {W : Type}.
Variable NewClientWithOpts : list Opt -> result (ComposeClient W).

(** The loop "parse all configs": a file that is refused is reported
    and left out. *)
Fixpoint parseConfigs (configPaths : list string) (configs : list Config)
  : Prog W (list Config) :=
  match configPaths with
  | [] => retP configs
  | path :: rest =>
      match ParseConfig path with
      | Err err =>
          _ <~ Print ("Warning: failed to parse " +:+ path +:+ ": "
                      +:+ Error err +:+ nl) ;;
          parseConfigs rest configs
      | Ok cfg => parseConfigs rest (configs ++ [cfg])
      end
  end.

(** The deferred function of [runStop]. *)
Definition closeClient (dockerClient : ComposeClient W) : Prog W unit :=
  closeErr <~ lift Close ;;
  match closeErr with
  | Some e =>
      Eprint ("Warning: failed to close docker client: " +:+ Error e +:+ nl)
  | None => retP tt
  end.

Definition runStop (args : list string) : Prog W (option error) :=
  (* Validate flags *)
  if volumesFlag flags && negb (downFlag flags) then
    retP (Some (errorString "--volumes requires --down flag"))
  else
    (* Determine target directory *)
    let targetDir := match args with
                     | first :: _ => first
                     | [] => "."
                     end in
    (* Convert to absolute path *)
    match Abs targetDir with
    | Err err => retP (Some (Errorf_w "failed to get absolute path: " err))
    | Ok absDir =>
        (* Find devcontainer configs *)
        match FindDevcontainerConfigs absDir with
        | (_, Some err) =>
            retP (Some (Errorf_w "failed to find devcontainer configs: " err))
        | (configPaths, None) =>
            if (length configPaths =? 0)%nat then
              _ <~ Println "No devcontainer.json found" ;;
              retP None
            else
              (* Parse all configs *)
              configs <~ parseConfigs configPaths [] ;;
              if (length configs =? 0)%nat then
                retP (Some (errorString "no valid devcontainer configs found"))
              else
                (* Select config if multiple *)
                selected <~ eval (SelectConfig DeriveProjectNameFromConfig configs) ;;
                match selected with
                | Err err => retP (Some err)
                | Ok selectedConfig =>
                    (* Create Docker client *)
                    match NewClientWithContext Sum256Hex Quote NewClientWithOpts
                                               (contextFlag flags) with
                    | Err err =>
                        retP (Some (Errorf_w "failed to create docker client: " err))
                    | Ok dockerClient =>
                        deferred (closeClient dockerClient)
                          (* Handle based on config type *)
                          (if IsComposeBased selectedConfig
                           then handleCompose (client := dockerClient) selectedConfig
                           else handleImage (client := dockerClient) selectedConfig)
                    end
                end
        end
    end.
End RunStop.
End Handlers.

End Root.

(** ** Clients for the proofs: a recorder and a scripted double *)
Module Recorder.
Import Docker.

(** A call of a method of [ComposeClient] with its arguments. *)
Inductive Call : Type :=
| ContainerListCall (options : ContainerListOptions)
| ContainerStopCall (containerID : string) (timeout : option Z)
| ContainerRemoveCall (containerID : string) (force : bool)
| CloseCall
| NetworkListCall (options : NetworkListOptions)
| NetworkRemoveCall (networkID : string)
| VolumeListCall (options : VolumeListOptions)
| VolumeRemoveCall (volumeName : string) (force : bool).

(** What a call returned beside its error. *)
Inductive Reply : Type :=
| Containers (containers : list ContainerInfo)
| Networks (networks : list NetworkInfo)
| Volumes (volumes : list VolumeInfo)
| Done.

Record Event : Type := { call : Call; reply : Reply; err : option error }.

Section Recording.
Context {W : Type} (client : ComposeClient W).

(** [m] run on the client, with the event [ev] of its results written
    at the end of the log. *)
Definition record {A} (m : M W A) (ev : A -> Event)
  : M (W * list Event) A :=
  fun '(w, log) => let '(a, w') := m w in (a, (w', log ++ [ev a])).

Definition recordingContainers : ContainerClient (W * list Event) :=
  {| ContainerList options :=
       record (ContainerList options)
              (fun '(containers, e) =>
                 {| call := ContainerListCall options;
                    reply := Containers containers; err := e |});
     ContainerStop containerID timeout :=
       record (ContainerStop containerID timeout)
              (fun e => {| call := ContainerStopCall containerID timeout;
                           reply := Done; err := e |});
     ContainerRemove containerID force :=
       record (ContainerRemove containerID force)
              (fun e => {| call := ContainerRemoveCall containerID force;
                           reply := Done; err := e |});
     Close :=
       record Close (fun e => {| call := CloseCall; reply := Done; err := e |})
  |}.

(** The client that behaves as [client] does and logs every call. *)
Definition recording : ComposeClient (W * list Event) :=
  {| containerClient := recordingContainers;
     NetworkList options :=
       record (NetworkList options)
              (fun '(networks, e) =>
                 {| call := NetworkListCall options;
                    reply := Networks networks; err := e |});
     NetworkRemove networkID :=
       record (NetworkRemove networkID)
              (fun e => {| call := NetworkRemoveCall networkID;
                           reply := Done; err := e |});
     VolumeList options :=
       record (VolumeList options)
              (fun '(volumes, e) =>
                 {| call := VolumeListCall options;
                    reply := Volumes volumes; err := e |});
     VolumeRemove volumeName force :=
       record (VolumeRemove volumeName force)
              (fun e => {| call := VolumeRemoveCall volumeName force;
                           reply := Done; err := e |})
  |}.
(** The event of the container query that both operations start with. *)
Definition firstEvent (projectName : string) (w : W) : Event :=
  let options := {| All := true; LabelFilter := projectLabel projectName |} in
  {| call := ContainerListCall options;
     reply := Containers (fst (fst (ContainerList options w)));
     err := snd (fst (ContainerList options w)) |}.
End Recording.

(** The calls of a log, in order. *)
Definition calls (log : list Event) : list Call := map call log.

(** The containers, networks and volumes that the list calls of a log
    returned. *)
Fixpoint listedContainers (log : list Event) : list ContainerInfo :=
  match log with
  | [] => []
  | ev :: rest =>
      match reply ev with
      | Containers l => l
      | _ => listedContainers rest
      end
  end.

Fixpoint listedNetworks (log : list Event) : list NetworkInfo :=
  match log with
  | [] => []
  | ev :: rest =>
      match reply ev with
      | Networks l => l
      | _ => listedNetworks rest
      end
  end.

Fixpoint listedVolumes (log : list Event) : list VolumeInfo :=
  match log with
  | [] => []
  | ev :: rest =>
      match reply ev with
      | Volumes l => l
      | _ => listedVolumes rest
      end
  end.

Definition isVolumeCall (c : Call) : bool :=
  match c with
  | VolumeListCall _ | VolumeRemoveCall _ _ => true
  | _ => false
  end.

Definition isCleanupCall (c : Call) : bool :=
  match c with
  | NetworkListCall _ | NetworkRemoveCall _
  | VolumeListCall _ | VolumeRemoveCall _ _ => true
  | _ => false
  end.

(** The container query of the compose operations. *)
Definition listCall (projectName : string) : Call :=
  ContainerListCall {| All := true; LabelFilter := projectLabel projectName |}.

(** The calls of [StopComposeProject] when none fails. *)
Definition stopPlan (projectName : string) (containers : list ContainerInfo)
  : list Call :=
  ContainerListCall {| All := true; LabelFilter := projectLabel projectName |}
  :: map (fun c => ContainerStopCall (ID c) None) containers.

(** The calls of [DownComposeProject] when none fails, phase after
    phase. *)
Definition downPlan (projectName : string) (removeVolumes : bool)
           (containers : list ContainerInfo) (networks : list NetworkInfo)
           (volumes : list VolumeInfo) : list Call :=
  [ContainerListCall {| All := true; LabelFilter := projectLabel projectName |}]
  ++ map (fun c => ContainerStopCall (ID c) None) containers
  ++ map (fun c => ContainerRemoveCall (ID c) true) containers
  ++ [NetworkListCall {| NetworkLabelFilter := projectLabel projectName |}]
  ++ map (fun n => NetworkRemoveCall (NetworkID n)) networks
  ++ (if removeVolumes
      then VolumeListCall {| VolumeLabelFilter := projectLabel projectName |}
           :: map (fun v => VolumeRemoveCall (VolumeName v) true) volumes
      else []).

(** The error that the program makes of the error [cause] of the call
    of [ev]. *)
Definition reported (ev : Event) (cause e : error) : Prop :=
  match call ev with
  | ContainerListCall _ =>
      e = Errorf_w "failed to find compose containers: " cause
  | ContainerStopCall containerID _ =>
      e = Errorf_w ("failed to stop container " +:+ containerID +:+ ": ") cause
  | ContainerRemoveCall containerID _ =>
      e = Errorf_w ("failed to remove container " +:+ containerID +:+ ": ") cause
  | NetworkListCall _ => e = Errorf_w "failed to list networks: " cause
  | NetworkRemoveCall _ =>
      exists name, e = Errorf_w ("failed to remove network " +:+ name +:+ ": ") cause
  | VolumeListCall _ => e = Errorf_w "failed to list volumes: " cause
  | VolumeRemoveCall volumeName _ =>
      e = Errorf_w ("failed to remove volume " +:+ volumeName +:+ ": ") cause
  | CloseCall => False
  end.

(** No call of the log failed. *)
Definition clean (log : list Event) : Prop :=
  Forall (fun ev => err ev = None) log.

(** How a run that was to make the calls [planned] went: it made them
    all and none failed, or its last call, one of the planned calls in
    its place, failed and its error is what the run returns. *)
Inductive outcome (res : option error) (log : list Event)
          (planned : list Call) : Prop :=
| finished :
    res = None -> calls log = planned -> clean log ->
    outcome res log planned
| aborted (done : list Event) (ev : Event) (cause e : error) :
    res = Some e -> log = done ++ [ev] -> clean done ->
    err ev = Some cause -> calls log `prefix_of` planned ->
    reported ev cause e ->
    outcome res log planned.

(** Fail-fast: a call that failed is the last call of the log, the calls
    before it did not fail, and the run returns what the program makes
    of its error. *)
Definition failFast (res : option error) (log : list Event) : Prop :=
  forall done ev rest cause,
    log = done ++ ev :: rest -> err ev = Some cause ->
    rest = [] /\ clean done /\ exists e, res = Some e /\ reported ev cause e.

(** Every call of the log was made after the calls before it had
    returned without an error. *)
Definition inOrder (log : list Event) : Prop :=
  forall done ev rest, log = done ++ ev :: rest -> clean done.

(** [needle] occurs in [s]. *)
Definition occursIn (needle s : string) : Prop :=
  exists before after, s = before +:+ needle +:+ after.

(** A double with scripted answers, as the mock of the tests has: what
    each method returns is fixed by its arguments. *)
Record Script : Type := {
  containersFound : list ContainerInfo * option error;
  stopError : string -> option error;
  removeError : string -> option error;
  networksFound : list NetworkInfo * option error;
  networkRemoveError : string -> option error;
  volumesFound : list VolumeInfo * option error;
  volumeRemoveError : string -> option error
}.

Definition scripted (s : Script) : ComposeClient unit :=
  {| containerClient :=
       {| ContainerList _ := ret (containersFound s);
          ContainerStop containerID _ := ret (stopError s containerID);
          ContainerRemove containerID _ := ret (removeError s containerID);
          Close := ret None |};
     NetworkList _ := ret (networksFound s);
     NetworkRemove networkID := ret (networkRemoveError s networkID);
     VolumeList _ := ret (volumesFound s);
     VolumeRemove volumeName _ := ret (volumeRemoveError s volumeName) |}.

Definition container (id : string) : ContainerInfo :=
  {| ID := id; Names := []; Labels := []; State := "running" |}.

Definition network (id name : string) : NetworkInfo :=
  {| NetworkID := id; NetworkName := name |}.

Definition volume (name : string) : VolumeInfo :=
  {| VolumeName := name; VolumeLabels := [] |}.

(** Scripts: a daemon on which every call succeeds, for the containers,
    networks and volumes it holds. *)
Definition healthy (containers : list ContainerInfo)
           (networks : list NetworkInfo) (volumes : list VolumeInfo) : Script :=
  {| containersFound := (containers, None);
     stopError := fun _ => None;
     removeError := fun _ => None;
     networksFound := (networks, None);
     networkRemoveError := fun _ => None;
     volumesFound := (volumes, None);
     volumeRemoveError := fun _ => None |}.

(** Three containers, of which the second cannot be stopped. *)
Definition secondStopFails : Script :=
  {| containersFound := ([container "web123"; container "db456";
                          container "cache789"], None);
     stopError := fun id => if String.eqb id "db456"
                            then Some (apiError "cannot stop container")
                            else None;
     removeError := fun _ => None;
     networksFound := ([network "net123" "myproject_default"], None);
     networkRemoveError := fun _ => None;
     volumesFound := ([], None);
     volumeRemoveError := fun _ => None |}.

(** No container is left and the networks cannot be listed. *)
Definition networksUnreachable : Script :=
  {| containersFound := ([], None);
     stopError := fun _ => None;
     removeError := fun _ => None;
     networksFound := ([], Some (apiError "network unreachable"));
     networkRemoveError := fun _ => None;
     volumesFound := ([], None);
     volumeRemoveError := fun _ => None |}.

(** The SDK whose clients are recorded. *)
Definition recorded {W} (NewClientWithOpts : list Opt -> result (ComposeClient W))
  : list Opt -> result (ComposeClient (W * list Event)) :=
  fun opts =>
    match NewClientWithOpts opts with
    | Ok cli => Ok (recording cli)
    | Err err => Err err
    end.

(** A run on the recording client adds its events to the log it starts
    with, and is the same run otherwise. *)
Definition framed {W A} (m : M (W * list Event) A) : Prop :=
  forall w log,
    m (w, log)
    = (fst (m (w, [])), (fst (snd (m (w, []))), log ++ snd (snd (m (w, []))))).

(** The container query of [handleImage], and its calls when none
    fails. *)
Definition imageListCall (configPath : string) : Call :=
  ContainerListCall {| All := true;
                       LabelFilter := "devcontainer.config_file=" +:+ configPath |}.

Definition imagePlan (down : bool) (configPath : string)
           (containers : list ContainerInfo) : list Call :=
  imageListCall configPath
  :: map (fun c => ContainerStopCall (ID c) None) containers
  ++ (if down then map (fun c => ContainerRemoveCall (ID c) true) containers
      else []).

(** The calls that the flags of the command admit: queries and stops of
    containers and [Close] always, removals and the query of the networks
    with [--down], calls on volumes with [--down] and [--volumes]. *)
Definition admitted (flags : Root.Flags) (c : Call) : bool :=
  match c with
  | ContainerListCall _ | ContainerStopCall _ _ | CloseCall => true
  | ContainerRemoveCall _ _ | NetworkListCall _ | NetworkRemoveCall _ =>
      Root.downFlag flags
  | VolumeListCall _ | VolumeRemoveCall _ _ =>
      Root.downFlag flags && Root.volumesFlag flags
  end.

End Recorder.

(** ** Worlds for the examples *)
Module Fixtures.
Import Devcontainer Docker Os Ui Root Recorder.

(** A file system given by its directories with their entries and its
    files with their bytes. *)
Definition disk (dirs : list (string * list DirEntry))
           (files : list (string * string)) : FileSystem :=
  {| Stat p :=
       if existsb (fun d => String.eqb (fst d) p) dirs
          || existsb (fun f => String.eqb (fst f) p) files
       then None else Some (noSuchFile p);
     ReadDir p :=
       match find (fun d => String.eqb (fst d) p) dirs with
       | Some d => Ok (snd d)
       | None => Err (noSuchFile p)
       end;
     ReadFile p :=
       match find (fun f => String.eqb (fst f) p) files with
       | Some f => Ok (snd f)
       | None => Err (noSuchFile p)
       end |}.

(** A process with the variables [vars], the home directory [home] and
    the working directory [wd]. *)
Definition environ (vars : list (string * string)) (home wd : string) : Environ :=
  {| Getenv name :=
       match find (fun v => String.eqb (fst v) name) vars with
       | Some v => snd v
       | None => ""
       end;
     UserHomeDir := Ok home;
     Getwd := Ok wd |}.

(** A user who chooses the item at [idx]. *)
Definition chooses (idx : Z) : Terminal :=
  {| SelectRun prompt := (idx, nth (Z.to_nat idx) (Items prompt) "", None) |}.

(** A workspace with one definition file, whose bytes are [content]. *)
Definition workspace (content : string) : FileSystem :=
  disk [("/ws", [{| Name := ".devcontainer"; IsDir := true |}]);
        ("/ws/.devcontainer", [{| Name := "devcontainer.json"; IsDir := false |}])]
       [(workspaceConfig, content)].

(** A container as the daemon names it. *)
Definition web : ContainerInfo :=
  {| ID := "4f5e6d7c8b9a0f1e2d3c4b5a69788796a5b4c3d2e1f00f1e2d3c4b5a69788796";
     Names := ["/ws-web-1"]; Labels := []; State := "running" |}.

Definition silent : Console := {| stdout := ""; stderr := "" |}.

Definition flagsOf (down volumes : bool) : Flags :=
  {| downFlag := down; volumesFlag := volumes; contextFlag := "" |}.

(** A process in [/ws] with no Docker variable set. *)
Definition plainEnv : Environ := environ [] "/home/u" "/ws".

(** The SDK with a daemon that every option list reaches. *)
Definition daemon (s : Script) : list Opt -> result (ComposeClient unit) :=
  fun _ => Ok (scripted s).

(** The SDK with a daemon that is reached at [host] only. *)
Definition reachable (host : string) (s : Script)
  : list Opt -> result (ComposeClient unit) :=
  fun opts =>
    match opts with
    | [WithAPIVersionNegotiation; WithHost h] =>
        if String.eqb h host then Ok (scripted s)
        else Err (errorString "cannot connect")
    | _ => Err (errorString "cannot connect")
    end.

(** The name of a configuration after its path. *)
Definition pathName (cfg : Config) : string :=
  DeriveDevcontainerProjectName (fun s => s) (ConfigPath cfg).

(** Two configurations of one workspace. *)
Definition api : Config :=
  {| Image := "golang:1.22"; DockerComposeFile := []; Service := "";
     ConfigPath := "/ws/.devcontainer/api/devcontainer.json" |}.

Definition worker : Config :=
  {| Image := ""; DockerComposeFile := ["compose.yml"]; Service := "worker";
     ConfigPath := "/ws/.devcontainer/worker/devcontainer.json" |}.

(** A container whose identifier is shorter than the twelve bytes shown. *)
Definition stub : ContainerInfo :=
  {| ID := "4f5e6d"; Names := []; Labels := []; State := "exited" |}.

(** The Docker directory of a user whose current context is [remote]. *)
Definition remoteContext : FileSystem :=
  disk []
       [("/home/u/.docker/config.json",
         bytes "{'auths': {}, 'currentContext': 'remote'}");
        ("/home/u/.docker/contexts/meta/id-remote/meta.json",
         bytes "{'Name': 'remote', 'Metadata': {}, 'Endpoints': {'docker': {'Host': 'tcp://10.0.0.5:2376', 'SkipTLSVerify': false}}}")].

Definition contextID (contextName : string) : string := "id-" +:+ contextName.

End Fixtures.

(** * Properties *)

(** ** Byte strings *)
Section StringFacts.

Lemma append_assoc (a b c : string) : (a +:+ b) +:+ c = a +:+ b +:+ c.
Proof. induction a as [|x a IH]; cbn; [reflexivity | rewrite IH; reflexivity]. Qed.

Lemma append_nil_r (a : string) : a +:+ "" = a.
Proof. induction a as [|x a IH]; cbn; [reflexivity | rewrite IH; reflexivity]. Qed.

End StringFacts.

(** ** The JSON scanner always answers *)
Section JsonFacts.
Import Json.
Local Open Scope nat_scope.

(** Case analysis on the innermost scrutinee of the goal. *)
Ltac break_match :=
  match goal with
  | |- context [match ?x with _ => _ end] =>
      lazymatch x with
      | context [match _ with _ => _ end] => fail
      | andThen _ _ => fail
      | _ => destruct x eqn:?
      end
  end.

Lemma drop_length (n : nat) (s : string) :
  String.length (Utf8.drop n s) <= String.length s.
Proof.
  revert s; induction n as [|n IH]; intros [|c r]; cbn; auto.
Qed.

Lemma DecodeRune_size (c : ascii) (r : string) :
  exists k, snd (Utf8.DecodeRune (String c r)) = S k.
Proof.
  unfold Utf8.DecodeRune; cbn zeta.
  repeat break_match; cbn [snd]; eauto.
Qed.

Lemma DecodeRune_advances (c : ascii) (r : string) (rr : N) (size : nat) :
  Utf8.DecodeRune (String c r) = (rr, size) ->
  String.length (Utf8.drop size (String c r)) <= String.length r.
Proof.
  intros H. destruct (DecodeRune_size c r) as [k Hk].
  rewrite H in Hk; cbn [snd] in Hk; subst size.
  cbn [Utf8.drop]. apply drop_length.
Qed.

Lemma hex4_length (s : string) :
  match hex4 s with
  | Some (_, rest) => String.length rest <= String.length s
  | None => True
  end.
Proof.
  destruct s as [|a [|b [|c [|d rest]]]]; cbn [hex4]; trivial.
  destruct (hexVal a), (hexVal b), (hexVal c), (hexVal d); trivial.
  cbn [String.length]. lia.
Qed.

Lemma lowSurrogate_length (s : string) :
  match lowSurrogate s with
  | Some (_, rest) => String.length rest <= String.length s
  | None => True
  end.
Proof.
  unfold lowSurrogate.
  destruct s as [|b [|u rest]]; trivial.
  destruct (isByte b "\" && isByte u "u"); trivial.
  pose proof (hex4_length rest) as H.
  destruct (hex4 rest) as [[n r]|]; trivial. cbn [String.length]. lia.
Qed.

(** What the equations in the context say about lengths. *)
Ltac harvest :=
  repeat match goal with
  | H : hex4 ?x = _ |- _ =>
      let X := fresh in
      pose proof (hex4_length x) as X; rewrite H in X; clear H
  | H : lowSurrogate ?x = _ |- _ =>
      let X := fresh in
      pose proof (lowSurrogate_length x) as X; rewrite H in X; clear H
  | H : Utf8.DecodeRune (String _ _) = _ |- _ =>
      apply DecodeRune_advances in H
  | H : _ = (_, _) |- _ => subst
  end.

(** A string literal of [n] bytes is read with fuel above [n], and
    every step of it consumes input. *)
Lemma stringBody_progress (fuel : nat) (s : string) :
  (String.length s < fuel -> stringBody fuel s <> OutOfFuel) /\
  match stringBody fuel s with
  | Parsed _ rest => String.length rest < String.length s
  | _ => True
  end.
Proof.
  revert s; induction fuel as [|fuel IH]; intros s.
  { split; [lia | exact I]. }
  assert (emit : forall t rest,
    String.length rest < String.length s ->
    (String.length s < S fuel ->
     andThen (stringBody fuel rest)
       (fun body rest' => Parsed (t +:+ body) rest') <> OutOfFuel) /\
    match andThen (stringBody fuel rest)
       (fun body rest' => Parsed (t +:+ body) rest') with
    | Parsed _ rest' => String.length rest' < String.length s
    | _ => True
    end).
  { intros t rest Hlt. destruct (IH rest) as [Hf Hp].
    destruct (stringBody fuel rest) as [body rest'| |]; cbn [andThen].
    - split; [discriminate | lia].
    - split; [discriminate | exact I].
    - split; [intros Hs; exfalso; apply Hf; [lia | reflexivity] | exact I]. }
  destruct s as [|c r]; cbn [stringBody].
  { split; [discriminate | exact I]. }
  cbn zeta.
  cbn [String.length] in emit.
  repeat first
    [ progress harvest
    | apply emit; cbn [String.length] in *; lia
    | split; [discriminate | cbn [String.length]; try exact I; lia]
    | break_match ].
Qed.

Lemma skipSpace_length (s : string) :
  String.length (skipSpace s) <= String.length s.
Proof.
  induction s as [|c r IH]; cbn [skipSpace]; [lia|].
  destruct (isSpace c); cbn [String.length]; lia.
Qed.

Lemma digits_length (s : string) :
  String.length (fst (digits s)) + String.length (snd (digits s))
  = String.length s.
Proof.
  induction s as [|c r IH]; cbn [digits]; [reflexivity|].
  destruct (isDigit c); [|reflexivity].
  destruct (digits r) as [d rest]; cbn [fst snd String.length] in *. lia.
Qed.

Lemma digits_head (c : ascii) (r : string) :
  isDigit c = true ->
  String.length (snd (digits (String c r))) <= String.length r.
Proof.
  intros H. pose proof (digits_length r) as L.
  cbn [digits]; rewrite H.
  destruct (digits r) as [d rest]; cbn [fst snd] in *. lia.
Qed.

Ltac harvest_digits :=
  repeat match goal with
  | H : digits (String ?c ?r) = _, Hc : isDigit ?c = true |- _ =>
      let X := fresh in
      pose proof (digits_head c r Hc) as X; rewrite H in X;
      cbn [fst snd String.length] in X; clear H
  | H : digits ?x = _ |- _ =>
      let X := fresh in
      pose proof (digits_length x) as X; rewrite H in X;
      cbn [fst snd String.length] in X; clear H
  | H : _ = (_, _) |- _ => injection H as <- <-
  end.

Lemma number_progress (s : string) :
  number s <> OutOfFuel /\
  match number s with
  | Parsed _ rest => String.length rest < String.length s
  | _ => True
  end.
Proof.
  unfold number, andThen.
  repeat first
    [ progress harvest_digits
    | split; [discriminate | cbn [String.length] in *; try exact I; lia]
    | break_match ].
Qed.

Lemma literal_progress (lit : string) (v : json) (c : ascii) (r : string) :
  lit <> EmptyString ->
  literal lit v (String c r) <> OutOfFuel /\
  match literal lit v (String c r) with
  | Parsed _ rest => String.length rest < String.length (String c r)
  | _ => True
  end.
Proof.
  intros Hlit. unfold literal.
  destruct (Strings.HasPrefix (String c r) lit);
    (split; [discriminate|]); [|exact I].
  destruct lit as [|a lit]; [congruence|].
  cbn [String.length Utf8.drop].
  pose proof (drop_length (String.length lit) r). lia.
Qed.

Ltac harvest_space :=
  repeat match goal with
  | H : skipSpace ?x = _ |- _ =>
      let X := fresh in
      pose proof (skipSpace_length x) as X; rewrite H in X;
      cbn [String.length] in X; clear H
  end.

(** A case that is settled: the result is not the recursion bound, and
    the rest is shorter. *)
Ltac close_case :=
  split;
  [ intros;
    first [ discriminate
          | exfalso;
            match goal with
            | H : _ -> OutOfFuel <> OutOfFuel |- _ =>
                apply H; [lia | reflexivity]
            | H : OutOfFuel <> OutOfFuel |- _ => apply H; reflexivity
            end ]
  | first [exact I | lia] ].

(** The three functions of the scanner consume input whenever they
    return a value, and with fuel above twice the length of the input
    they do return one or report a syntax error. *)
Lemma parse_progress (fuel : nat) : forall (depth : nat) (s : string),
  ((2 * String.length s + 1 <= fuel -> value fuel depth s <> OutOfFuel) /\
   match value fuel depth s with
   | Parsed _ rest => String.length rest < String.length s
   | _ => True
   end) /\
  ((2 * String.length s + 1 <= fuel -> members fuel depth s <> OutOfFuel) /\
   match members fuel depth s with
   | Parsed _ rest => String.length rest < String.length s
   | _ => True
   end) /\
  ((2 * String.length s + 2 <= fuel -> elements fuel depth s <> OutOfFuel) /\
   match elements fuel depth s with
   | Parsed _ rest => String.length rest < String.length s
   | _ => True
   end).
Proof.
  induction fuel as [|fuel IH]; intros depth s.
  { cbn [value members elements]. repeat split; trivial; lia. }
  assert (IHv := fun d x => proj1 (IH d x)).
  assert (IHm := fun d x => proj1 (proj2 (IH d x))).
  assert (IHe := fun d x => proj2 (proj2 (IH d x))).
  cbn beta in IHv, IHm, IHe. clear IH.
  split; [|split]; cbn [value members elements].
  all: repeat first
    [ progress harvest_space
    | close_case
    | lazymatch goal with
      | |- (_ -> ?E <> _) /\ _ =>
          let Hf := fresh in
          let Hp := fresh in
          lazymatch E with
          | andThen (value ?f ?d ?x) _ =>
              pose proof (IHv d x) as [Hf Hp]; destruct (value f d x)
          | andThen (members ?f ?d ?x) _ =>
              pose proof (IHm d x) as [Hf Hp]; destruct (members f d x)
          | andThen (elements ?f ?d ?x) _ =>
              pose proof (IHe d x) as [Hf Hp]; destruct (elements f d x)
          | andThen (stringBody ?f ?x) _ =>
              pose proof (stringBody_progress f x) as [Hf Hp];
              destruct (stringBody f x)
          | andThen (number ?x) _ =>
              pose proof (number_progress x) as [Hf Hp];
              destruct (number x)
          | literal ?l ?v (String ?c ?r) =>
              assert (Hf : l <> EmptyString) by discriminate;
              pose proof (literal_progress l v c r Hf) as [Hp ?];
              destruct (literal l v (String c r))
          | match ?x with _ => _ end => destruct x eqn:?
          end
      end; cbn [andThen String.length] in * ].
Qed.

(** [document] starts [value] with enough fuel for any input: the
    recursion bound of the embedding is never its answer. *)
Lemma document_total (data : string) : document data <> OutOfFuel.
Proof.
  unfold document.
  destruct (parse_progress (2 * String.length data + 2) maxNestingDepth data)
    as [[Hf _] _].
  destruct (value _ _ data) as [v rest| |]; cbn [andThen].
  - destruct (skipSpace rest); discriminate.
  - discriminate.
  - exfalso; apply Hf; [lia | reflexivity].
Qed.

(** So the decoding of a definition file ends as Go's does: with a
    value, a syntax error or a type error. *)
Lemma UnmarshalRawConfig_total (cleaned : string) :
  Devcontainer.UnmarshalRawConfig cleaned <> Err recursionBound.
Proof.
  unfold Devcontainer.UnmarshalRawConfig.
  pose proof (document_total cleaned) as H.
  destruct (document cleaned) as [[]| |]; try discriminate;
    [|congruence].
  destruct (Devcontainer.storeMembers _ _ _) as [raw []]; discriminate.
Qed.

End JsonFacts.

(** ** Paths *)
Section PathFacts.
Import Filepath.

Lemma elements_nonempty (path : string) : elements path <> [].
Proof.
  destruct path as [|c r]; cbn; [discriminate|].
  destruct (isSep c); [discriminate|]. destruct (elements r); discriminate.
Qed.

Lemma elements_app_sep (a b : string) :
  elements (a +:+ "/" +:+ b) = elements a ++ elements b.
Proof.
  induction a as [|c a IH]; cbn [String.append elements] in *.
  - reflexivity.
  - destruct (isSep c); [rewrite IH; reflexivity|].
    rewrite IH. pose proof (elements_nonempty a) as Hne.
    destruct (elements a); [contradiction|reflexivity].
Qed.

Lemma elements_nosep (e : string) :
  Strings.any isSep e = false -> elements e = [e].
Proof.
  induction e as [|c e IH]; cbn; [reflexivity|].
  intros H. apply orb_false_iff in H as [-> H]. rewrite (IH H). reflexivity.
Qed.

Lemma realElem_nosep e : realElem e = true -> Strings.any isSep e = false.
Proof.
  unfold realElem. intros H. apply andb_true_iff in H as [_ H].
  apply negb_true_iff in H. exact H.
Qed.

Lemma cleanStep_real rooted out e :
  realElem e = true -> cleanStep rooted out e = e :: out.
Proof.
  unfold realElem, cleanStep. intros H.
  repeat (apply andb_true_iff in H as [H ?]).
  repeat match goal with
         | E : negb _ = true |- _ => apply negb_true_iff in E; try rewrite E
         end.
  reflexivity.
Qed.

Lemma clean_fold_real rooted (elems out : list string) :
  Forall (fun e => realElem e = true) elems ->
  fold_left (cleanStep rooted) elems out = rev elems ++ out.
Proof.
  intros H. revert out. induction H as [|e elems He _ IH]; intros out; cbn.
  - reflexivity.
  - rewrite (cleanStep_real _ _ _ He), IH, <- app_assoc. reflexivity.
Qed.

Lemma elements_Join (elems : list string) :
  Forall (fun e => realElem e = true) elems -> elems <> [] ->
  elements (Strings.Join elems "/") = elems.
Proof.
  induction 1 as [|e elems He Hall IH]; [contradiction|]. intros _.
  destruct elems as [|e' elems].
  - cbn. apply elements_nosep, realElem_nosep, He.
  - change (Strings.Join (e :: e' :: elems) "/")
      with (e +:+ "/" +:+ Strings.Join (e' :: elems) "/").
    rewrite elements_app_sep, IH by discriminate.
    rewrite elements_nosep by (apply realElem_nosep, He). reflexivity.
Qed.

(** The elements of an absolute path, with a trailing separator or
    without: the empty element before the root and after the trailing
    separator go. *)
Lemma clean_fold_absPath (elems tail : list string) :
  Forall (fun e => realElem e = true) elems ->
  tail = [] \/ tail = [""] ->
  fold_left (cleanStep true) (elements (absPath elems) ++ tail) [] = rev elems.
Proof.
  intros Hall Htail. unfold absPath.
  change ("/" +:+ Strings.Join elems "/") with ("" +:+ "/" +:+ Strings.Join elems "/").
  rewrite elements_app_sep. cbn [elements app fold_left].
  change (cleanStep true [] "") with (@nil string).
  rewrite fold_left_app.
  destruct elems as [|e elems].
  - destruct Htail as [-> | ->]; reflexivity.
  - rewrite elements_Join by (auto; discriminate).
    rewrite (clean_fold_real true (e :: elems) []) by assumption.
    rewrite app_nil_r. destruct Htail as [-> | ->]; reflexivity.
Qed.

Lemma Clean_absPath (elems : list string) :
  Forall (fun e => realElem e = true) elems ->
  Clean (absPath elems) = absPath elems.
Proof.
  intros Hall.
  pose proof (clean_fold_absPath elems [] Hall (or_introl eq_refl)) as H.
  rewrite app_nil_r in H. unfold Clean.
  change (String.eqb (absPath elems) "") with false.
  change (Strings.HasPrefix (absPath elems) "/") with true.
  cbv beta iota zeta. rewrite H, rev_involutive. reflexivity.
Qed.
Lemma Join_snoc (elems : list string) (e sep : string) :
  elems <> [] ->
  Strings.Join (elems ++ [e]) sep = Strings.Join elems sep +:+ sep +:+ e.
Proof.
  induction elems as [|x elems IH]; [contradiction|]. intros _.
  destruct elems as [|y elems]; [reflexivity|].
  change (Strings.Join ((x :: y :: elems) ++ [e]) sep)
    with (x +:+ sep +:+ Strings.Join ((y :: elems) ++ [e]) sep).
  rewrite IH by discriminate.
  change (Strings.Join (x :: y :: elems) sep)
    with (x +:+ sep +:+ Strings.Join (y :: elems) sep).
  rewrite !append_assoc. reflexivity.
Qed.

Lemma absPath_snoc (elems : list string) (e : string) :
  absPath (elems ++ [e]) = stem elems +:+ "/" +:+ e.
Proof.
  destruct elems as [|x elems]; [reflexivity|].
  unfold stem, absPath. rewrite Join_snoc by discriminate.
  rewrite !append_assoc. reflexivity.
Qed.

Lemma any_sep_app (a b : string) :
  Strings.any isSep (a +:+ "/" +:+ b) = true.
Proof.
  induction a as [|c a IH]; cbn [String.append Strings.any] in *; [reflexivity|].
  rewrite IH. apply orb_true_r.
Qed.

Lemma upToLastSep_nosep (e : string) :
  Strings.any isSep e = false -> upToLastSep e = "".
Proof. destruct e as [|c e]; [reflexivity|]. cbn [upToLastSep]. intros ->. reflexivity. Qed.

Lemma upToLastSep_app (a e : string) :
  Strings.any isSep e = false -> upToLastSep (a +:+ "/" +:+ e) = a +:+ "/".
Proof.
  intros He. induction a as [|c a IH].
  - cbn. rewrite (upToLastSep_nosep e He). reflexivity.
  - cbn [String.append upToLastSep].
    change (String c (a +:+ String "/" e)) with ((String c a) +:+ "/" +:+ e).
    rewrite any_sep_app. cbn [String.append] in IH. rewrite IH. reflexivity.
Qed.

Lemma afterLastSep_nosep (e : string) :
  Strings.any isSep e = false -> afterLastSep e = e.
Proof. destruct e as [|c e]; [reflexivity|]. cbn [afterLastSep]. intros ->. reflexivity. Qed.

Lemma afterLastSep_app (a e : string) :
  Strings.any isSep e = false -> afterLastSep (a +:+ "/" +:+ e) = e.
Proof.
  intros He. induction a as [|c a IH].
  - cbn. apply afterLastSep_nosep, He.
  - cbn [String.append afterLastSep].
    change (String c (a +:+ String "/" e)) with ((String c a) +:+ "/" +:+ e).
    rewrite any_sep_app. exact IH.
Qed.

Lemma all_sep_app (a e : string) :
  e <> "" -> Strings.any isSep e = false -> Strings.all isSep (a +:+ e) = false.
Proof.
  intros Hne He. induction a as [|c a IH]; cbn.
  - destruct e as [|x e]; [contradiction|]. cbn in *.
    apply orb_false_iff in He as [-> _]. reflexivity.
  - rewrite IH. apply andb_false_r.
Qed.

Lemma stripTrailingSeps_app (a e : string) :
  e <> "" -> Strings.any isSep e = false -> stripTrailingSeps (a +:+ e) = a +:+ e.
Proof.
  intros Hne He. induction a as [|c a IH].
  - cbn [String.append]. clear Hne. induction e as [|x e IHe]; [reflexivity|].
    cbn in *. apply orb_false_iff in He as [-> He]. cbn. rewrite (IHe He).
    reflexivity.
  - cbn [String.append stripTrailingSeps].
    change (String c (a +:+ e)) with ((String c a) +:+ e).
    rewrite all_sep_app, IH by assumption. reflexivity.
Qed.

Lemma realElem_nonempty e : realElem e = true -> e <> "".
Proof. intros H ->. discriminate. Qed.

(** [Dir] of an absolute path of real elements drops the last element. *)
Lemma Dir_absPath (elems : list string) (e : string) :
  Forall (fun e => realElem e = true) (elems ++ [e]) ->
  Dir (absPath (elems ++ [e])) = absPath elems.
Proof.
  intros Hall. apply Forall_app in Hall as [Hall He].
  inversion He as [|? ? Hreal _]; subst.
  unfold Dir. rewrite absPath_snoc, upToLastSep_app by (apply realElem_nosep, Hreal).
  destruct elems as [|x elems]; [reflexivity|]. unfold stem.
  pose proof (clean_fold_absPath (x :: elems) [""] Hall (or_intror eq_refl)) as H.
  change [""] with (elements "") in H.
  rewrite <- (elements_app_sep (absPath (x :: elems)) "") in H.
  change ("/" +:+ "") with "/" in H.
  unfold Clean.
  change (String.eqb (absPath (x :: elems) +:+ "/") "") with false.
  change (Strings.HasPrefix (absPath (x :: elems) +:+ "/") "/") with true.
  cbv beta iota zeta. rewrite H, rev_involutive. reflexivity.
Qed.

(** [Base] of an absolute path of real elements is the last element. *)
Lemma Base_absPath (elems : list string) (e : string) :
  realElem e = true -> Base (absPath (elems ++ [e])) = e.
Proof.
  intros Hreal. pose proof (realElem_nosep e Hreal) as Hsep.
  pose proof (realElem_nonempty e Hreal) as Hne.
  rewrite absPath_snoc. unfold Base.
  change (stem elems +:+ "/" +:+ e) with (stem elems +:+ String "/" e).
  destruct (String.eqb_spec (stem elems +:+ String "/" e) "") as [Hempty|_].
  { destruct (stem elems); discriminate. }
  change (stem elems +:+ String "/" e) with (stem elems +:+ "/" +:+ e).
  rewrite <- append_assoc, stripTrailingSeps_app, append_assoc by assumption.
  rewrite afterLastSep_app by assumption.
  destruct (String.eqb_spec e ""); [contradiction|reflexivity].
Qed.
End PathFacts.

(** ** Discovery of the definition files *)
Section FinderFacts.
Import Devcontainer.
Context {fs : FileSystem}.

(** No entry of the directory is a directory that holds a
    [devcontainer.json]. *)
Lemma subConfigs_none devcontainerDir entries configs :
  (forall entry,
      In entry entries -> IsDir entry = true ->
      Stat (Filepath.Join [devcontainerDir; Name entry; "devcontainer.json"])
      <> None) ->
  subConfigs devcontainerDir entries configs = configs.
Proof.
  revert configs. induction entries as [|entry entries IH]; intros configs Hnone.
  - reflexivity.
  - cbn [subConfigs]. destruct (IsDir entry) eqn:Hdir; cbn [negb].
    + destruct (Stat _) eqn:Hstat.
      * apply IH. intros x Hx. apply Hnone. right. exact Hx.
      * exfalso. apply (Hnone entry); [left; reflexivity | exact Hdir | exact Hstat].
    + apply IH. intros x Hx. apply Hnone. right. exact Hx.
Qed.

(** C8. [FindDevcontainerConfigs] returns the error "directory does not
    exist" exactly when [os.Stat] reports that the root directory does
    not exist, and then no path; when the root exists and [os.Stat]
    reports that its [.devcontainer] does not exist, it returns no path
    and no error; and so it does when [.devcontainer] exists, its
    entries can be read, and neither it nor any directory among its
    entries holds a [devcontainer.json].  When [.devcontainer] is not
    reported missing and its entries cannot be read, the error of the
    reading is returned, wrapped, with no path.  So the function returns
    no error exactly when the root is not reported missing and
    [.devcontainer] is either reported missing or can be listed. *)
Theorem FindDevcontainerConfigs_errors (dir : string) :
  let notFound := errorString ("directory does not exist: " +:+ dir) in
  let devcontainerDir := Filepath.Join [dir; ".devcontainer"] in
  (snd (FindDevcontainerConfigs dir) = Some notFound
   <-> IsNotExist (Stat dir) = true)
  /\ (IsNotExist (Stat dir) = true ->
      FindDevcontainerConfigs dir = ([], Some notFound))
  /\ (IsNotExist (Stat dir) = false ->
      IsNotExist (Stat devcontainerDir) = true ->
      FindDevcontainerConfigs dir = ([], None))
  /\ (forall entries,
        IsNotExist (Stat dir) = false ->
        IsNotExist (Stat devcontainerDir) = false ->
        ReadDir devcontainerDir = Ok entries ->
        Stat (Filepath.Join [devcontainerDir; "devcontainer.json"]) <> None ->
        (forall entry,
            In entry entries -> IsDir entry = true ->
            Stat (Filepath.Join [devcontainerDir; Name entry; "devcontainer.json"])
            <> None) ->
        FindDevcontainerConfigs dir = ([], None))
  /\ (forall err,
        IsNotExist (Stat dir) = false ->
        IsNotExist (Stat devcontainerDir) = false ->
        ReadDir devcontainerDir = Err err ->
        FindDevcontainerConfigs dir
        = ([], Some (Errorf_w "failed to read .devcontainer directory: " err)))
  /\ (snd (FindDevcontainerConfigs dir) = None
      <-> IsNotExist (Stat dir) = false
          /\ (IsNotExist (Stat devcontainerDir) = true
              \/ exists entries, ReadDir devcontainerDir = Ok entries)).
Proof.
  cbv zeta. unfold FindDevcontainerConfigs.
  split; [|split; [|split; [|split; [|split]]]].
  - destruct (IsNotExist (Stat dir)); [tauto|].
    split; [|discriminate].
    destruct (IsNotExist (Stat _)); [discriminate|].
    destruct (ReadDir _); discriminate.
  - intros ->. reflexivity.
  - intros -> ->. reflexivity.
  - intros entries -> -> -> Hmain Hsub.
    destruct (Stat (Filepath.Join [_; "devcontainer.json"])); [|contradiction].
    rewrite subConfigs_none by assumption. reflexivity.
  - intros err -> -> ->. reflexivity.
  - destruct (IsNotExist (Stat dir)); [split; [discriminate | intros [? _]; discriminate]|].
    destruct (IsNotExist (Stat _)); [tauto|].
    destruct (ReadDir _) as [entries|err]; cbn [snd].
    + split; eauto.
    + split; [discriminate|]. intros [_ [?|[entries ?]]]; discriminate.
Qed.
End FinderFacts.

(** The roots of the tests of [TestFindDevcontainerConfigs]. *)
Section FinderExamples.
Import Devcontainer.

(** A root with a flat definition and two per-service definitions, of
    which all three are found, the flat one first. *)
Example find_three_configs :
  FindDevcontainerConfigs
    (fs := tree [("/ws", [{| Name := ".devcontainer"; IsDir := true |}]);
                 ("/ws/.devcontainer",
                  [{| Name := "devcontainer.json"; IsDir := false |};
                   {| Name := "node"; IsDir := true |};
                   {| Name := "python"; IsDir := true |}]);
                 ("/ws/.devcontainer/node", []);
                 ("/ws/.devcontainer/python", [])]
                ["/ws/.devcontainer/devcontainer.json";
                 "/ws/.devcontainer/node/devcontainer.json";
                 "/ws/.devcontainer/python/devcontainer.json"])
    "/ws"
  = (["/ws/.devcontainer/devcontainer.json";
      "/ws/.devcontainer/node/devcontainer.json";
      "/ws/.devcontainer/python/devcontainer.json"], None).
Proof. reflexivity. Qed.

(** C8 at work: a root without [.devcontainer], and a root with an
    empty one. *)
Lemma find_nothing :
  let bare := tree [("/ws", [])] [] in
  let empty := tree [("/ws", [{| Name := ".devcontainer"; IsDir := true |}]);
                     ("/ws/.devcontainer", [])] [] in
  FindDevcontainerConfigs (fs := bare) "/ws" = ([], None)
  /\ FindDevcontainerConfigs (fs := empty) "/ws" = ([], None)
  /\ FindDevcontainerConfigs (fs := bare) "/non/existent/path"
     = ([], Some (errorString "directory does not exist: /non/existent/path")).
Proof.
  cbv zeta. split; [|split].
  - apply (FindDevcontainerConfigs_errors (fs := tree [("/ws", [])] []) "/ws");
      reflexivity.
  - refine (proj1 (proj2 (proj2 (proj2 (FindDevcontainerConfigs_errors
              (fs := tree [("/ws", [{| Name := ".devcontainer"; IsDir := true |}]);
                           ("/ws/.devcontainer", [])] []) "/ws"))))
              [] eq_refl eq_refl eq_refl _ _).
    + discriminate.
    + intros entry [].
  - apply (FindDevcontainerConfigs_errors (fs := tree [("/ws", [])] [])
             "/non/existent/path"). reflexivity.
Defined.

(** C8 as it was stated fails: the root exists and its [.devcontainer]
    holds no file, but may not be read, and the error of the reading is
    returned. *)
Lemma unreadable_devcontainer_fails :
  Stat (FileSystem := lockedWorkspace) "/ws" = None
  /\ Stat (FileSystem := lockedWorkspace) "/ws/.devcontainer" = None
  /\ FindDevcontainerConfigs (fs := lockedWorkspace) "/ws"
     = ([], Some (wrapError
                    ("failed to read .devcontainer directory: "
                     +:+ "open /ws/.devcontainer: permission denied")
                    (permissionDenied "open" "/ws/.devcontainer"))).
Proof. repeat split; reflexivity. Qed.
End FinderExamples.

(** ** The two kinds of definition *)
Section ClassificationFacts.
Import Devcontainer Cmd.




(** A definition with an image and a compose file, and one with
    neither. *)
Example classification_examples :
  let both := {| Image := "golang:1.21";
                 DockerComposeFile := ["docker-compose.yml"];
                 Service := "app";
                 ConfigPath := "/ws/.devcontainer/devcontainer.json" |} in
  let neither := {| Image := ""; DockerComposeFile := []; Service := "";
                    ConfigPath := "/ws/.devcontainer/devcontainer.json" |} in
  (IsComposeBased both, IsImageBased both, runStop_handler both)
  = (true, false, handleCompose)
  /\ (IsComposeBased neither, IsImageBased neither, runStop_handler neither)
     = (false, false, handleImage).
Proof. split; reflexivity. Qed.
End ClassificationFacts.

(** ** The compose-file field of a definition *)
Section ComposeFieldFacts.
Import Json Devcontainer.

Lemma storeStrings_strings (l : list string) :
  storeStrings (map JString l) = Some l.
Proof. induction l as [|s l IH]; cbn; [|rewrite IH]; reflexivity. Qed.

(** C7. What [parseDockerComposeFile] makes of the value of the field: a
    string gives the sequence of that one string, an array of strings
    the strings in their order; a boolean, a number and an object are
    refused with the error of the function.  But [null] is not refused:
    it gives the sequence of the empty string, and so [ParseConfig]
    takes the file [{'dockerComposeFile': null}] for a definition with
    the one compose file [""]; and a [null] in an array gives an empty
    string. *)
Theorem parseDockerComposeFile_shapes :
  (forall s, parseDockerComposeFile (JString s) = Ok [s])
  /\ (forall l, parseDockerComposeFile (JArray (map JString l)) = Ok l)
  /\ (forall b, parseDockerComposeFile (JBool b) = Err mustBeStringOrArray)
  /\ (forall n, parseDockerComposeFile (JNumber n) = Err mustBeStringOrArray)
  /\ (forall members, parseDockerComposeFile (JObject members) = Err mustBeStringOrArray)
  /\ parseDockerComposeFile JNull = Ok [""]
  /\ parseDockerComposeFile (JArray [JString "a.yml"; JNull]) = Ok ["a.yml"; ""]
  /\ ParseConfig (fs := singleFile "/ws/.devcontainer/devcontainer.json"
                                   (bytes "{'dockerComposeFile': null}"))
                 "/ws/.devcontainer/devcontainer.json"
     = Ok {| Image := ""; DockerComposeFile := [""]; Service := "";
             ConfigPath := "/ws/.devcontainer/devcontainer.json" |}
  /\ ParseConfig (fs := singleFile "/ws/.devcontainer/devcontainer.json"
                                   (bytes "{'dockerComposeFile': 5}"))
                 "/ws/.devcontainer/devcontainer.json"
     = Err mustBeStringOrArray.
Proof.
  repeat split; try reflexivity.
  intros l. unfold parseDockerComposeFile, UnmarshalString, UnmarshalStrings.
  cbn [storeString]. rewrite storeStrings_strings. reflexivity.
Qed.

(** The files of [TestParseConfig] with a compose file. *)
Example ParseConfig_compose_files :
  ParseConfig (fs := singleFile "/ws/devcontainer.json"
    (bytes "{ 'name': 'Full Stack', 'dockerComposeFile': 'docker-compose.yml', 'service': 'app' }"))
    "/ws/devcontainer.json"
  = Ok {| Image := ""; DockerComposeFile := ["docker-compose.yml"];
          Service := "app"; ConfigPath := "/ws/devcontainer.json" |}
  /\ ParseConfig (fs := singleFile "/ws/devcontainer.json"
    (bytes "{ 'dockerComposeFile': ['docker-compose.yml', 'docker-compose.override.yml'], 'service': 'web' }"))
    "/ws/devcontainer.json"
  = Ok {| Image := "";
          DockerComposeFile := ["docker-compose.yml"; "docker-compose.override.yml"];
          Service := "web"; ConfigPath := "/ws/devcontainer.json" |}.
Proof. split; reflexivity. Qed.
End ComposeFieldFacts.

(** ** The relaxed dialect *)
Section StripFacts.
Import Json Devcontainer.

Local Abbreviation L := (stripLineComments false).
Local Abbreviation B := (stripBlockComments Outside).
Local Abbreviation T := stripTrailingCommas.
Local Abbreviation starts s c := (Strings.HasPrefix s c = true).

Lemma starts_cons (c : ascii) (r : string) (x : ascii) :
  starts (String c r) (String x "") <-> x = c.
Proof.
  unfold Strings.HasPrefix. cbn [Strings.cutPrefix].
  destruct (Ascii.eqb_spec x c); split; congruence || discriminate || auto.
Qed.

Lemma isByte_true (c x : ascii) : isByte c (String x "") = true <-> c = x.
Proof. unfold isByte. apply Ascii.eqb_eq. Qed.

(** *** Line comments *)

Lemma L_id (s : string) : noLine s = true -> L s = s.
Proof.
  induction s as [|c r IH]; [reflexivity|]. cbn [noLine stripLineComments].
  intros H. apply andb_true_iff in H as [H1 H2]. apply negb_true_iff in H1.
  rewrite H1, (IH H2). reflexivity.
Qed.

Lemma L_starts_slash (inComment : bool) (s : string) :
  starts (stripLineComments inComment s) "/" ->
  inComment = false /\ starts s "/".
Proof.
  revert inComment. induction s as [|c r IH]; intros inComment; cbn [stripLineComments].
  - discriminate.
  - destruct inComment.
    + destruct (Ascii.eqb_spec c newline) as [->|_]; [discriminate|].
      intros H. apply IH in H as [H _]. discriminate.
    + destruct (isByte c "/" && Strings.HasPrefix r "/") eqn:E.
      * intros H. apply IH in H as [H _]. discriminate.
      * intros H. split; [reflexivity|]. apply starts_cons in H as ->.
        apply starts_cons. reflexivity.
Qed.

Lemma L_noLine (inComment : bool) (s : string) :
  noLine (stripLineComments inComment s) = true.
Proof.
  revert inComment. induction s as [|c r IH]; intros inComment; cbn [stripLineComments].
  - reflexivity.
  - destruct inComment.
    + destruct (Ascii.eqb_spec c newline) as [->|_]; [|apply IH].
      cbn [noLine]. rewrite IH. reflexivity.
    + destruct (isByte c "/" && Strings.HasPrefix r "/") eqn:E; [apply IH|].
      cbn [noLine]. rewrite IH, andb_true_r. apply negb_true_iff.
      destruct (isByte c "/") eqn:Ec; [|reflexivity]. cbn [andb] in *.
      destruct (Strings.HasPrefix (L r) "/") eqn:Es; [|reflexivity].
      apply L_starts_slash in Es as [_ Es]. congruence.
Qed.

(** *** Block comments *)

Lemma hasClose_cons (c : ascii) (r : string) :
  hasClose r = true -> hasClose (String c r) = true.
Proof. cbn [hasClose]. intros ->. apply orb_true_r. Qed.

Lemma noLine_cons (c : ascii) (r : string) :
  noLine (String c r) = true -> noLine r = true.
Proof. cbn [noLine]. intros H. apply andb_true_iff in H. tauto. Qed.

Lemma noLine_slash (r : string) :
  noLine (String "/" r) = true -> Strings.HasPrefix r "/" = false.
Proof.
  cbn [noLine]. intros H. apply andb_true_iff in H as [H _].
  apply negb_true_iff in H. exact H.
Qed.

Lemma B_starts_slash (mode : blockMode) (s : string) :
  noLine s = true -> fits mode s ->
  starts (stripBlockComments mode s) "/" ->
  mode = Outside /\ starts s "/".
Proof.
  revert mode. induction s as [|c r IH]; intros mode Hline Hfit;
    cbn [stripBlockComments].
  - discriminate.
  - pose proof (noLine_cons _ _ Hline) as Hr.
    destruct mode.
    + destruct (isByte c "/" && Strings.HasPrefix r "*" && hasClose (Utf8.drop 1 r))
        eqn:E.
      * intros H. apply andb_true_iff in E as [E _]. apply andb_true_iff in E as [_ E].
        apply (IH Opening Hr E) in H as [H _]. discriminate.
      * intros H. split; [reflexivity|]. apply starts_cons in H as ->.
        apply starts_cons. reflexivity.
    + intros H. apply (IH Inside Hr I) in H as [H _]. discriminate.
    + destruct (isByte c "*" && Strings.HasPrefix r "/") eqn:E.
      * intros H. apply andb_true_iff in E as [_ E].
        apply (IH Closing Hr E) in H as [H _]. discriminate.
      * intros H. apply (IH Inside Hr I) in H as [H _]. discriminate.
    + intros H. apply (IH Outside Hr I) in H as [_ H].
      apply starts_cons in Hfit as <-. apply noLine_slash in Hline. congruence.
Qed.

Lemma B_noLine (mode : blockMode) (s : string) :
  noLine s = true -> fits mode s -> noLine (stripBlockComments mode s) = true.
Proof.
  revert mode. induction s as [|c r IH]; intros mode Hline Hfit;
    cbn [stripBlockComments].
  - reflexivity.
  - pose proof (noLine_cons _ _ Hline) as Hr.
    destruct mode.
    + destruct (isByte c "/" && Strings.HasPrefix r "*" && hasClose (Utf8.drop 1 r))
        eqn:E.
      * apply andb_true_iff in E as [E _]. apply andb_true_iff in E as [_ E].
        apply (IH Opening Hr E).
      * cbn [noLine]. rewrite (IH Outside Hr I), andb_true_r. apply negb_true_iff.
        destruct (isByte c "/") eqn:Ec; [|reflexivity]. cbn [andb].
        destruct (Strings.HasPrefix (B r) "/") eqn:Es; [|reflexivity].
        apply (B_starts_slash Outside r Hr I) in Es as [_ Es].
        apply isByte_true in Ec as ->. apply noLine_slash in Hline. congruence.
    + apply (IH Inside Hr I).
    + destruct (isByte c "*" && Strings.HasPrefix r "/") eqn:E.
      * apply andb_true_iff in E as [_ E]. apply (IH Closing Hr E).
      * apply (IH Inside Hr I).
    + apply (IH Outside Hr I).
Qed.

Lemma B_hasClose (mode : blockMode) (s : string) :
  noLine s = true -> fits mode s ->
  hasClose (stripBlockComments mode s) = true -> hasClose s = true.
Proof.
  revert mode. induction s as [|c r IH]; intros mode Hline Hfit;
    cbn [stripBlockComments].
  - discriminate.
  - pose proof (noLine_cons _ _ Hline) as Hr.
    destruct mode.
    + destruct (isByte c "/" && Strings.HasPrefix r "*" && hasClose (Utf8.drop 1 r))
        eqn:E.
      * intros H. apply andb_true_iff in E as [E _]. apply andb_true_iff in E as [_ E].
        apply hasClose_cons, (IH Opening Hr E H).
      * cbn [hasClose]. intros H. apply orb_true_iff in H as [H|H].
        -- apply andb_true_iff in H as [Hc Hs].
           apply (B_starts_slash Outside r Hr I) in Hs as [_ Hs].
           rewrite Hc, Hs. reflexivity.
        -- rewrite (IH Outside Hr I H). apply orb_true_r.
    + intros H. apply hasClose_cons, (IH Inside Hr I H).
    + destruct (isByte c "*" && Strings.HasPrefix r "/") eqn:E.
      * intros H. apply andb_true_iff in E as [_ E].
        apply hasClose_cons, (IH Closing Hr E H).
      * intros H. apply hasClose_cons, (IH Inside Hr I H).
    + intros H. apply hasClose_cons, (IH Outside Hr I H).
Qed.
Lemma B_openFree (mode : blockMode) (s : string) :
  noLine s = true -> fits mode s -> openFree (stripBlockComments mode s) = true.
Proof.
  revert mode. induction s as [|c r IH]; intros mode Hline Hfit;
    cbn [stripBlockComments].
  - reflexivity.
  - pose proof (noLine_cons _ _ Hline) as Hr.
    destruct mode.
    + destruct (isByte c "/" && Strings.HasPrefix r "*" && hasClose (Utf8.drop 1 r))
        eqn:E.
      * apply andb_true_iff in E as [E _]. apply andb_true_iff in E as [_ E].
        apply (IH Opening Hr E).
      * cbn [openFree]. rewrite (IH Outside Hr I), andb_true_r. apply negb_true_iff.
        destruct (isByte c "/") eqn:Ec; [|reflexivity]. cbn [andb] in *.
        apply isByte_true in Ec as ->. apply noLine_slash in Hline.
        destruct r as [|x r']; [reflexivity|].
        (* the text goes on with [x], which is not a slash and is kept *)
        assert (Hkeep : B (String x r') = String x (B r')).
        { cbn [stripBlockComments]. destruct (isByte x "/") eqn:Ex; [|reflexivity].
          apply isByte_true in Ex as ->. discriminate. }
        rewrite Hkeep. cbn [Utf8.drop].
        destruct (Strings.HasPrefix (String x (B r')) "*") eqn:Ex; [|reflexivity].
        apply starts_cons in Ex as <-. cbn [andb].
        change (Strings.HasPrefix (String "*" r') "*") with true in E.
        cbn [andb Utf8.drop] in E.
        destruct (hasClose (B r')) eqn:Hclose; [|reflexivity].
        apply (B_hasClose Outside r' (noLine_cons _ _ Hr) I) in Hclose. congruence.
    + apply (IH Inside Hr I).
    + destruct (isByte c "*" && Strings.HasPrefix r "/") eqn:E.
      * apply andb_true_iff in E as [_ E]. apply (IH Closing Hr E).
      * apply (IH Inside Hr I).
    + apply (IH Outside Hr I).
Qed.

Lemma B_id (s : string) : openFree s = true -> B s = s.
Proof.
  induction s as [|c r IH]; [reflexivity|]. cbn [openFree stripBlockComments].
  intros H. apply andb_true_iff in H as [H1 H2]. apply negb_true_iff in H1.
  rewrite H1, (IH H2). reflexivity.
Qed.

(** *** Trailing commas *)

Lemma closesAfterSpace_head (x : ascii) (r : string) :
  closesAfterSpace (String x r) = true ->
  isReSpace x = true \/ x = "}"%char \/ x = "]"%char.
Proof.
  cbn [closesAfterSpace]. destruct (isReSpace x); [auto|]. intros H.
  apply orb_true_iff in H as [H|H]; apply isByte_true in H; auto.
Qed.

(** What is left of the text starts with a slash or a star only where
    the text does. *)
Lemma T_starts (s : string) (x : ascii) :
  x = "/"%char \/ x = "*"%char ->
  starts (T s) (String x "") -> starts s (String x "").
Proof.
  intros Hx. induction s as [|c r IH]; cbn [stripTrailingCommas]; [auto|].
  destruct (isByte c "," && closesAfterSpace r) eqn:E.
  - intros H. apply IH in H. apply andb_true_iff in E as [_ E].
    destruct r as [|y r']; [discriminate|]. apply starts_cons in H as <-.
    apply closesAfterSpace_head in E.
    destruct Hx as [-> | ->], E as [E|[E|E]]; discriminate.
  - intros H. apply starts_cons in H as ->. apply starts_cons. reflexivity.
Qed.

Lemma T_noLine (s : string) : noLine s = true -> noLine (T s) = true.
Proof.
  induction s as [|c r IH]; [reflexivity|]. intros Hline.
  pose proof (noLine_cons _ _ Hline) as Hr. cbn [stripTrailingCommas].
  destruct (isByte c "," && closesAfterSpace r); [apply IH, Hr|].
  cbn [noLine]. rewrite (IH Hr), andb_true_r. apply negb_true_iff.
  destruct (isByte c "/") eqn:Ec; [|reflexivity]. cbn [andb].
  destruct (Strings.HasPrefix (T r) "/") eqn:Es; [|reflexivity].
  apply T_starts in Es; [|auto]. apply isByte_true in Ec as ->.
  apply noLine_slash in Hline. congruence.
Qed.

Lemma T_hasClose (s : string) : hasClose (T s) = true -> hasClose s = true.
Proof.
  induction s as [|c r IH]; cbn [stripTrailingCommas]; [auto|].
  destruct (isByte c "," && closesAfterSpace r).
  - intros H. apply hasClose_cons, IH, H.
  - cbn [hasClose]. intros H. apply orb_true_iff in H as [H|H].
    + apply andb_true_iff in H as [Hc Hs]. apply T_starts in Hs; [|auto].
      rewrite Hc, Hs. reflexivity.
    + rewrite (IH H). apply orb_true_r.
Qed.

Lemma T_openFree (s : string) : openFree s = true -> openFree (T s) = true.
Proof.
  induction s as [|c r IH]; [reflexivity|]. cbn [openFree stripTrailingCommas].
  intros H. apply andb_true_iff in H as [H1 H2]. apply negb_true_iff in H1.
  destruct (isByte c "," && closesAfterSpace r); [apply IH, H2|].
  cbn [openFree]. rewrite (IH H2), andb_true_r. apply negb_true_iff.
  destruct (isByte c "/") eqn:Ec; [|reflexivity]. cbn [andb] in *.
  destruct (Strings.HasPrefix (T r) "*") eqn:Es; [|reflexivity]. cbn [andb].
  apply T_starts in Es; [|auto]. rewrite Es in H1. cbn [andb] in H1.
  destruct r as [|x r']; [discriminate|]. apply starts_cons in Es as <-.
  cbn [stripTrailingCommas isByte Ascii.eqb Bool.eqb andb Utf8.drop] in *.
  destruct (hasClose (T r')) eqn:Hclose; [|reflexivity].
  apply T_hasClose in Hclose. congruence.
Qed.

(** *** The passes together *)

(** Nothing is left to strip in a text without line comments and block
    comments. *)
Lemma stripJSONC_stripped (y : string) :
  noLine y = true -> openFree y = true ->
  stripJSONC y = Strings.TrimSpace (T y).
Proof. intros Hl Ho. unfold stripJSONC. rewrite (L_id y Hl), (B_id y Ho). reflexivity. Qed.



End StripFacts.

(** The relaxed dialect on files. *)
Section StripExamples.
Import Json Devcontainer.

Local Abbreviation path := workspaceConfig.


End StripExamples.

(** ** Compose files of a definition *)
Section ComposeFileFacts.
Import Devcontainer Filepath.

Lemma resolveFrom_spec (configDir : string) (composeFiles : list string) :
  forall (written rest : list string),
    length rest = length composeFiles ->
    resolveFrom configDir (length written) composeFiles (written ++ rest)
    = written ++ map (resolveComposeFile configDir) composeFiles.
Proof.
  induction composeFiles as [|f composeFiles IH]; intros written rest Hlen.
  - destruct rest; [reflexivity | discriminate].
  - destruct rest as [|r rest]; [discriminate|]. cbn [resolveFrom map].
    rewrite insert_app_r_alt by lia. rewrite Nat.sub_diag. cbn [insert list_insert].
    replace (S (length written)) with (length (written ++ [resolveComposeFile configDir f]))
      by (rewrite length_app; cbn; lia).
    change (written ++ resolveComposeFile configDir f :: rest)
      with (written ++ [resolveComposeFile configDir f] ++ rest).
    rewrite app_assoc, IH by (cbn in Hlen; lia).
    rewrite <- app_assoc. reflexivity.
Qed.

Lemma GetComposeFiles_map (c : Config) :
  GetComposeFiles c
  = map (resolveComposeFile (Filepath.Dir (ConfigPath c))) (DockerComposeFile c).
Proof.
  unfold GetComposeFiles.
  destruct (DockerComposeFile c) as [|f composeFiles] eqn:E; [reflexivity|].
  cbn [length Nat.eqb].
  exact (resolveFrom_spec _ (f :: composeFiles) [] _ (length_replicate _ _)).
Qed.
Lemma Join_absPath (elems : list string) (f : string) :
  Forall (fun e => realElem e = true) (elems ++ [f]) ->
  Filepath.Join [absPath elems; f] = absPath (elems ++ [f]).
Proof.
  intros Hall. cbn [Filepath.Join].
  change (String.eqb (absPath elems) "") with false. cbv iota.
  change (Strings.Join [absPath elems; f] "/") with (absPath elems +:+ "/" +:+ f).
  destruct elems as [|x elems].
  - apply Forall_app in Hall as [_ Hf]. inversion Hf as [|? ? Hreal _]; subst.
    change (absPath [] +:+ "/" +:+ f) with ("/" +:+ "/" +:+ f).
    unfold Clean.
    change (String.eqb ("/" +:+ "/" +:+ f) "") with false.
    change (Strings.HasPrefix ("/" +:+ "/" +:+ f) "/") with true.
    cbv beta iota zeta.
    change ("/" +:+ "/" +:+ f) with ("" +:+ "/" +:+ "" +:+ "/" +:+ f).
    rewrite !elements_app_sep, (elements_nosep f) by (apply realElem_nosep, Hreal).
    cbn [elements app fold_left].
    change (cleanStep true (cleanStep true [] "") "") with (@nil string).
    rewrite (cleanStep_real true [] f Hreal). reflexivity.
  - pose proof (Clean_absPath ((x :: elems) ++ [f]) Hall) as H.
    rewrite (absPath_snoc (x :: elems) f) in H at 1. exact H.
Qed.
Lemma realElem_not_abs (f : string) : realElem f = true -> IsAbs f = false.
Proof.
  intros H. apply realElem_nosep in H. destruct f as [|c f]; [reflexivity|].
  cbn in H. apply orb_false_iff in H as [H _].
  unfold IsAbs, Strings.HasPrefix. cbn [Strings.cutPrefix]. unfold isSep in H.
  rewrite Ascii.eqb_sym, H. reflexivity.
Qed.

(** C9. [GetComposeFiles] gives, for each compose file of the definition
    and in the same order, the file itself when its path is absolute,
    and else the cleaned join of the directory of the definition file
    with it; the result is as long as the sequence of compose files.  A
    relative name of one element comes out in the directory of the
    definition file. *)
Theorem GetComposeFiles_resolves (c : Config) :
  GetComposeFiles c
  = map (fun f => if IsAbs f then f
                  else Clean (Filepath.Join [Dir (ConfigPath c); f]))
        (DockerComposeFile c)
  /\ length (GetComposeFiles c) = length (DockerComposeFile c)
  /\ (forall (i : nat) (f : string),
        DockerComposeFile c !! i = Some f ->
        GetComposeFiles c !! i
        = Some (if IsAbs f then f
                else Clean (Filepath.Join [Dir (ConfigPath c); f])))
  /\ (forall (i : nat) (f : string),
        DockerComposeFile c !! i = Some f -> IsAbs f = true ->
        GetComposeFiles c !! i = Some f)
  /\ (forall (dir : list string) (file f : string) (i : nat),
        ConfigPath c = absPath (dir ++ [file]) ->
        Forall (fun e => realElem e = true) (dir ++ [file]) ->
        realElem f = true ->
        DockerComposeFile c !! i = Some f ->
        GetComposeFiles c !! i = Some (absPath (dir ++ [f]))).
Proof.
  pose proof (GetComposeFiles_map c) as Hmap.
  unfold resolveComposeFile in Hmap.
  assert (Hnth : forall (i : nat) (f : string),
             DockerComposeFile c !! i = Some f ->
             GetComposeFiles c !! i
             = Some (if IsAbs f then f
                     else Clean (Filepath.Join [Dir (ConfigPath c); f]))).
  { intros i f Hf. rewrite Hmap, list_lookup_fmap, Hf. reflexivity. }
  split; [exact Hmap|]. split; [rewrite Hmap; apply length_map|].
  split; [exact Hnth|]. split.
  - intros i f Hf Habs. rewrite (Hnth i f Hf), Habs. reflexivity.
  - intros dir file f i Hpath Hdir Hf Hi.
    rewrite (Hnth i f Hi), (realElem_not_abs f Hf), Hpath, Dir_absPath by assumption.
    apply Forall_app in Hdir as [Hdir _].
    assert (Hall : Forall (fun e => realElem e = true) (dir ++ [f])).
    { apply Forall_app. split; [assumption | repeat constructor; assumption]. }
    rewrite Join_absPath, Clean_absPath by assumption. reflexivity.
Qed.

(** The test of [TestConfig_GetComposeFiles], and an absolute path. *)
Example GetComposeFiles_test :
  GetComposeFiles {| Image := "";
                     DockerComposeFile := ["../docker-compose.yml";
                                           "docker-compose.dev.yml";
                                           "/srv/compose/base.yml"];
                     Service := "app";
                     ConfigPath := "/tmp/ws/.devcontainer/devcontainer.json" |}
  = ["/tmp/ws/docker-compose.yml";
     "/tmp/ws/.devcontainer/docker-compose.dev.yml";
     "/srv/compose/base.yml"].
Proof. reflexivity. Qed.
End ComposeFileFacts.

(** ** Project names *)
Section NamingFacts.
Import Devcontainer Docker Filepath.

Variable unicodeToLower : string -> string.

Local Abbreviation ToLower := (Strings.ToLower unicodeToLower).
Local Abbreviation real elems := (Forall (fun e => realElem e = true) elems).

Lemma lowerByte_not_upper (c : ascii) :
  Strings.isUpperByte (Strings.lowerByte c) = false.
Proof. destruct c as [[] [] [] [] [] [] [] []]; reflexivity. Qed.

Lemma noUpper_mapBytes (s : string) :
  Strings.noUpper (Strings.mapBytes Strings.lowerByte s) = true.
Proof.
  induction s as [|c s IH]; [reflexivity|].
  unfold Strings.noUpper in *. cbn. rewrite lowerByte_not_upper, IH. reflexivity.
Qed.

Lemma noUpper_no_upper (s : string) :
  Strings.any Strings.isUpperByte s = false -> Strings.noUpper s = true.
Proof.
  unfold Strings.noUpper. induction s as [|c s IH]; [reflexivity|]. cbn.
  intros H. apply orb_false_iff in H as [-> H]. rewrite (IH H). reflexivity.
Qed.

Lemma noUpper_app (a b : string) :
  Strings.noUpper (a +:+ b) = Strings.noUpper a && Strings.noUpper b.
Proof.
  unfold Strings.noUpper. induction a as [|c a IH]; [reflexivity|]. cbn.
  rewrite IH. apply andb_assoc.
Qed.

Lemma noUpper_ToLower (s : string) :
  (forall t, Strings.noUpper (unicodeToLower t) = true) ->
  Strings.noUpper (ToLower s) = true.
Proof.
  intros Hlower. unfold Strings.ToLower.
  destruct (Strings.all Strings.isASCIIByte s); [|apply Hlower].
  destruct (Strings.any Strings.isUpperByte s) eqn:E.
  - apply noUpper_mapBytes.
  - apply noUpper_no_upper, E.
Qed.

(** The directory and the base name of a path of three elements and
    more. *)
Lemma Dir_Base_absPath (elems : list string) (a b : string) :
  real (elems ++ [a; b]) ->
  Dir (absPath (elems ++ [a; b])) = absPath (elems ++ [a])
  /\ Base (Dir (absPath (elems ++ [a; b]))) = a.
Proof.
  intros Hall. change (elems ++ [a; b]) with (elems ++ [a] ++ [b]) in *.
  rewrite app_assoc in *. rewrite Dir_absPath by assumption.
  split; [reflexivity|]. apply Base_absPath.
  apply Forall_app in Hall as [Hall _]. apply Forall_app in Hall as [_ Ha].
  inversion Ha; assumption.
Qed.

(** C1. [DeriveDevcontainerProjectName], for every path of a definition
    file: when the base name of the parent directory is [.devcontainer],
    the lower-case base name of that directory's parent and
    [_devcontainer], and else the lower-case base name of the parent
    directory.  So the definition file at
    [<root>/<name>/.devcontainer/<file>] gives the lower-case [<name>]
    and [_devcontainer], and the one at [<root>/<sub>/<file>] with
    [<sub>] other than [.devcontainer] gives the lower-case [<sub>]; the
    two paths of the spec give [myproj_devcontainer] and [app1]; and no
    result holds an upper-case ASCII letter, given that the lower-case
    mapping of Unicode leaves none. *)
Theorem DeriveDevcontainerProjectName_spec :
  (forall path,
      DeriveDevcontainerProjectName unicodeToLower path
      = if String.eqb (Base (Dir path)) ".devcontainer"
        then ToLower (Base (Dir (Dir path))) +:+ "_devcontainer"
        else ToLower (Base (Dir path)))
  /\ (forall root name file,
        real (root ++ [name; ".devcontainer"; file]) ->
        DeriveDevcontainerProjectName
          unicodeToLower (absPath (root ++ [name; ".devcontainer"; file]))
        = ToLower name +:+ "_devcontainer")
  /\ (forall root sub file,
        real (root ++ [sub; file]) -> sub <> ".devcontainer" ->
        DeriveDevcontainerProjectName
          unicodeToLower (absPath (root ++ [sub; file]))
        = ToLower sub)
  /\ DeriveDevcontainerProjectName
       unicodeToLower "/home/u/MyProj/.devcontainer/devcontainer.json"
     = "myproj_devcontainer"
  /\ DeriveDevcontainerProjectName
       unicodeToLower "/home/u/MyProj/.devcontainer/App1/devcontainer.json"
     = "app1"
  /\ ((forall s, Strings.noUpper (unicodeToLower s) = true) ->
      forall path,
        Strings.noUpper (DeriveDevcontainerProjectName unicodeToLower path) = true).
Proof.
  split; [reflexivity|]. split; [|split; [|split; [|split]]].
  - intros root name file Hall. unfold DeriveDevcontainerProjectName.
    change (root ++ [name; ".devcontainer"; file])
      with (root ++ [name] ++ [".devcontainer"; file]) in *.
    rewrite app_assoc in *.
    destruct (Dir_Base_absPath _ _ _ Hall) as [-> ->]. cbn [String.eqb Ascii.eqb Bool.eqb].
    rewrite <- app_assoc. cbn [app].
    assert (Hroot : real (root ++ [name; ".devcontainer"])).
    { rewrite <- app_assoc in Hall. cbn [app] in Hall.
      change (root ++ [name; ".devcontainer"; file])
        with (root ++ [name; ".devcontainer"] ++ [file]) in Hall.
      rewrite app_assoc in Hall. apply Forall_app in Hall. tauto. }
    destruct (Dir_Base_absPath _ _ _ Hroot) as [_ ->]. reflexivity.
  - intros root sub file Hall Hsub. unfold DeriveDevcontainerProjectName.
    destruct (Dir_Base_absPath _ _ _ Hall) as [_ ->].
    destruct (String.eqb_spec sub ".devcontainer"); [contradiction|reflexivity].
  - reflexivity.
  - reflexivity.
  - intros Hlower path. unfold DeriveDevcontainerProjectName.
    destruct (String.eqb _ _).
    + rewrite noUpper_app, noUpper_ToLower by assumption. reflexivity.
    + apply noUpper_ToLower, Hlower.
Qed.
(** C5. [DeriveProjectNameFromComposeFile], for every path of a compose
    file, with [dir] its parent directory: when the base name of [dir]
    is [.devcontainer], the lower-case base name of the parent of [dir]
    and [_devcontainer]; when [dir] sits in a directory of that name,
    and in every other case, the lower-case base name of [dir].  So the
    compose file at [<root>/<name>/.devcontainer/<file>] gives the
    lower-case [<name>] and [_devcontainer], the one at
    [<root>/.devcontainer/<sub>/<file>] the lower-case [<sub>], the one
    at [<root>/<name>/<file>] outside the reserved directory the
    lower-case [<name>]; the paths of the tests give the names the tests
    expect; and of the compose files of a definition the first alone,
    resolved against the directory of the definition file, gives the
    name. *)
Theorem DeriveProjectNameFromComposeFile_spec :
  (forall path,
      DeriveProjectNameFromComposeFile unicodeToLower path
      = let dir := Dir path in
        if String.eqb (Base dir) ".devcontainer"
        then ToLower (Base (Dir dir)) +:+ "_devcontainer"
        else if String.eqb (Base (Dir dir)) ".devcontainer"
             then ToLower (Base dir)
             else ToLower (Base dir))
  /\ (forall root name file,
        real (root ++ [name; ".devcontainer"; file]) ->
        DeriveProjectNameFromComposeFile
          unicodeToLower (absPath (root ++ [name; ".devcontainer"; file]))
        = ToLower name +:+ "_devcontainer")
  /\ (forall root sub file,
        real (root ++ [".devcontainer"; sub; file]) -> sub <> ".devcontainer" ->
        DeriveProjectNameFromComposeFile
          unicodeToLower (absPath (root ++ [".devcontainer"; sub; file]))
        = ToLower sub)
  /\ (forall root name file,
        real (root ++ [name; file]) -> name <> ".devcontainer" ->
        DeriveProjectNameFromComposeFile
          unicodeToLower (absPath (root ++ [name; file]))
        = ToLower name)
  /\ (DeriveProjectNameFromComposeFile
        unicodeToLower "/home/user/myproject/.devcontainer/docker-compose.yml"
      = "myproject_devcontainer"
      /\ DeriveProjectNameFromComposeFile
           unicodeToLower "/home/user/myproject/.devcontainer/app1/docker-compose.yml"
         = "app1"
      /\ DeriveProjectNameFromComposeFile
           unicodeToLower "/home/user/myproject/docker-compose.yml"
         = "myproject"
      /\ DeriveProjectNameFromComposeFile
           unicodeToLower "/home/user/myproject/docker/docker-compose.yml"
         = "docker"
      /\ DeriveProjectNameFromComposeFile
           unicodeToLower "/home/user/MyProject/Docker/docker-compose.yml"
         = "docker")
  /\ (forall first rest,
        DeriveProjectNameFromComposeFiles unicodeToLower (first :: rest)
        = DeriveProjectNameFromComposeFile unicodeToLower first)
  /\ (forall cfg first rest,
        DockerComposeFile cfg = first :: rest ->
        DeriveProjectNameFromConfig unicodeToLower cfg
        = DeriveProjectNameFromComposeFile
            unicodeToLower
            (if IsAbs first then first
             else Clean (Filepath.Join [Dir (ConfigPath cfg); first]))).
Proof.
  assert (Hout : forall root name file,
             real (root ++ [name; file]) -> name <> ".devcontainer" ->
             DeriveProjectNameFromComposeFile
               unicodeToLower (absPath (root ++ [name; file]))
             = ToLower name).
  { intros root name file Hall Hname. unfold DeriveProjectNameFromComposeFile.
    destruct (Dir_Base_absPath _ _ _ Hall) as [_ ->].
    destruct (String.eqb_spec name ".devcontainer"); [contradiction|].
    destruct (String.eqb _ _); reflexivity. }
  split; [reflexivity|]. split; [|split; [|split; [|split; [|split]]]].
  - intros root name file Hall. unfold DeriveProjectNameFromComposeFile.
    change (root ++ [name; ".devcontainer"; file])
      with (root ++ [name] ++ [".devcontainer"; file]) in *.
    rewrite app_assoc in *.
    destruct (Dir_Base_absPath _ _ _ Hall) as [-> ->]. cbn [String.eqb Ascii.eqb Bool.eqb].
    rewrite <- app_assoc. cbn [app].
    assert (Hroot : real (root ++ [name; ".devcontainer"])).
    { rewrite <- app_assoc in Hall. cbn [app] in Hall.
      change (root ++ [name; ".devcontainer"; file])
        with (root ++ [name; ".devcontainer"] ++ [file]) in Hall.
      rewrite app_assoc in Hall. apply Forall_app in Hall. tauto. }
    destruct (Dir_Base_absPath _ _ _ Hroot) as [_ ->]. reflexivity.
  - intros root sub file Hall Hsub.
    change (root ++ [".devcontainer"; sub; file])
      with (root ++ [".devcontainer"] ++ [sub; file]) in *.
    rewrite app_assoc in *. apply Hout; assumption.
  - exact Hout.
  - repeat split; reflexivity.
  - reflexivity.
  - intros cfg first rest Hfiles. unfold DeriveProjectNameFromConfig, IsComposeBased.
    rewrite GetComposeFiles_map, Hfiles. reflexivity.
Qed.
End NamingFacts.

(** C1 at work, with the lower-case mapping of ASCII for that of
    Unicode. *)
Lemma DeriveDevcontainerProjectName_lowercase :
  let asciiToLower := Strings.mapBytes Strings.lowerByte in
  (forall s, Strings.noUpper (asciiToLower s) = true)
  /\ Docker.DeriveDevcontainerProjectName
       asciiToLower "/home/u/MyProj/.devcontainer/devcontainer.json"
     = "myproj_devcontainer"
  /\ Strings.noUpper
       (Docker.DeriveDevcontainerProjectName
          asciiToLower "/Users/Émile/Projets/.devcontainer/devcontainer.json")
     = true.
Proof.
  cbv zeta.
  destruct (DeriveDevcontainerProjectName_spec (Strings.mapBytes Strings.lowerByte))
    as (_ & _ & _ & Hflat & _ & Hlower).
  split; [exact noUpper_mapBytes|]. split; [exact Hflat|].
  apply Hlower, noUpper_mapBytes.
Defined.

(** ** The compose operations and the calls they make *)
Section ComposeFacts.
Import Docker Recorder.
Context {W : Type} (client : ComposeClient W).

Local Abbreviation rec := (recording client).

(** The event of the call [mk x] that returned the error [e]. *)
Local Abbreviation event mk x e := {| call := mk x; reply := Done; err := e |}.

Lemma forRange_recorded {A} (step : A -> M W (option error)) (mk : A -> Call)
      (what : string) (name : A -> string) (l : list A) :
  forall w log,
  exists res w' evs,
    forRange (fun x => e <- record (step x) (fun e => event mk x e) ;;
                       ret (orErrorf what (name x) e)) l (w, log)
    = (res, (w', log ++ evs))
    /\ ((res = None /\ evs = map (fun x => event mk x None) l)
        \/ (exists pre x post cause,
              l = pre ++ x :: post
              /\ evs = map (fun x => event mk x None) pre
                       ++ [event mk x (Some cause)]
              /\ res = Some (Errorf_w (what +:+ " " +:+ name x +:+ ": ") cause))).
Proof.
  induction l as [|x l IH]; intros w log.
  - exists None, w, []. rewrite app_nil_r. split; [reflexivity | left; auto].
  - cbn [forRange]. unfold bind at 1. unfold bind at 1, record at 1.
    destruct (step x w) as [e w1] eqn:Hstep. destruct e as [cause|]; cbn.
    + exists (Some (Errorf_w (what +:+ " " +:+ name x +:+ ": ") cause)), w1,
        [event mk x (Some cause)].
      split; [reflexivity|]. right. exists [], x, l, cause. auto.
    + destruct (IH w1 (log ++ [event mk x None])) as (res & w' & evs & Hrun & Hevs).
      exists res, w', (event mk x None :: evs). split.
      * rewrite Hrun. rewrite <- app_assoc. reflexivity.
      * destruct Hevs as [[-> ->]|(pre & y & post & cause & -> & -> & ->)].
        -- left. auto.
        -- right. exists (x :: pre), y, post, cause. auto.
Qed.
Lemma clean_app (a b : list Event) : clean a -> clean b -> clean (a ++ b).
Proof. unfold clean. intros. apply Forall_app; auto. Qed.

Lemma clean_map {A} (mk : A -> Call) (l : list A) :
  clean (map (fun x => event mk x None) l).
Proof. unfold clean. induction l; cbn; constructor; auto. Qed.

Lemma calls_map {A} (mk : A -> Call) (l : list A) :
  calls (map (fun x => event mk x None) l) = map mk l.
Proof. unfold calls. rewrite map_map. reflexivity. Qed.

Lemma calls_app (a b : list Event) : calls (a ++ b) = calls a ++ calls b.
Proof. apply map_app. Qed.

(** A run after calls that did not fail. *)
Lemma outcome_after (before log : list Event) res planned :
  clean before -> outcome res log planned ->
  outcome res (before ++ log) (calls before ++ planned).
Proof.
  intros Hb [Hres Hcalls Hclean | done ev cause e Hres Hlog Hdone Herr Hpre Hrep].
  - apply finished; auto.
    + rewrite calls_app. congruence.
    + apply clean_app; auto.
  - apply (aborted _ _ _ (before ++ done) ev cause e); auto.
    + rewrite Hlog. apply app_assoc.
    + apply clean_app; auto.
    + rewrite calls_app. apply prefix_app. exact Hpre.
Qed.

(** A run that failed made a prefix of any longer plan. *)
Lemma outcome_failed log e planned more :
  outcome (Some e) log planned -> outcome (Some e) log (planned ++ more).
Proof.
  intros [Hres | done ev cause e' Hres Hlog Hdone Herr Hpre Hrep]; [discriminate|].
  apply (aborted _ _ _ done ev cause e'); auto.
  apply prefix_app_r. exact Hpre.
Qed.

(** A single call that failed. *)
Lemma outcome_call_failed ev cause e planned :
  err ev = Some cause -> reported ev cause e ->
  outcome (Some e) [ev] (call ev :: planned).
Proof.
  intros Herr Hrep. apply (aborted _ _ _ [] ev cause e); auto.
  - constructor.
  - cbn. apply prefix_cons, prefix_nil.
Qed.

Lemma forRange_outcome {A} (step : A -> M W (option error)) (mk : A -> Call)
      (what : string) (name : A -> string) (l : list A) :
  (forall x cause,
      reported (event mk x (Some cause)) cause
               (Errorf_w (what +:+ " " +:+ name x +:+ ": ") cause)) ->
  forall w log,
  exists res w' evs,
    forRange (fun x => e <- record (step x) (fun e => event mk x e) ;;
                       ret (orErrorf what (name x) e)) l (w, log)
    = (res, (w', log ++ evs))
    /\ outcome res evs (map mk l)
    /\ Forall (fun ev => reply ev = Done) evs.
Proof.
  intros Hrep w log.
  destruct (forRange_recorded step mk what name l w log)
    as (res & w' & evs & Hrun & Hevs).
  exists res, w', evs. split; [exact Hrun|].
  destruct Hevs as [[-> ->]|(pre & x & post & cause & -> & -> & ->)].
  - split.
    + apply finished; auto using clean_map, calls_map.
    + apply List.Forall_map, List.Forall_forall. reflexivity.
  - split.
    + eapply aborted; eauto using clean_map.
      rewrite calls_app, calls_map, map_app. cbn.
      apply prefix_app, prefix_cons, prefix_nil.
    + apply Forall_app. split; [|repeat constructor].
      apply List.Forall_map, List.Forall_forall. reflexivity.
Qed.

(** A run in two parts, the first of which did not fail. *)
Lemma outcome_then (log1 log2 : list Event) res planned1 planned2 :
  outcome None log1 planned1 -> outcome res log2 planned2 ->
  outcome res (log1 ++ log2) (planned1 ++ planned2).
Proof.
  intros [_ <- Hclean | ? ? ? ? Hres]; [|discriminate].
  apply outcome_after. exact Hclean.
Qed.

Lemma outcome_call ev : err ev = None -> outcome None [ev] [call ev].
Proof. intros H. apply finished; auto. repeat constructor. exact H. Qed.

Lemma outcome_nil : outcome None [] [].
Proof. apply finished; auto. constructor. Qed.

Lemma listedContainers_skip evs rest :
  Forall (fun ev => reply ev = Done) evs ->
  listedContainers (evs ++ rest) = listedContainers rest.
Proof. induction 1 as [|ev evs H _ IH]; cbn; [|rewrite H]; auto. Qed.

Lemma listedNetworks_skip evs rest :
  Forall (fun ev => reply ev = Done) evs ->
  listedNetworks (evs ++ rest) = listedNetworks rest.
Proof. induction 1 as [|ev evs H _ IH]; cbn; [|rewrite H]; auto. Qed.

Lemma listedVolumes_skip evs rest :
  Forall (fun ev => reply ev = Done) evs ->
  listedVolumes (evs ++ rest) = listedVolumes rest.
Proof. induction 1 as [|ev evs H _ IH]; cbn; [|rewrite H]; auto. Qed.

Lemma clean_app_inv (a b : list Event) : clean (a ++ b) -> clean a /\ clean b.
Proof. unfold clean. intros H. apply Forall_app in H. exact H. Qed.

(** Where an event sits in a log that ends with [ev]. *)
Lemma split_snoc {A} (done done0 rest : list A) (ev ev0 : A) :
  done ++ [ev] = done0 ++ ev0 :: rest ->
  (rest = [] /\ done0 = done /\ ev0 = ev)
  \/ (exists k, done = done0 ++ ev0 :: k).
Proof.
  destruct rest as [|x rest _] using rev_ind; intros H.
  - apply app_inj_tail in H as [-> ->]. left. auto.
  - right. exists rest. rewrite app_comm_cons, app_assoc in H.
    apply app_inj_tail in H as [-> _]. reflexivity.
Qed.

Lemma outcome_prefix res log planned :
  outcome res log planned -> calls log `prefix_of` planned.
Proof. intros [_ <- _|]; [reflexivity | assumption]. Qed.

Lemma outcome_success res log planned :
  outcome res log planned -> (res = None <-> calls log = planned /\ clean log).
Proof.
  intros [Hres Hcalls Hclean | done ev cause e Hres Hlog Hdone Herr Hpre Hrep].
  - tauto.
  - subst. split; [discriminate|]. intros [_ Hclean].
    apply clean_app_inv in Hclean as [_ Hev]. inversion Hev; congruence.
Qed.

Lemma outcome_failFast res log planned :
  outcome res log planned -> failFast res log.
Proof.
  intros [Hres Hcalls Hclean | done ev cause e Hres Hlog Hdone Herr Hpre Hrep]
         done0 ev0 rest cause0 Hsplit Hfail.
  - subst log. apply clean_app_inv in Hclean as [_ Hev].
    inversion Hev; congruence.
  - subst log. apply split_snoc in Hsplit as [(-> & -> & ->)|[k ->]].
    + split; [reflexivity|]. split; [assumption|]. exists e.
      split; [assumption|]. congruence.
    + apply clean_app_inv in Hdone as [_ Hev]. inversion Hev; congruence.
Qed.

Lemma outcome_inOrder res log planned : outcome res log planned -> inOrder log.
Proof.
  intros [Hres Hcalls Hclean | done ev cause e Hres Hlog Hdone Herr Hpre Hrep]
         done0 ev0 rest Hsplit.
  - subst log. apply clean_app_inv in Hclean as [H _]. exact H.
  - subst log. apply split_snoc in Hsplit as [(-> & -> & ->)|[k ->]].
    + assumption.
    + apply clean_app_inv in Hdone as [H _]. exact H.
Qed.

Lemma downPlan_no_volumes projectName containers networks volumes :
  Forall (fun c => isVolumeCall c = false)
         (downPlan projectName false containers networks volumes).
Proof.
  unfold downPlan. rewrite !Forall_app. repeat split;
    try (apply List.Forall_map, List.Forall_forall; reflexivity);
    repeat constructor.
Qed.

Lemma Forall_prefix {A} (P : A -> Prop) (l k : list A) :
  l `prefix_of` k -> Forall P k -> Forall P l.
Proof. intros [t ->] H. apply Forall_app in H. tauto. Qed.

(** The loops of the two operations, run on the recording client. *)

Lemma stop_loop (containers : list ContainerInfo) w log :
  exists res w' evs,
    forRange (W := W * list Event)
             (fun container =>
                e <- ContainerStop (ContainerClient := containerClient (ComposeClient := rec))
                       (ID container) None ;;
                ret (orErrorf "failed to stop container" (ID container) e))
             containers (w, log)
    = (res, (w', log ++ evs))
    /\ outcome res evs (map (fun c => ContainerStopCall (ID c) None) containers)
    /\ Forall (fun ev => reply ev = Done) evs.
Proof.
  exact (forRange_outcome (fun c => ContainerStop (ID c) None)
           (fun c => ContainerStopCall (ID c) None)
           "failed to stop container" ID containers
           (fun x cause => eq_refl) w log).
Qed.

Lemma remove_loop (containers : list ContainerInfo) w log :
  exists res w' evs,
    forRange (W := W * list Event)
             (fun container =>
                e <- ContainerRemove (ContainerClient := containerClient (ComposeClient := rec))
                       (ID container) true ;;
                ret (orErrorf "failed to remove container" (ID container) e))
             containers (w, log)
    = (res, (w', log ++ evs))
    /\ outcome res evs (map (fun c => ContainerRemoveCall (ID c) true) containers)
    /\ Forall (fun ev => reply ev = Done) evs.
Proof.
  exact (forRange_outcome (fun c => ContainerRemove (ID c) true)
           (fun c => ContainerRemoveCall (ID c) true)
           "failed to remove container" ID containers
           (fun x cause => eq_refl) w log).
Qed.

Lemma network_loop (networks : list NetworkInfo) w log :
  exists res w' evs,
    forRange (W := W * list Event)
             (fun network =>
                e <- NetworkRemove (ComposeClient := rec) (NetworkID network) ;;
                ret (orErrorf "failed to remove network" (NetworkName network) e))
             networks (w, log)
    = (res, (w', log ++ evs))
    /\ outcome res evs (map (fun n => NetworkRemoveCall (NetworkID n)) networks)
    /\ Forall (fun ev => reply ev = Done) evs.
Proof.
  exact (forRange_outcome (fun n => NetworkRemove (NetworkID n))
           (fun n => NetworkRemoveCall (NetworkID n))
           "failed to remove network" NetworkName networks
           (fun x cause => ex_intro _ (NetworkName x) eq_refl) w log).
Qed.

Lemma volume_loop (volumes : list VolumeInfo) w log :
  exists res w' evs,
    forRange (W := W * list Event)
             (fun volume =>
                e <- VolumeRemove (ComposeClient := rec) (VolumeName volume) true ;;
                ret (orErrorf "failed to remove volume" (VolumeName volume) e))
             volumes (w, log)
    = (res, (w', log ++ evs))
    /\ outcome res evs (map (fun v => VolumeRemoveCall (VolumeName v) true) volumes)
    /\ Forall (fun ev => reply ev = Done) evs.
Proof.
  exact (forRange_outcome (fun v => VolumeRemove (VolumeName v) true)
           (fun v => VolumeRemoveCall (VolumeName v) true)
           "failed to remove volume" VolumeName volumes
           (fun x cause => eq_refl) w log).
Qed.

(** The list calls on the recording client. *)

Lemma rec_ContainerList options w log :
  ContainerList (ContainerClient := containerClient (ComposeClient := rec))
                options (w, log)
  = (fst (ContainerList options w),
     (snd (ContainerList options w),
      log ++ [{| call := ContainerListCall options;
                 reply := Containers (fst (fst (ContainerList options w)));
                 err := snd (fst (ContainerList options w)) |}])).
Proof. cbn. destruct (ContainerList options w) as [[? ?] ?]. reflexivity. Qed.

Lemma rec_NetworkList options w log :
  NetworkList (ComposeClient := rec) options (w, log)
  = (fst (NetworkList options w),
     (snd (NetworkList options w),
      log ++ [{| call := NetworkListCall options;
                 reply := Networks (fst (fst (NetworkList options w)));
                 err := snd (fst (NetworkList options w)) |}])).
Proof. cbn. destruct (NetworkList options w) as [[? ?] ?]. reflexivity. Qed.

Lemma rec_VolumeList options w log :
  VolumeList (ComposeClient := rec) options (w, log)
  = (fst (VolumeList options w),
     (snd (VolumeList options w),
      log ++ [{| call := VolumeListCall options;
                 reply := Volumes (fst (fst (VolumeList options w)));
                 err := snd (fst (VolumeList options w)) |}])).
Proof. cbn. destruct (VolumeList options w) as [[? ?] ?]. reflexivity. Qed.

Lemma Stop_outcome (projectName : string) (w : W) :
  exists res w' log,
    StopComposeProject (client := rec) projectName (w, []) = (res, (w', log))
    /\ hd_error log = Some (firstEvent client projectName w)
    /\ outcome res log (stopPlan projectName (listedContainers log)).
Proof.
  unfold StopComposeProject, FindComposeContainers, firstEvent.
  unfold bind at 1. rewrite rec_ContainerList.
  destruct (ContainerList _ w) as [[containers [e|]] w1]; cbn [fst snd app].
  - eexists _, _, _. split; [reflexivity|]. split; [reflexivity|].
    apply outcome_call_failed with (cause := e); reflexivity.
  - set (ev0 := {| call := ContainerListCall _; reply := Containers containers;
                   err := None |}).
    destruct (stop_loop containers w1 [ev0]) as (res & w' & evs & Hrun & Hout & _).
    rewrite Hrun. eexists _, _, _. split; [reflexivity|]. split; [reflexivity|].
    exact (outcome_after [ev0] evs res _ ltac:(repeat constructor) Hout).
Qed.

Lemma volumes_outcome (projectName : string) w log :
  exists res w' evs,
    removeProjectVolumes (client := rec) projectName (w, log)
    = (res, (w', log ++ evs))
    /\ outcome res evs
         (VolumeListCall {| VolumeLabelFilter := projectLabel projectName |}
          :: map (fun v => VolumeRemoveCall (VolumeName v) true)
                 (listedVolumes evs)).
Proof.
  unfold removeProjectVolumes. unfold bind at 1. rewrite rec_VolumeList.
  destruct (VolumeList _ w) as [[volumes [e|]] w1]; cbn [fst snd].
  - eexists _, _, _. split; [reflexivity|].
    apply outcome_call_failed with (cause := e); reflexivity.
  - set (evV := {| call := VolumeListCall _; reply := Volumes volumes;
                   err := None |}).
    destruct (volume_loop volumes w1 (log ++ [evV]))
      as (res & w' & evs & Hrun & Hout & _).
    rewrite Hrun, <- app_assoc. eexists _, _, _. split; [reflexivity|].
    exact (outcome_then [evV] evs res [_] _ (outcome_call evV eq_refl) Hout).
Qed.

Lemma Down_outcome (projectName : string) (removeVolumes : bool) (w : W) :
  exists res w' log,
    DownComposeProject (client := rec) projectName removeVolumes (w, [])
    = (res, (w', log))
    /\ hd_error log = Some (firstEvent client projectName w)
    /\ outcome res log
         (downPlan projectName removeVolumes (listedContainers log)
                   (listedNetworks log) (listedVolumes log)).
Proof.
  unfold DownComposeProject, FindComposeContainers, downPlan, firstEvent.
  unfold bind at 1. rewrite rec_ContainerList.
  destruct (ContainerList _ w) as [[containers [e|]] w1]; cbn [fst snd app].
  { eexists _, _, _. split; [reflexivity|].
    split; [rewrite <- ?app_assoc; reflexivity|].
    apply outcome_call_failed with (cause := e); reflexivity. }
  set (ev0 := {| call := ContainerListCall _; reply := Containers containers;
                 err := None |}).
  assert (H0 : outcome None [ev0] [call ev0]) by (apply outcome_call; reflexivity).
  (* Stop containers *)
  unfold bind at 1.
  destruct (stop_loop containers w1 [ev0]) as (res1 & w2 & evs1 & -> & H1 & D1).
  cbv beta iota. destruct res1 as [e1|].
  { eexists _, _, _. split; [reflexivity|].
    split; [rewrite <- ?app_assoc; reflexivity|]. cbn [listedContainers ev0 reply].
    apply (outcome_then [ev0] evs1 _ [_] _ H0), outcome_failed, H1. }
  (* Remove containers *)
  unfold bind at 1.
  destruct (remove_loop containers w2 ([ev0] ++ evs1))
    as (res2 & w3 & evs2 & -> & H2 & D2).
  cbv beta iota. destruct res2 as [e2|].
  { eexists _, _, _. split; [reflexivity|].
    split; [rewrite <- ?app_assoc; reflexivity|]. rewrite <- !app_assoc.
    cbn [listedContainers ev0 reply app].
    apply (outcome_then [ev0] _ _ [_] _ H0), (outcome_then _ _ _ _ _ H1),
      outcome_failed, H2. }
  (* Remove networks *)
  unfold bind at 1. rewrite rec_NetworkList.
  destruct (NetworkList _ w3) as [[networks [e3|]] w4]; cbn [fst snd].
  { eexists _, _, _. split; [reflexivity|].
    split; [rewrite <- ?app_assoc; reflexivity|]. rewrite <- !app_assoc.
    cbn [listedContainers ev0 reply app].
    apply (outcome_then [ev0] _ _ [_] _ H0), (outcome_then _ _ _ _ _ H1),
      (outcome_then _ _ _ _ _ H2).
    apply outcome_call_failed with (cause := e3); reflexivity. }
  set (evN := {| call := NetworkListCall _; reply := Networks networks;
                 err := None |}).
  assert (HN : outcome None [evN] [call evN]) by (apply outcome_call; reflexivity).
  unfold bind at 1.
  destruct (network_loop networks w4 ((([ev0] ++ evs1) ++ evs2) ++ [evN]))
    as (res4 & w5 & evs4 & -> & H4 & D4).
  cbv beta iota.
  assert (HlistN : forall rest,
             listedNetworks ([ev0] ++ evs1 ++ evs2 ++ [evN] ++ rest) = networks).
  { intros rest. cbn [app listedNetworks ev0 reply].
    rewrite !listedNetworks_skip by assumption. reflexivity. }
  destruct res4 as [e4|].
  { eexists _, _, _. split; [reflexivity|].
    split; [rewrite <- ?app_assoc; reflexivity|]. rewrite <- !app_assoc.
    rewrite HlistN. cbn [listedContainers ev0 reply app].
    apply (outcome_then [ev0] _ _ [_] _ H0), (outcome_then _ _ _ _ _ H1),
      (outcome_then _ _ _ _ _ H2), (outcome_then [evN] _ _ [_] _ HN),
      outcome_failed, H4. }
  (* Remove volumes if requested *)
  destruct removeVolumes.
  - destruct (volumes_outcome projectName w5
                (((([ev0] ++ evs1) ++ evs2) ++ [evN]) ++ evs4))
      as (res5 & w6 & evs5 & -> & H5).
    eexists _, _, _. split; [reflexivity|].
    split; [rewrite <- ?app_assoc; reflexivity|]. rewrite <- !app_assoc.
    rewrite HlistN. cbn [listedContainers ev0 reply app].
    cbn [listedVolumes ev0 evN reply].
    rewrite !listedVolumes_skip by assumption. cbn [listedVolumes evN reply].
    rewrite listedVolumes_skip by assumption.
    apply (outcome_then [ev0] _ _ [_] _ H0), (outcome_then _ _ _ _ _ H1),
      (outcome_then _ _ _ _ _ H2), (outcome_then [evN] _ _ [_] _ HN),
      (outcome_then _ _ _ _ _ H4), H5.
  - eexists _, _, _. split; [reflexivity|].
    split; [rewrite <- ?app_assoc; reflexivity|]. rewrite <- !app_assoc.
    rewrite <- (app_nil_r evs4) at 1 2 3. rewrite HlistN.
    cbn [listedContainers ev0 reply app].
    apply (outcome_then [ev0] _ _ [_] _ H0), (outcome_then _ _ _ _ _ H1),
      (outcome_then _ _ _ _ _ H2), (outcome_then [evN] _ _ [_] _ HN),
      (outcome_then _ _ _ _ _ H4), outcome_nil.
Qed.

(** C2. The calls of [DownComposeProject], whatever the client answers
    and for every project name and [removeVolumes]: the calls it makes
    are the first calls of the plan "list the containers by the project
    label, stop each one listed, remove each one listed with force, list
    the networks by the project label, remove each one listed, and with
    [removeVolumes] list the volumes by the project label and remove
    each one with force", in that order; it returns no error exactly
    when it made all of them and none failed; a call is made only after
    every call before it has returned without an error, so a phase
    begins after the phase before it is through; and without
    [removeVolumes] no call on volumes is made.  The plan is begun in
    every run: the first call is the container query by the project
    label.  And the plan is left only at a failure: when the run returns
    an error, the last call it made has failed, no call before it has,
    and the error returned is the one the program makes of that
    failure. *)
Theorem DownComposeProject_phase_order
        (projectName : string) (removeVolumes : bool) (w : W) :
  let run := DownComposeProject (client := rec) projectName removeVolumes (w, []) in
  let res := fst run in
  let log := snd (snd run) in
  let planned := downPlan projectName removeVolumes (listedContainers log)
                          (listedNetworks log) (listedVolumes log) in
  calls log `prefix_of` planned
  /\ (res = None <-> calls log = planned /\ clean log)
  /\ inOrder log
  /\ (removeVolumes = false -> Forall (fun c => isVolumeCall c = false) (calls log))
  /\ hd_error log = Some (firstEvent client projectName w)
  /\ (forall e,
        res = Some e ->
        exists done ev cause,
          log = done ++ [ev] /\ clean done /\ err ev = Some cause
          /\ reported ev cause e).
Proof.
  destruct (Down_outcome projectName removeVolumes w)
    as (res & w' & log & Hrun & Hhd & Hout).
  rewrite Hrun. cbn [fst snd].
  split; [eapply outcome_prefix; eassumption|].
  split; [eapply outcome_success; eassumption|].
  split; [eapply outcome_inOrder; eassumption|].
  split.
  { intros ->. eapply Forall_prefix; [eapply outcome_prefix; eassumption|].
    apply downPlan_no_volumes. }
  split; [exact Hhd|].
  intros e He.
  destruct Hout as [Hnone _ _ | done ev cause e' Hres Hlog Hdone Herr _ Hrep];
    [congruence|].
  assert (e' = e) as -> by congruence.
  exists done, ev, cause. auto.
Qed.

(** The error made of a failed stop or removal of a container names the
    container. *)
Lemma reported_names_container ev cause e containerID :
  reported ev cause e ->
  (exists timeout, call ev = ContainerStopCall containerID timeout)
  \/ (exists force, call ev = ContainerRemoveCall containerID force) ->
  occursIn containerID (Error e).
Proof.
  unfold reported. intros Hrep [[t Hcall]|[f Hcall]]; rewrite Hcall in Hrep;
    subst e; cbn [Error Errorf_w].
  - exists "failed to stop container ", (": " +:+ Error cause).
    rewrite !append_assoc. reflexivity.
  - exists "failed to remove container ", (": " +:+ Error cause).
    rewrite !append_assoc. reflexivity.
Qed.

(** C3. Stopping and teardown are fail-fast, whatever the client answers:
    in a run of [StopComposeProject] and in a run of
    [DownComposeProject], the calls made are the first calls of the plan
    (the containers in the order they were listed, then the later
    phases), and when a call fails no call is made after it (no stop or
    removal of a later container, no later phase), no call before it
    failed, and the run returns the error the program makes of the
    failure; for a failed stop or removal of a container that error
    holds the identifier of the container. *)
Theorem compose_fail_fast (projectName : string) (removeVolumes : bool) (w : W) :
  let stop := StopComposeProject (client := rec) projectName (w, []) in
  let down := DownComposeProject (client := rec) projectName removeVolumes (w, []) in
  let names res log :=
    forall done ev rest cause containerID,
      log = done ++ ev :: rest -> err ev = Some cause ->
      (exists timeout, call ev = ContainerStopCall containerID timeout)
      \/ (exists force, call ev = ContainerRemoveCall containerID force) ->
      exists e, res = Some e /\ occursIn containerID (Error e) in
  (calls (snd (snd stop))
     `prefix_of` stopPlan projectName (listedContainers (snd (snd stop)))
   /\ failFast (fst stop) (snd (snd stop))
   /\ names (fst stop) (snd (snd stop)))
  /\ (calls (snd (snd down))
        `prefix_of` downPlan projectName removeVolumes
                             (listedContainers (snd (snd down)))
                             (listedNetworks (snd (snd down)))
                             (listedVolumes (snd (snd down)))
      /\ failFast (fst down) (snd (snd down))
      /\ names (fst down) (snd (snd down))).
Proof.
  cbv zeta.
  destruct (Stop_outcome projectName w) as (res & w' & log & -> & _ & Hout).
  destruct (Down_outcome projectName removeVolumes w)
    as (res2 & w2 & log2 & -> & _ & Hout2).
  cbn [fst snd].
  split; (split; [eapply outcome_prefix; eassumption|]);
    (split; [eapply outcome_failFast; eassumption|]);
    intros done ev rest cause containerID Hlog Herr Hcall.
  - apply outcome_failFast in Hout.
    destruct (Hout _ _ _ _ Hlog Herr) as (_ & _ & e & He & Hrep).
    exists e. split; [exact He|]. eapply reported_names_container; eassumption.
  - apply outcome_failFast in Hout2.
    destruct (Hout2 _ _ _ _ Hlog Herr) as (_ & _ & e & He & Hrep).
    exists e. split; [exact He|]. eapply reported_names_container; eassumption.
Qed.

Lemma downPlan_cleanup projectName removeVolumes networks volumes :
  exists rest,
    downPlan projectName removeVolumes [] networks volumes
    = ContainerListCall {| All := true; LabelFilter := projectLabel projectName |}
      :: NetworkListCall {| NetworkLabelFilter := projectLabel projectName |}
      :: rest
    /\ Forall (fun c => isCleanupCall c = true) rest.
Proof.
  unfold downPlan. cbn [map app]. eexists. split; [reflexivity|].
  apply Forall_app. split.
  - apply List.Forall_map, List.Forall_forall. reflexivity.
  - destruct removeVolumes; constructor; [reflexivity|].
    apply List.Forall_map, List.Forall_forall. reflexivity.
Qed.

(** C4, as amended.  When the container query returns an empty list and
    no error: [StopComposeProject] makes no other call and returns no
    error; [DownComposeProject] goes on to list the networks, makes
    calls on networks and volumes only, returns no error exactly when
    none of its calls fails, has then made the whole plan for no
    container (the networks, and with [removeVolumes] the volumes), and
    is fail-fast, so that an error it returns is the error made of a
    failed call on a network or a volume. *)
Theorem no_containers_is_no_error
        (projectName : string) (removeVolumes : bool) (w : W) :
  fst (FindComposeContainers (client := client) projectName w) = ([], None) ->
  let options := {| All := true; LabelFilter := projectLabel projectName |} in
  let stop := StopComposeProject (client := rec) projectName (w, []) in
  let down := DownComposeProject (client := rec) projectName removeVolumes (w, []) in
  let log := snd (snd down) in
  (fst stop = None /\ calls (snd (snd stop)) = [ContainerListCall options])
  /\ (exists rest,
        calls log
        = ContainerListCall options
          :: NetworkListCall {| NetworkLabelFilter := projectLabel projectName |}
          :: rest
        /\ Forall (fun c => isCleanupCall c = true) rest)
  /\ (fst down = None <-> clean log)
  /\ (fst down = None ->
      calls log = downPlan projectName removeVolumes []
                           (listedNetworks log) (listedVolumes log))
  /\ failFast (fst down) log.
Proof.
  unfold FindComposeContainers. intros Hempty. cbv zeta.
  destruct (Stop_outcome projectName w) as (res & w' & log & -> & Hhd & Hout).
  destruct (Down_outcome projectName removeVolumes w)
    as (res2 & w2 & log2 & -> & Hhd2 & Hout2).
  cbn [fst snd]. unfold firstEvent in Hhd, Hhd2. rewrite Hempty in Hhd, Hhd2.
  cbn [fst snd] in Hhd, Hhd2.
  destruct log as [|ev0 log]; [discriminate|]. injection Hhd as ->.
  destruct log2 as [|ev0 log2]; [discriminate|]. injection Hhd2 as ->.
  cbn [listedContainers reply] in Hout, Hout2.
  split; [|split; [|split; [|split]]].
  - destruct Hout as [Hres Hcalls Hclean | done ev cause e Hres Hlog Hdone Herr Hpre Hrep].
    + auto.
    + exfalso. apply prefix_length in Hpre as Hlen. cbn in Hlen.
      destruct log; [|cbn in Hlen; lia].
      destruct done as [|? [|? ?]]; try discriminate.
      injection Hlog as <-. discriminate.
  - destruct (downPlan_cleanup projectName removeVolumes
                (listedNetworks log2) (listedVolumes log2)) as (rest & Hplan & Hrest).
    cbn [listedNetworks listedVolumes reply] in Hout2.
    rewrite Hplan in Hout2.
    destruct Hout2 as [Hres Hcalls Hclean | done ev cause e Hres Hlog Hdone Herr Hpre Hrep].
    + exists rest. auto.
    + destruct Hpre as [more Hmore]. cbn [calls map call] in Hmore.
      destruct log2 as [|ev1 log2].
      * exfalso. destruct done as [|? [|? ?]]; try discriminate.
        injection Hlog as <-. discriminate.
      * cbn [map] in Hmore. injection Hmore as Hcall1 Hmore.
        exists (map call log2). cbn [calls map call]. rewrite <- Hcall1.
        split; [reflexivity|]. rewrite Hmore in Hrest.
        apply Forall_app in Hrest. tauto.
  - apply outcome_success in Hout2 as Hiff. split; [tauto|]. intros Hclean.
    destruct Hout2 as [Hres _ _ | done ev cause e Hres Hlog Hdone Herr Hpre Hrep];
      [exact Hres|].
    exfalso. rewrite Hlog in Hclean. apply clean_app_inv in Hclean as [_ Hev].
    inversion Hev; congruence.
  - intros Hres. apply outcome_success in Hout2. apply Hout2 in Hres as [Hcalls _].
    exact Hcalls.
  - eapply outcome_failFast; eassumption.
Qed.

End ComposeFacts.

(** *** The compose operations on the scripted double *)
Section ComposeExamples.
Import Docker Recorder.

(** The test "stops and removes containers, networks, and volumes" of
    [TestDownComposeProject], with the calls in their order. *)
Example down_with_volumes :
  let client := scripted (healthy [container "web123"]
                                  [network "net123" "myproject_default"]
                                  [volume "myproject_data"]) in
  let down := DownComposeProject (client := recording client)
                                 "myproject" true (tt, []) in
  fst down = None
  /\ calls (snd (snd down))
     = [listCall "myproject";
        ContainerStopCall "web123" None;
        ContainerRemoveCall "web123" true;
        NetworkListCall {| NetworkLabelFilter := "com.docker.compose.project=myproject" |};
        NetworkRemoveCall "net123";
        VolumeListCall {| VolumeLabelFilter := "com.docker.compose.project=myproject" |};
        VolumeRemoveCall "myproject_data" true].
Proof. split; reflexivity. Qed.

(** C3 at work: the second of three stops fails, the third container is
    left alone and the error names the second. *)
Lemma second_of_three_stops_fails :
  let client := scripted secondStopFails in
  let stop := StopComposeProject (client := recording client) "myproject" (tt, []) in
  let down := DownComposeProject (client := recording client)
                                 "myproject" true (tt, []) in
  calls (snd (snd stop))
  = [listCall "myproject"; ContainerStopCall "web123" None;
     ContainerStopCall "db456" None]
  /\ calls (snd (snd down)) = calls (snd (snd stop))
  /\ (exists e, fst stop = Some e /\ occursIn "db456" (Error e))
  /\ (exists e, fst down = Some e /\ occursIn "db456" (Error e)).
Proof.
  cbv zeta. split; [reflexivity|]. split; [reflexivity|].
  destruct (compose_fail_fast (scripted secondStopFails) "myproject" true tt)
    as [(_ & _ & Hstop) (_ & _ & Hdown)].
  split.
  - refine (Hstop [_; _] _ [] (apiError "cannot stop container") "db456"
                  eq_refl eq_refl _).
    left. exists None. reflexivity.
  - refine (Hdown [_; _] _ [] (apiError "cannot stop container") "db456"
                  eq_refl eq_refl _).
    left. exists None. reflexivity.
Defined.

(** C4 as it was stated fails: no container is found, and
    [DownComposeProject] returns the error of the network query. *)
Lemma down_without_containers_fails :
  let client := scripted networksUnreachable in
  fst (FindComposeContainers (client := client) "myproject" tt) = ([], None)
  /\ fst (DownComposeProject (client := client) "myproject" false tt)
     = Some (wrapError "failed to list networks: network unreachable"
                       (apiError "network unreachable")).
Proof. split; reflexivity. Qed.

(** C4 as amended at work: a second [down], when no container is left,
    still cleans up the networks and the volumes, and succeeds. *)
Lemma second_down_succeeds :
  let client := scripted (healthy [] [network "net123" "myproject_default"]
                                  [volume "myproject_data"]) in
  let down := DownComposeProject (client := recording client)
                                 "myproject" true (tt, []) in
  fst (FindComposeContainers (client := client) "myproject" tt) = ([], None)
  /\ fst down = None
  /\ calls (snd (snd down))
     = [listCall "myproject";
        NetworkListCall {| NetworkLabelFilter := "com.docker.compose.project=myproject" |};
        NetworkRemoveCall "net123";
        VolumeListCall {| VolumeLabelFilter := "com.docker.compose.project=myproject" |};
        VolumeRemoveCall "myproject_data" true].
Proof.
  cbv zeta. split; [reflexivity|].
  destruct (no_containers_is_no_error
              (scripted (healthy [] [network "net123" "myproject_default"]
                                 [volume "myproject_data"]))
              "myproject" true tt eq_refl) as (_ & _ & Hiff & Hplan & _).
  split.
  - apply Hiff. repeat constructor.
  - apply Hplan, Hiff. repeat constructor.
Defined.
End ComposeExamples.

(** * Further properties *)

(** ** Absolute and relative paths *)
Section AbsFacts.
Import Devcontainer Filepath.

Lemma IsAbs_cons (c : ascii) (r : string) :
  IsAbs (String c r) = isSep c.
Proof.
  unfold IsAbs, Strings.HasPrefix, isSep. cbn [Strings.cutPrefix].
  rewrite Ascii.eqb_sym. destruct (Ascii.eqb c "/"); reflexivity.
Qed.

Lemma IsAbs_app (a b : string) : a <> "" -> IsAbs (a +:+ b) = IsAbs a.
Proof.
  destruct a as [|c a]; [contradiction|]. intros _.
  cbn [String.append]. rewrite !IsAbs_cons. reflexivity.
Qed.

(** What [Clean] keeps on its stack: elements that are not empty and
    hold no separator. *)
Local Abbreviation plain :=
  (fun e : string => e <> "" /\ Strings.any isSep e = false).

Lemma elements_plain (path : string) :
  Forall (fun e => Strings.any isSep e = false) (elements path).
Proof.
  induction path as [|c r IH]; cbn [elements].
  - repeat constructor.
  - destruct (isSep c) eqn:Hc; [constructor; [reflexivity | exact IH]|].
    destruct (elements r) as [|e es]; [repeat constructor; cbn; rewrite Hc; reflexivity|].
    inversion IH; subst. constructor; [cbn; rewrite Hc; assumption | assumption].
Qed.

Lemma cleanStep_plain rooted out elem :
  Strings.any isSep elem = false ->
  Forall plain out -> Forall plain (cleanStep rooted out elem).
Proof.
  intros Hsep Hout. unfold cleanStep.
  destruct (String.eqb_spec elem ""); [assumption|].
  destruct (String.eqb elem "."); [assumption|].
  assert (Hplain : plain elem) by (split; assumption).
  destruct (String.eqb elem "..").
  - destruct out as [|top rest].
    + destruct rooted; [assumption | repeat constructor; assumption].
    + destruct (String.eqb top "..").
      * destruct rooted; [assumption | constructor; assumption].
      * inversion Hout; assumption.
  - constructor; assumption.
Qed.

Lemma clean_fold_plain rooted elems out :
  Forall (fun e => Strings.any isSep e = false) elems ->
  Forall plain out -> Forall plain (fold_left (cleanStep rooted) elems out).
Proof.
  intros H. revert out. induction H as [|e elems He _ IH]; intros out Hout; cbn.
  - exact Hout.
  - apply IH, cleanStep_plain; assumption.
Qed.

Lemma Join_plain_rel (elems : list string) :
  Forall plain elems -> IsAbs (Strings.Join elems "/") = false.
Proof.
  destruct 1 as [|e elems [Hne Hsep] _]; [reflexivity|].
  destruct e as [|c e]; [contradiction|].
  cbn in Hsep. apply orb_false_iff in Hsep as [Hc _].
  destruct elems; cbn [Strings.Join String.append]; rewrite IsAbs_cons; exact Hc.
Qed.

(** [Clean] keeps a path absolute or relative, as it was. *)
Lemma IsAbs_Clean (path : string) : IsAbs (Clean path) = IsAbs path.
Proof.
  unfold Clean. destruct (String.eqb_spec path "") as [->|Hne]; [reflexivity|].
  fold (IsAbs path). destruct (IsAbs path) eqn:Habs; [reflexivity|].
  set (out := fold_left _ _ _).
  assert (Hout : Forall plain (rev out)).
  { apply Forall_rev, clean_fold_plain; [apply elements_plain | constructor]. }
  pose proof (Join_plain_rel _ Hout) as Hrel.
  destruct (String.eqb _ ""); [reflexivity | exact Hrel].
Qed.

Lemma Clean_nonempty (path : string) : Clean path <> "".
Proof.
  unfold Clean. destruct (String.eqb path ""); [discriminate|].
  destruct (Strings.HasPrefix path "/"); [discriminate|].
  match goal with
  | |- context [String.eqb ?body ""] => destruct (String.eqb_spec body "")
  end; [discriminate | assumption].
Qed.

Lemma IsAbs_upToLastSep (path : string) : IsAbs (upToLastSep path) = IsAbs path.
Proof.
  destruct path as [|c r]; [reflexivity|]. cbn [upToLastSep].
  rewrite IsAbs_cons. destruct (Strings.any isSep (String c r)) eqn:Hany.
  - apply IsAbs_cons.
  - cbn in Hany. apply orb_false_iff in Hany as [-> _]. reflexivity.
Qed.

Lemma IsAbs_Dir (path : string) : IsAbs (Dir path) = IsAbs path.
Proof. unfold Dir. rewrite IsAbs_Clean. apply IsAbs_upToLastSep. Qed.

Lemma IsAbs_Join2 (dir f : string) :
  dir <> "" -> IsAbs (Filepath.Join [dir; f]) = IsAbs dir.
Proof.
  intros Hne. cbn [Filepath.Join].
  destruct (String.eqb_spec dir ""); [contradiction|].
  rewrite IsAbs_Clean.
  change (Strings.Join [dir; f] "/") with (dir +:+ "/" +:+ f).
  apply IsAbs_app, Hne.
Qed.

Lemma IsAbs_Join3 (dir a b : string) :
  dir <> "" -> IsAbs (Filepath.Join [dir; a; b]) = IsAbs dir.
Proof.
  intros Hne. cbn [Filepath.Join].
  destruct (String.eqb_spec dir ""); [contradiction|].
  rewrite IsAbs_Clean.
  change (Strings.Join [dir; a; b] "/") with (dir +:+ "/" +:+ a +:+ "/" +:+ b).
  apply IsAbs_app, Hne.
Qed.

Lemma IsAbs_resolveComposeFile (configPath f : string) :
  IsAbs (resolveComposeFile (Dir configPath) f) = IsAbs f || IsAbs configPath.
Proof.
  unfold resolveComposeFile. destruct (IsAbs f) eqn:Hf; [exact Hf|].
  rewrite IsAbs_Clean, IsAbs_Join2 by apply Clean_nonempty.
  apply IsAbs_Dir.
Qed.

(** X15. [GetComposeFiles] returns a file as an absolute path exactly
    when the file was written absolute or the path of the definition is
    absolute.  So with an absolute [ConfigPath] every file returned is
    absolute, and with a relative [ConfigPath] a relative file stays
    relative. *)
Theorem GetComposeFiles_absolute (c : Config) :
  Forall2 (fun f file => IsAbs file = IsAbs f || IsAbs (ConfigPath c))
          (DockerComposeFile c) (GetComposeFiles c)
  /\ (IsAbs (ConfigPath c) = true ->
      Forall (fun file => IsAbs file = true) (GetComposeFiles c))
  /\ (IsAbs (ConfigPath c) = false ->
      Forall2 (fun f file => IsAbs file = IsAbs f)
              (DockerComposeFile c) (GetComposeFiles c)).
Proof.
  rewrite GetComposeFiles_map.
  assert (Hall : Forall2 (fun f file => IsAbs file = IsAbs f || IsAbs (ConfigPath c))
                         (DockerComposeFile c)
                         (map (resolveComposeFile (Dir (ConfigPath c)))
                              (DockerComposeFile c))).
  { induction (DockerComposeFile c) as [|f l IH]; cbn [map]; constructor;
      [apply IsAbs_resolveComposeFile | exact IH]. }
  split; [exact Hall|]. split; intros Habs; rewrite Habs in Hall.
  - apply Forall2_Forall_r with (1 := Hall). apply List.Forall_forall.
    intros f _ file ->. apply orb_true_r.
  - eapply Forall2_impl; [exact Hall|]. cbv beta. intros f file ->.
    apply orb_false_r.
Qed.

End AbsFacts.

(** ** The definition files that are found, and how parsing fails *)
Section FinderParserFacts.
Import Json Devcontainer.
Context {fs : FileSystem}.

(** Whether [os.Stat] returns no error. *)
Local Abbreviation present :=
  (fun path : string => match Stat path with
                        | None => true
                        | Some _ => false
                        end).

Lemma subConfigs_filter (devcontainerDir : string) (entries : list DirEntry) :
  forall configs,
    subConfigs devcontainerDir entries configs
    = configs
      ++ List.filter present
           (map (fun entry =>
                   Filepath.Join [devcontainerDir; Name entry; "devcontainer.json"])
                (List.filter IsDir entries)).
Proof.
  induction entries as [|entry rest IH]; intros configs; cbn [subConfigs List.filter map].
  - rewrite app_nil_r. reflexivity.
  - destruct (IsDir entry); cbn [negb map List.filter]; [|apply IH].
    destruct (Stat _); rewrite IH; [reflexivity|].
    rewrite <- app_assoc. reflexivity.
Qed.

(** X13. [FindDevcontainerConfigs], when the directory and its
    [.devcontainer] exist: the result is the main definition file followed
    by the definition file of every sub-directory, in the order of the
    directory listing, each of them kept only when it exists.  When the
    listing fails the wrapped error is returned with no file at all.
    Every path returned exists, and is absolute when the directory is. *)
Theorem FindDevcontainerConfigs_lists (dir : string) :
  let devcontainerDir := Filepath.Join [dir; ".devcontainer"] in
  let mainConfig := Filepath.Join [devcontainerDir; "devcontainer.json"] in
  let subConfig entry :=
    Filepath.Join [devcontainerDir; Name entry; "devcontainer.json"] in
  (forall entries,
      IsNotExist (Stat dir) = false ->
      IsNotExist (Stat devcontainerDir) = false ->
      ReadDir devcontainerDir = Ok entries ->
      FindDevcontainerConfigs dir
      = (List.filter present
           (mainConfig :: map subConfig (List.filter IsDir entries)), None))
  /\ (forall err,
        IsNotExist (Stat dir) = false ->
        IsNotExist (Stat devcontainerDir) = false ->
        ReadDir devcontainerDir = Err err ->
        FindDevcontainerConfigs dir
        = ([], Some (Errorf_w "failed to read .devcontainer directory: " err)))
  /\ Forall (fun path => Stat path = None) (fst (FindDevcontainerConfigs dir))
  /\ (Filepath.IsAbs dir = true ->
      Forall (fun path => Filepath.IsAbs path = true)
             (fst (FindDevcontainerConfigs dir))).
Proof.
  cbv zeta.
  assert (Hfirst : forall entries,
    IsNotExist (Stat dir) = false ->
    IsNotExist (Stat (Filepath.Join [dir; ".devcontainer"])) = false ->
    ReadDir (Filepath.Join [dir; ".devcontainer"]) = Ok entries ->
    FindDevcontainerConfigs dir
    = (List.filter present
         (Filepath.Join [Filepath.Join [dir; ".devcontainer"]; "devcontainer.json"]
          :: map (fun entry =>
                    Filepath.Join [Filepath.Join [dir; ".devcontainer"];
                                   Name entry; "devcontainer.json"])
                 (List.filter IsDir entries)), None)).
  { intros entries Hroot Hdir Hread. unfold FindDevcontainerConfigs.
    rewrite Hroot, Hdir, Hread, subConfigs_filter. cbn [List.filter].
    destruct (Stat (Filepath.Join [_; "devcontainer.json"])); reflexivity. }
  split; [exact Hfirst|]. split; [|split].
  - intros err Hroot Hdir Hread. unfold FindDevcontainerConfigs.
    rewrite Hroot, Hdir, Hread. reflexivity.
  - destruct (IsNotExist (Stat dir)) eqn:Hroot;
      [unfold FindDevcontainerConfigs; rewrite Hroot; constructor|].
    destruct (IsNotExist (Stat (Filepath.Join [dir; ".devcontainer"]))) eqn:Hdir;
      [unfold FindDevcontainerConfigs; rewrite Hroot, Hdir; constructor|].
    destruct (ReadDir (Filepath.Join [dir; ".devcontainer"])) as [entries|err] eqn:Hread.
    + rewrite (Hfirst entries eq_refl eq_refl eq_refl). cbn [fst].
      apply List.Forall_forall. intros path Hin.
      apply List.filter_In in Hin as [_ Hpresent].
      destruct (Stat path); [discriminate | reflexivity].
    + unfold FindDevcontainerConfigs. rewrite Hroot, Hdir, Hread. constructor.
  - intros Habs.
    assert (Hne : dir <> "") by (intros ->; discriminate).
    assert (Hdc : Filepath.IsAbs (Filepath.Join [dir; ".devcontainer"]) = true).
    { rewrite IsAbs_Join2 by exact Hne. exact Habs. }
    assert (Hdcne : Filepath.Join [dir; ".devcontainer"] <> "").
    { intros E. rewrite E in Hdc. discriminate. }
    destruct (IsNotExist (Stat dir)) eqn:Hroot;
      [unfold FindDevcontainerConfigs; rewrite Hroot; constructor|].
    destruct (IsNotExist (Stat (Filepath.Join [dir; ".devcontainer"]))) eqn:Hdir;
      [unfold FindDevcontainerConfigs; rewrite Hroot, Hdir; constructor|].
    destruct (ReadDir (Filepath.Join [dir; ".devcontainer"])) as [entries|err] eqn:Hread.
    + rewrite (Hfirst entries eq_refl eq_refl eq_refl). cbn [fst].
      apply List.Forall_forall. intros path Hin.
      apply List.filter_In in Hin as [[<-|Hin] _].
      * rewrite IsAbs_Join2 by exact Hdcne. exact Hdc.
      * apply List.in_map_iff in Hin as (entry & <- & _).
        rewrite IsAbs_Join3 by exact Hdcne. exact Hdc.
    + unfold FindDevcontainerConfigs. rewrite Hroot, Hdir, Hread. constructor.
Qed.

End FinderParserFacts.

(** ** The selection of a definition *)
Section UiFacts.
Import Devcontainer Os Ui.
Context {term : Terminal}.
Variable DeriveProjectNameFromConfig : Config -> string.

Local Abbreviation name := DeriveProjectNameFromConfig.
Local Abbreviation names := (map DeriveProjectNameFromConfig).
Local Abbreviation marked seen k := (default false (seen !! k) = true).
Local Abbreviation dedup := (deduplicateConfigs DeriveProjectNameFromConfig).

Lemma marked_insert (seen : gmap string bool) (k k' : string) :
  marked (<[k := true]> seen) k' <-> k' = k \/ marked seen k'.
Proof.
  destruct (decide (k = k')) as [->|Hne].
  - rewrite lookup_insert_eq. cbn. tauto.
  - rewrite lookup_insert_ne by exact Hne. split; [tauto|].
    intros [->|H]; [contradiction | exact H].
Qed.

Lemma deduplicateLoop_spec (configs : list Config) :
  forall (seen : gmap string bool) (result : list Config),
  exists kept,
    deduplicateLoop name configs seen result = result ++ kept
    /\ sublist kept configs
    /\ NoDup (names kept)
    /\ (forall k, In k (names kept) <-> In k (names configs) /\ ~ marked seen k)
    /\ (forall cfg, In cfg kept ->
          exists pre post,
            configs = pre ++ cfg :: post /\ ~ In (name cfg) (names pre)).
Proof.
  induction configs as [|cfg rest IH]; intros seen result.
  - exists []. cbn. rewrite app_nil_r. repeat split; try tauto; constructor.
  - cbn [deduplicateLoop].
    destruct (default false (seen !! name cfg)) eqn:Hseen; cbn [negb].
    + destruct (IH seen result) as (kept & -> & Hsub & Hnodup & Hin & Hfirst).
      exists kept. split; [reflexivity|].
      split; [apply sublist_cons, Hsub|]. split; [exact Hnodup|]. split.
      * intros k. rewrite Hin. cbn [map In]. split; [tauto|].
        intros [[<-|H] Hk]; [contradiction | tauto].
      * intros c Hc. destruct (Hfirst c Hc) as (pre & post & -> & Hpre).
        exists (cfg :: pre), post. split; [reflexivity|].
        cbn [map In]. intros [Heq|H]; [|contradiction].
        assert (Hk : In (name c) (names kept)) by (apply in_map, Hc).
        apply Hin in Hk as [_ Hk]. apply Hk. rewrite <- Heq. exact Hseen.
    + destruct (IH (<[name cfg := true]> seen) (result ++ [cfg]))
        as (kept & -> & Hsub & Hnodup & Hin & Hfirst).
      exists (cfg :: kept). split; [rewrite <- app_assoc; reflexivity|].
      split; [apply sublist_skip, Hsub|].
      assert (Hfresh : ~ In (name cfg) (names kept)).
      { intros H. apply Hin in H as [_ H]. apply H, marked_insert. auto. }
      split; [cbn [map]; apply NoDup_cons; split;
              [rewrite list_elem_of_In; exact Hfresh | exact Hnodup]|].
      split.
      * intros k. cbn [map In]. rewrite Hin, marked_insert.
        split.
        -- intros [<-|[H Hk]]; [split; [auto | congruence] | tauto].
        -- intros [[<-|H] Hk]; [auto|].
           destruct (decide (k = name cfg)) as [->|Hne]; [auto|].
           right. split; [exact H | tauto].
      * intros c [<-|Hc].
        -- exists [], rest. split; [reflexivity | intros []].
        -- destruct (Hfirst c Hc) as (pre & post & -> & Hpre).
           exists (cfg :: pre), post. split; [reflexivity|].
           cbn [map In]. intros [Heq|H]; [|contradiction].
           apply Hfresh. rewrite Heq. apply in_map, Hc.
Qed.

Lemma deduplicateLoop_distinct (configs : list Config) :
  forall (seen : gmap string bool) (result : list Config),
    NoDup (names configs) ->
    (forall k, In k (names configs) -> ~ marked seen k) ->
    deduplicateLoop name configs seen result = result ++ configs.
Proof.
  induction configs as [|cfg rest IH]; intros seen result Hnodup Hfresh.
  - cbn. rewrite app_nil_r. reflexivity.
  - cbn [deduplicateLoop].
    cbn [map] in Hnodup. apply NoDup_cons in Hnodup as [Hhead Hnodup].
    rewrite list_elem_of_In in Hhead.
    destruct (default false (seen !! name cfg)) eqn:Hseen; cbn [negb].
    + exfalso. apply (Hfresh (name cfg)); [left; reflexivity | exact Hseen].
    + rewrite IH, <- app_assoc; [reflexivity | exact Hnodup|].
      intros k Hk Hmarked. apply marked_insert in Hmarked as [->|Hmarked].
      * contradiction.
      * apply (Hfresh k); [right; exact Hk | exact Hmarked].
Qed.

Lemma nothing_marked (k : string) : ~ marked (∅ : gmap string bool) k.
Proof. rewrite lookup_empty. discriminate. Qed.

(** What [deduplicateConfigs] returns, whatever the length of the list. *)
Lemma deduplicateConfigs_spec (configs : list Config) :
  sublist (dedup configs) configs
  /\ NoDup (names (dedup configs))
  /\ (forall k, In k (names (dedup configs)) <-> In k (names configs))
  /\ (forall cfg, In cfg (dedup configs) ->
        exists pre post,
          configs = pre ++ cfg :: post /\ ~ In (name cfg) (names pre)).
Proof.
  unfold deduplicateConfigs. destruct (Nat.leb_spec (length configs) 1) as [Hlen|Hlen].
  - split; [reflexivity|]. split.
    { destruct configs as [|c [|c' rest]]; cbn in Hlen; try lia; cbn.
      - constructor.
      - apply NoDup_singleton. }
    split; [tauto|].
    intros cfg Hin. destruct configs as [|c [|c' rest]]; cbn in Hlen; try lia.
    + destruct Hin.
    + destruct Hin as [<-|[]]. exists [], []. split; [reflexivity | intros []].
  - destruct (deduplicateLoop_spec configs ∅ [])
      as (kept & -> & Hsub & Hnodup & Hin & Hfirst).
    cbn [app]. split; [exact Hsub|]. split; [exact Hnodup|].
    split; [|exact Hfirst].
    intros k. rewrite Hin. pose proof (nothing_marked k). tauto.
Qed.

Lemma deduplicateConfigs_head (configs : list Config) :
  hd_error (dedup configs) = hd_error configs.
Proof.
  unfold deduplicateConfigs. destruct (length configs <=? 1)%nat; [reflexivity|].
  destruct configs as [|cfg rest]; [reflexivity|].
  cbn [deduplicateLoop]. rewrite lookup_empty. cbn [default negb app].
  destruct (deduplicateLoop_spec rest (<[name cfg := true]> ∅) [cfg])
    as (kept & -> & _).
  reflexivity.
Qed.

(** X1. [deduplicateConfigs] keeps, in their order, the first
    configuration of each project name and nothing else: the result is a
    sublist of the input, its names are pairwise distinct and are the
    names of the input, no configuration before a kept one has its name,
    and the first configuration of the input is the first of the
    result. *)
Theorem deduplicateConfigs_keeps_first (configs : list Config) :
  sublist (dedup configs) configs
  /\ NoDup (names (dedup configs))
  /\ (forall k, In k (names (dedup configs)) <-> In k (names configs))
  /\ (forall cfg, In cfg (dedup configs) ->
        exists pre post,
          configs = pre ++ cfg :: post /\ ~ In (name cfg) (names pre))
  /\ hd_error (dedup configs) = hd_error configs.
Proof.
  destruct (deduplicateConfigs_spec configs) as (H1 & H2 & H3 & H4).
  pose proof (deduplicateConfigs_head configs). auto.
Qed.

(** X2. [deduplicateConfigs] is idempotent, returns a list whose names
    are pairwise distinct as it is, and never returns more configurations
    than it was given. *)
Theorem deduplicateConfigs_idempotent (configs : list Config) :
  dedup (dedup configs) = dedup configs
  /\ (NoDup (names configs) -> dedup configs = configs)
  /\ length (dedup configs) <= length configs.
Proof.
  assert (Hdistinct : forall l, NoDup (names l) -> dedup l = l).
  { intros l Hnodup. unfold deduplicateConfigs.
    destruct (length l <=? 1)%nat; [reflexivity|].
    apply (deduplicateLoop_distinct l ∅ [] Hnodup).
    intros k _. apply nothing_marked. }
  destruct (deduplicateConfigs_spec configs) as (Hsub & Hnodup & _).
  split; [apply Hdistinct, Hnodup|]. split; [apply Hdistinct|].
  apply sublist_length, Hsub.
Qed.

(** The text of the item that is shown for a configuration. *)
Local Abbreviation item :=
  (fun cfg : Config =>
     name cfg +:+ " (" +:+ (if IsComposeBased cfg then "compose" else "image")
     +:+ ")").

Lemma itemsFrom_spec (uniqueConfigs : list Config) :
  forall (written rest : list string),
    length rest = length uniqueConfigs ->
    itemsFrom name (length written) uniqueConfigs (written ++ rest)
    = written ++ map item uniqueConfigs.
Proof.
  induction uniqueConfigs as [|cfg l IH]; intros written rest Hlen.
  - destruct rest; [reflexivity | discriminate].
  - destruct rest as [|r rest]; [discriminate|]. cbn [itemsFrom map].
    set (text := name cfg +:+ _).
    rewrite insert_app_r_alt by lia. rewrite Nat.sub_diag. cbn [insert list_insert].
    replace (S (length written)) with (length (written ++ [text]))
      by (rewrite length_app; cbn; lia).
    change (written ++ text :: rest) with (written ++ [text] ++ rest).
    rewrite app_assoc, IH by (cbn in Hlen; lia).
    rewrite <- app_assoc. reflexivity.
Qed.

Lemma index_In {A} (l : list A) (i : Z) (a : A) :
  index l i = Returns a -> In a l.
Proof.
  unfold index. destruct (i <? 0)%Z; [discriminate|].
  destruct (nth_error l (Z.to_nat i)) eqn:Hnth; [|discriminate].
  intros [= <-]. eapply nth_error_In, Hnth.
Qed.

Lemma index_panics {A} (l : list A) (i : Z) (p : panic) :
  index l i = Panics p ->
  (i < 0 \/ Z.of_nat (length l) <= i)%Z /\ p = IndexOutOfRange i (length l).
Proof.
  unfold index. destruct (Z.ltb_spec i 0); [intros [= <-]; auto|].
  destruct (nth_error l (Z.to_nat i)) eqn:Hnth; [discriminate|].
  intros [= <-]. split; [|reflexivity]. right.
  apply nth_error_None in Hnth. lia.
Qed.

(** [SelectConfig] with its items written out. *)
Lemma SelectConfig_prompt (configs : list Config) :
  SelectConfig name configs
  = if (length configs =? 0)%nat then
      Returns (Err (errorString "no configs to select from"))
    else if (length (dedup configs) =? 1)%nat then
      match index (dedup configs) 0 with
      | Returns cfg => Returns (Ok cfg)
      | Panics p => Panics p
      end
    else
      let '(idx, _, err) :=
        SelectRun {| Label := "Select devcontainer";
                     Items := map item (dedup configs); Size := 10 |} in
      match err with
      | Some e => Returns (Err (Errorf_w "selection cancelled: " e))
      | None =>
          match index (dedup configs) idx with
          | Returns cfg => Returns (Ok cfg)
          | Panics p => Panics p
          end
      end.
Proof.
  unfold SelectConfig.
  pose proof (itemsFrom_spec (dedup configs) [] _
                (length_replicate (length (dedup configs)) "")) as Hitems.
  cbn [length app] in Hitems. rewrite Hitems. reflexivity.
Qed.

Lemma SelectConfig_member (configs : list Config) (cfg : Config) :
  SelectConfig name configs = Returns (Ok cfg) -> In cfg (dedup configs).
Proof.
  rewrite SelectConfig_prompt.
  destruct (length configs =? 0)%nat; [discriminate|].
  destruct (length (dedup configs) =? 1)%nat.
  - destruct (index _ 0) eqn:Hidx; [|discriminate].
    intros [= <-]. eapply index_In, Hidx.
  - destruct (SelectRun _) as [[idx chosen] [e|]]; [discriminate|].
    destruct (index _ idx) eqn:Hidx; [|discriminate].
    intros [= <-]. eapply index_In, Hidx.
Qed.

(** X3. [SelectConfig]: an empty list is an error.  When all the
    configurations have one project name the first is returned and the
    user is not asked.  With two names or more the user is asked with one
    item for each name; a prompt that fails is the error of a cancelled
    selection.  A configuration that is returned is one of those given,
    and the first of them with its name.  The function panics only when
    the prompt answers with an index outside the items it offered. *)
Theorem SelectConfig_outcomes (configs : list Config) :
  let unique := dedup configs in
  let prompt := {| Label := "Select devcontainer"; Items := map item unique;
                   Size := 10 |} in
  (configs = [] ->
   SelectConfig name configs
   = Returns (Err (errorString "no configs to select from")))
  /\ (forall first,
        hd_error configs = Some first ->
        (forall cfg, In cfg configs -> name cfg = name first) ->
        SelectConfig name configs = Returns (Ok first))
  /\ (2 <= length unique ->
      SelectConfig name configs
      = match SelectRun prompt with
        | (idx, _, Some e) => Returns (Err (Errorf_w "selection cancelled: " e))
        | (idx, _, None) =>
            match index unique idx with
            | Returns cfg => Returns (Ok cfg)
            | Panics p => Panics p
            end
        end)
  /\ (forall cfg,
        SelectConfig name configs = Returns (Ok cfg) ->
        In cfg configs
        /\ exists pre post,
             configs = pre ++ cfg :: post /\ ~ In (name cfg) (names pre))
  /\ (forall p,
        SelectConfig name configs = Panics p ->
        exists idx chosen,
          SelectRun prompt = (idx, chosen, None)
          /\ (idx < 0 \/ Z.of_nat (length unique) <= idx)%Z
          /\ p = IndexOutOfRange idx (length unique)).
Proof.
  cbv zeta.
  destruct (deduplicateConfigs_spec configs) as (Hsub & Hnodup & Hnames & Hfirst).
  pose proof (deduplicateConfigs_head configs) as Hhead.
  split; [intros ->; reflexivity|]. split; [|split; [|split]].
  - intros first Hhd Hsame. rewrite SelectConfig_prompt.
    destruct configs as [|c rest]; [discriminate|]. injection Hhd as ->.
    cbn [length Nat.eqb].
    destruct (dedup (first :: rest)) as [|u [|u' unique]] eqn:Hunique.
    + discriminate.
    + injection Hhead as ->. reflexivity.
    + exfalso. cbn [map] in Hnodup.
      apply NoDup_cons in Hnodup as [Hnotin _]. apply Hnotin.
      assert (Hu : name u = name first).
      { apply Hsame. rewrite <- list_elem_of_In.
        eapply elem_of_sublist; [|exact Hsub]. left. }
      assert (Hu' : name u' = name first).
      { apply Hsame. rewrite <- list_elem_of_In.
        eapply elem_of_sublist; [|exact Hsub]. right. left. }
      rewrite Hu, <- Hu'. left.
  - intros Hlen. rewrite SelectConfig_prompt.
    destruct configs as [|c rest]; [cbn in Hlen; lia|]. cbn [length Nat.eqb].
    destruct (Nat.eqb_spec (length (dedup (c :: rest))) 1) as [H1|_]; [lia|].
    destruct (SelectRun _) as [[idx chosen] [e|]]; reflexivity.
  - intros cfg Hsel. apply SelectConfig_member in Hsel. split; [|apply Hfirst, Hsel].
    rewrite <- list_elem_of_In. eapply elem_of_sublist; [|exact Hsub].
    rewrite list_elem_of_In. exact Hsel.
  - intros p. rewrite SelectConfig_prompt.
    destruct (length configs =? 0)%nat; [discriminate|].
    destruct (Nat.eqb_spec (length (dedup configs)) 1) as [H1|_].
    + destruct (dedup configs) as [|u [|u' unique]]; try discriminate.
    + destruct (SelectRun _) as [[idx chosen] [e|]]; [discriminate|].
      destruct (index _ idx) eqn:Hidx; [discriminate|].
      intros [= <-]. apply index_panics in Hidx as [Hrange ->]. eauto.
Qed.

End UiFacts.

(** ** The command *)
Section FrameFacts.
Import Docker Recorder.
Context {W : Type} (client : ComposeClient W).

Local Abbreviation rec := (recording client).

Lemma framed_ret {A} (a : A) : framed (W := W) (ret a).
Proof. intros w log. cbn. rewrite app_nil_r. reflexivity. Qed.

Lemma framed_bind {A B} (m : M (W * list Event) A) (k : A -> M (W * list Event) B) :
  framed m -> (forall a, framed (k a)) -> framed (bind m k).
Proof.
  intros Hm Hk w log. unfold bind. rewrite (Hm w log).
  destruct (m (w, [])) as [a [w1 l1]]. cbn [fst snd].
  rewrite (Hk a w1 (log ++ l1)), (Hk a w1 l1).
  destruct (k a (w1, [])) as [b [w2 l2]]. cbn [fst snd].
  rewrite app_assoc. reflexivity.
Qed.

Lemma framed_record {A} (m : M W A) (ev : A -> Event) : framed (record m ev).
Proof. intros w log. unfold record. destruct (m w) as [a w']. reflexivity. Qed.

Lemma framed_forRange {A} (body : A -> M (W * list Event) (option error)) (l : list A) :
  (forall x, framed (body x)) -> framed (forRange body l).
Proof.
  intros Hbody. induction l as [|x l IH]; cbn [forRange].
  - apply framed_ret.
  - apply framed_bind; [apply Hbody|]. intros [e|]; [apply framed_ret | exact IH].
Qed.

Ltac frame :=
  repeat first
    [ apply framed_ret
    | apply framed_record
    | apply framed_forRange; intros ?
    | apply framed_bind; [|intros ?]
    | match goal with
      | x : (_ * _)%type |- _ => destruct x
      | x : option _ |- _ => destruct x
      | x : bool |- _ => destruct x
      end ].

Lemma StopComposeProject_framed (projectName : string) :
  framed (StopComposeProject (client := rec) projectName).
Proof. unfold StopComposeProject, FindComposeContainers. frame. Qed.

Lemma removeProjectVolumes_framed (projectName : string) :
  framed (removeProjectVolumes (client := rec) projectName).
Proof. unfold removeProjectVolumes. frame. Qed.

Lemma DownComposeProject_framed (projectName : string) (removeVolumes : bool) :
  framed (DownComposeProject (client := rec) projectName removeVolumes).
Proof.
  unfold DownComposeProject, FindComposeContainers.
  pose proof (removeProjectVolumes_framed projectName).
  frame; assumption.
Qed.

End FrameFacts.

Section HandlerFacts.
Import Devcontainer Docker Os Ui Root Recorder.
Context {W : Type} (client : ComposeClient W).
Variable flags : Flags.
Variable DeriveProjectNameFromConfig : Config -> string.

Local Abbreviation rec := (recording client).
Local Abbreviation World := (W * list Event * Console)%type.

Lemma lift_run {A} (m : M (W * list Event) A) (w : W) (log : list Event)
      (console : Console) :
  lift m ((w, log), console)
  = (Returns (fst (m (w, log))), (snd (m (w, log)), console)).
Proof. unfold lift. destruct (m (w, log)). reflexivity. Qed.

Lemma printContainer_run (c : ContainerInfo) (s : World) :
  exists line,
    printContainer c s
    = if shortID c
      then (Panics (SliceBoundsOutOfRange 12 (String.length (ID c))), s)
      else (Returns tt,
            (fst s, {| stdout := stdout (snd s) +:+ line; stderr := stderr (snd s) |})).
Proof.
  destruct s as [wl console].
  unfold printContainer, bindP, eval, ret, slicePrefix, shortID.
  destruct (Nat.leb_spec 12 (String.length (ID c))) as [Hlen|Hlen];
    destruct (Nat.ltb_spec (String.length (ID c)) 12); try lia.
  - eexists. reflexivity.
  - exists "". reflexivity.
Qed.

(** Printing the lines of the containers leaves the client alone; it
    panics at the first container with a short identifier. *)
Lemma printContainers_run (containers : list ContainerInfo) (s : World) :
  exists out,
    forEach printContainer containers s
    = (match find shortID containers with
       | Some c => Panics (SliceBoundsOutOfRange 12 (String.length (ID c)))
       | None => Returns tt
       end,
       (fst s, {| stdout := stdout (snd s) +:+ out; stderr := stderr (snd s) |})).
Proof.
  revert s. induction containers as [|c l IH]; intros [wl [out0 err0]].
  - exists "". cbn. rewrite append_nil_r. reflexivity.
  - cbn [forEach find]. unfold bindP at 1.
    destruct (printContainer_run c (wl, {| stdout := out0; stderr := err0 |}))
      as [line ->].
    destruct (shortID c).
    + exists "". cbn. rewrite append_nil_r. reflexivity.
    + cbn [fst snd stdout stderr].
      match goal with
      | |- context [forEach printContainer l ?s] => destruct (IH s) as [out ->]
      end.
      cbn [fst snd stdout stderr].
      eexists. rewrite append_assoc. reflexivity.
Qed.

(** X4. [StopContainers] and [RemoveContainers] take the containers in
    order and give up at the first failure.  Either every container was
    asked for, each once (a removal always forced), and the result is
    nil; or the calls end with the first container that failed, no later
    container is touched, and the error names that container and wraps
    the cause. *)
Theorem ContainerOps_fail_fast (containers : list ContainerInfo) (w : W) :
  let stop := StopContainers (client := containerClient (ComposeClient := rec))
                             containers (w, []) in
  let remove := RemoveContainers (client := containerClient (ComposeClient := rec))
                                 containers (w, []) in
  let stopped c e := {| call := ContainerStopCall (ID c) None; reply := Done;
                        err := e |} in
  let removed c e := {| call := ContainerRemoveCall (ID c) true; reply := Done;
                        err := e |} in
  ((fst stop = None
    /\ snd (snd stop) = map (fun c => stopped c None) containers)
   \/ (exists pre c post cause,
         containers = pre ++ c :: post
         /\ snd (snd stop)
            = map (fun c => stopped c None) pre ++ [stopped c (Some cause)]
         /\ fst stop
            = Some (Errorf_w ("failed to stop container " +:+ ID c +:+ ": ")
                             cause)))
  /\ ((fst remove = None
       /\ snd (snd remove) = map (fun c => removed c None) containers)
      \/ (exists pre c post cause,
            containers = pre ++ c :: post
            /\ snd (snd remove)
               = map (fun c => removed c None) pre ++ [removed c (Some cause)]
            /\ fst remove
               = Some (Errorf_w ("failed to remove container " +:+ ID c +:+ ": ")
                                cause))).
Proof.
  cbv zeta. split.
  - destruct (forRange_recorded (fun c => ContainerStop (ID c) None)
                (fun c => ContainerStopCall (ID c) None)
                "failed to stop container" ID containers w [])
      as (res & w' & evs & Hrun & Hevs).
    unfold StopContainers.
    change (forRange _ containers (w, [])) with
      (forRange (fun x => e <- record (ContainerStop (ID x) None)
                                 (fun e => {| call := ContainerStopCall (ID x) None;
                                              reply := Done; err := e |}) ;;
                          ret (orErrorf "failed to stop container" (ID x) e))
                containers (w, [])).
    rewrite Hrun. cbn [fst snd app].
    destruct Hevs as [[-> ->]|(pre & c & post & cause & -> & -> & ->)];
      [left; auto|].
    right. exists pre, c, post, cause. repeat split; reflexivity.
  - destruct (forRange_recorded (fun c => ContainerRemove (ID c) true)
                (fun c => ContainerRemoveCall (ID c) true)
                "failed to remove container" ID containers w [])
      as (res & w' & evs & Hrun & Hevs).
    unfold RemoveContainers.
    change (forRange _ containers (w, [])) with
      (forRange (fun x => e <- record (ContainerRemove (ID x) true)
                                 (fun e => {| call := ContainerRemoveCall (ID x) true;
                                              reply := Done; err := e |}) ;;
                          ret (orErrorf "failed to remove container" (ID x) e))
                containers (w, [])).
    rewrite Hrun. cbn [fst snd app].
    destruct Hevs as [[-> ->]|(pre & c & post & cause & -> & -> & ->)];
      [left; auto|].
    right. exists pre, c, post, cause. repeat split; reflexivity.
Qed.

Lemma handleImage_run (cfg : Config) (w : W) (console : Console) :
  let options := {| All := true;
                    LabelFilter := "devcontainer.config_file=" +:+ ConfigPath cfg |} in
  let found := ContainerList options w in
  let containers := fst (fst found) in
  let ev0 := {| call := ContainerListCall options; reply := Containers containers;
                err := snd (fst found) |} in
  exists r w' evs console',
    handleImage flags (client := rec) cfg ((w, []), console)
    = (r, ((w', ev0 :: evs), console'))
    /\ stderr console' = stderr console
    /\ match snd (fst found) with
       | Some e =>
           r = Returns (Some (Errorf_w "failed to find containers: " e))
           /\ evs = [] /\ console' = console
       | None =>
           match find shortID containers with
           | Some c =>
               r = Panics (SliceBoundsOutOfRange 12 (String.length (ID c)))
               /\ evs = []
           | None =>
               exists res,
                 r = Returns res
                 /\ outcome res evs
                      (map (fun c => ContainerStopCall (ID c) None) containers
                       ++ (if downFlag flags
                           then map (fun c => ContainerRemoveCall (ID c) true) containers
                           else []))
                 /\ (containers = [] ->
                     console'
                     = {| stdout := stdout console
                                    +:+ "No running containers found for this devcontainer"
                                    +:+ nl;
                          stderr := stderr console |})
           end
       end.
Proof.
  cbv zeta. unfold handleImage, FindDevcontainersByConfigPath.
  unfold bindP at 1. rewrite lift_run, rec_ContainerList. cbn [fst snd app].
  destruct (ContainerList _ w) as [[containers [e|]] w1]; cbn [fst snd].
  { eexists _, _, _, _. split; [reflexivity|]. split; [reflexivity|]. auto. }
  set (ev0 := {| call := ContainerListCall _; reply := Containers containers;
                 err := None |}).
  destruct containers as [|c l].
  { cbn [length Nat.eqb find map app]. eexists _, _, _, _. split; [reflexivity|]. split; [reflexivity|].
    exists None. split; [reflexivity|]. split; [|reflexivity].
    destruct (downFlag flags); apply outcome_nil. }
  set (containers := c :: l) in *.
  change (length containers =? 0)%nat with false. cbv iota.
  unfold bindP at 1, Print at 1. cbv beta iota.
  unfold bindP at 1.
  match goal with
  | |- context [forEach printContainer containers ?s] =>
      destruct (printContainers_run containers s) as [out ->]
  end.
  cbn [fst snd stdout stderr].
  destruct (find shortID containers) as [short|].
  { eexists _, _, _, _. split; [reflexivity|]. split; [reflexivity|]. auto. }
  unfold bindP at 1. rewrite lift_run.
  destruct (stop_loop client containers w1 [ev0]) as (res1 & w2 & evs1 & Hrun1 & H1 & _).
  unfold StopContainers. rewrite Hrun1. cbn [fst snd].
  destruct res1 as [e1|].
  { eexists _, _, _, _. split; [reflexivity|]. split; [reflexivity|]. exists (Some e1).
    split; [reflexivity|]. split; [|discriminate].
    apply outcome_failed, H1. }
  destruct (downFlag flags).
  - unfold bindP at 1. rewrite lift_run.
    destruct (remove_loop client containers w2 ([ev0] ++ evs1))
      as (res2 & w3 & evs2 & Hrun2 & H2 & _).
    unfold RemoveContainers. rewrite Hrun2. cbn [fst snd].
    destruct res2 as [e2|].
    + eexists _, _, _, _. split; [rewrite <- app_assoc; reflexivity|]. split; [reflexivity|].
      exists (Some e2). split; [reflexivity|]. split; [|discriminate].
      apply (outcome_then _ _ _ _ _ H1 H2).
    + eexists _, _, _, _. split; [rewrite <- app_assoc; reflexivity|]. split; [reflexivity|].
      exists None. split; [reflexivity|]. split; [|discriminate].
      apply (outcome_then _ _ _ _ _ H1 H2).
  - eexists _, _, _, _. split; [reflexivity|]. split; [reflexivity|].
    exists None. split; [reflexivity|]. split; [|discriminate].
    rewrite app_nil_r. exact H1.
Qed.

(** What [handleCompose] goes on with: the operation that the flags
    choose. *)
Local Abbreviation operation projectName :=
  (if downFlag flags
   then DownComposeProject (client := rec) projectName (volumesFlag flags)
   else StopComposeProject (client := rec) projectName).

Lemma operation_framed (projectName : string) : framed (operation projectName).
Proof.
  destruct (downFlag flags);
    [apply DownComposeProject_framed | apply StopComposeProject_framed].
Qed.

Lemma stopOrDown_run (projectName : string) (w : W) (log : list Event)
      (console : Console) :
  exists console',
    stopOrDown flags (client := rec) projectName ((w, log), console)
    = (Returns (fst (operation projectName (w, []))),
       ((fst (snd (operation projectName (w, []))),
         log ++ snd (snd (operation projectName (w, [])))), console'))
    /\ stderr console' = stderr console.
Proof.
  pose proof (operation_framed projectName w log) as Hframe.
  unfold stopOrDown.
  destruct (downFlag flags); unfold bindP at 1; rewrite lift_run, Hframe;
    cbn [fst snd];
    match goal with
    | |- context [fst (?op (w, []))] => destruct (fst (op (w, []))) as [e|]
    end.
  - eexists. split; reflexivity.
  - destruct (volumesFlag flags); eexists; split; reflexivity.
  - eexists. split; reflexivity.
  - eexists. split; reflexivity.
Qed.

Lemma handleCompose_run (cfg : Config) (w : W) (console : Console) :
  let projectName := DeriveProjectNameFromConfig cfg in
  let found := FindComposeContainers (client := client) projectName w in
  let containers := fst (fst found) in
  let ev0 := firstEvent client projectName w in
  let op := operation projectName (snd found, []) in
  exists r w' evs console',
    handleCompose flags DeriveProjectNameFromConfig (client := rec) cfg
                  ((w, []), console)
    = (r, ((w', ev0 :: evs), console'))
    /\ stderr console' = stderr console
    /\ match snd (fst found) with
       | Some e =>
           r = Returns (Some (Errorf_w "failed to find compose containers: " e))
           /\ evs = [] /\ console' = console
       | None =>
           if (length containers =? 0)%nat && negb (downFlag flags) then
             r = Returns None /\ evs = []
             /\ console'
                = {| stdout := stdout console
                               +:+ "No containers found for compose project '"
                               +:+ projectName +:+ "'" +:+ nl;
                     stderr := stderr console |}
           else
             match find shortID containers with
             | Some c =>
                 r = Panics (SliceBoundsOutOfRange 12 (String.length (ID c)))
                 /\ evs = []
             | None =>
                 r = Returns (fst op) /\ w' = fst (snd op) /\ evs = snd (snd op)
             end
       end.
Proof.
  cbv zeta. unfold handleCompose, FindComposeContainers, firstEvent.
  set (projectName := DeriveProjectNameFromConfig cfg).
  unfold bindP at 1. rewrite lift_run, rec_ContainerList. cbn [fst snd app].
  destruct (ContainerList _ w) as [[containers [e|]] w1]; cbn [fst snd].
  { eexists _, _, _, _. split; [reflexivity|]. split; [reflexivity|]. auto. }
  set (ev0 := {| call := ContainerListCall _; reply := Containers containers;
                 err := None |}).
  destruct containers as [|c l].
  - cbn [length Nat.eqb find andb]. destruct (downFlag flags) eqn:Hdown; cbn [negb].
    + unfold bindP at 1, Print at 1. cbv beta iota.
      match goal with
      | |- context [stopOrDown flags projectName ((?w, ?l), ?c)] =>
          destruct (stopOrDown_run projectName w l c) as [console' [-> Herr]]
      end.
      rewrite Hdown. eexists _, _, _, _. split; [reflexivity|].
      split; [exact Herr|]. auto.
    + eexists _, _, _, _. split; [reflexivity|]. split; [reflexivity|]. auto.
  - set (containers := c :: l) in *.
    change (length containers =? 0)%nat with false. cbv iota. cbn [andb].
    unfold bindP at 1, Print at 1. cbv beta iota.
    unfold bindP at 1.
    match goal with
    | |- context [forEach printContainer containers ?s] =>
        destruct (printContainers_run containers s) as [out ->]
    end.
    cbn [fst snd stdout stderr].
    destruct (find shortID containers) as [short|].
    { eexists _, _, _, _. split; [reflexivity|]. split; [reflexivity|]. auto. }
    match goal with
    | |- context [stopOrDown flags projectName ((?w, ?l), ?c)] =>
        destruct (stopOrDown_run projectName w l c) as [console' [-> Herr]]
    end.
    eexists _, _, _, _. split; [reflexivity|]. split; [exact Herr|]. auto.
Qed.

(** The calls of the plans are admitted by the flags, and none is
    [Close]. *)
Local Abbreviation inner :=
  (fun c : Call => admitted flags c = true /\ c <> CloseCall).

Lemma imagePlan_inner (configPath : string) (containers : list ContainerInfo) :
  Forall inner (imagePlan (downFlag flags) configPath containers).
Proof.
  unfold imagePlan. constructor; [split; [reflexivity | discriminate]|].
  apply Forall_app. split.
  - apply List.Forall_map, List.Forall_forall. intros c _.
    split; [reflexivity | discriminate].
  - destruct (downFlag flags) eqn:Hdown; [|constructor].
    apply List.Forall_map, List.Forall_forall. intros c _.
    split; [exact Hdown | discriminate].
Qed.

Lemma stopPlan_inner (projectName : string) (containers : list ContainerInfo) :
  Forall inner (stopPlan projectName containers).
Proof.
  unfold stopPlan. constructor; [split; [reflexivity | discriminate]|].
  apply List.Forall_map, List.Forall_forall. intros c _.
  split; [reflexivity | discriminate].
Qed.

Lemma downPlan_inner (projectName : string) containers networks volumes :
  downFlag flags = true ->
  Forall inner (downPlan projectName (volumesFlag flags) containers networks volumes).
Proof.
  intros Hdown. unfold downPlan.
  repeat (apply Forall_app; split);
    try (apply List.Forall_map, List.Forall_forall; intros c _);
    try (constructor; [|constructor]);
    try (split; [cbn; rewrite ?Hdown; reflexivity | discriminate]).
  destruct (volumesFlag flags) eqn:Hvol; [|constructor].
  constructor; [split; [cbn; rewrite Hdown, Hvol; reflexivity | discriminate]|].
  apply List.Forall_map, List.Forall_forall. intros c _.
  split; [cbn; rewrite Hdown, Hvol; reflexivity | discriminate].
Qed.

Lemma operation_inner (projectName : string) (w : W) :
  Forall inner (calls (snd (snd (operation projectName (w, []))))).
Proof.
  destruct (downFlag flags) eqn:Hdown.
  - destruct (Down_outcome client projectName (volumesFlag flags) w)
      as (res & w' & log & -> & _ & Hout).
    cbn [snd]. eapply Forall_prefix; [eapply outcome_prefix; eassumption|].
    apply downPlan_inner, Hdown.
  - destruct (Stop_outcome client projectName w) as (res & w' & log & -> & _ & Hout).
    cbn [snd]. eapply Forall_prefix; [eapply outcome_prefix; eassumption|].
    apply stopPlan_inner.
Qed.

(** X5. [handleImage] asks for the containers of the definition's path,
    then stops each of them in order and, only under the down flag,
    removes each of them in order: the calls it makes are always a prefix
    of that plan and no call follows a failed one.  It returns nil
    exactly when the whole plan ran without an error.  It panics exactly
    when the listing succeeds with a container whose identifier is
    shorter than twelve bytes, and then nothing was called after the
    listing.  When no container is found it reports so and calls nothing
    else.  The listing is made in every run.  And the plan is left only
    at a failure: when [handleImage] returns an error, the last call it
    made has failed and no call before it has, and the error is the
    wrapped cause of a failed listing, or names the listed container
    whose stop, or under the down flag whose removal, has failed. *)
Theorem handleImage_calls (cfg : Config) (w : W) (console : Console) :
  let run := handleImage flags (client := rec) cfg ((w, []), console) in
  let r := fst run in
  let log := snd (fst (snd run)) in
  let containers := listedContainers log in
  let planned := imagePlan (downFlag flags) (ConfigPath cfg) containers in
  calls log `prefix_of` planned
  /\ (r = Returns None
      <-> calls log = planned /\ clean log /\ find shortID containers = None)
  /\ ((exists p, r = Panics p) <-> clean log /\ find shortID containers <> None)
  /\ ((exists p, r = Panics p) -> calls log = [imageListCall (ConfigPath cfg)])
  /\ (containers = [] -> clean log ->
      r = Returns None
      /\ calls log = [imageListCall (ConfigPath cfg)]
      /\ stdout (snd (snd run))
         = stdout console +:+ "No running containers found for this devcontainer"
           +:+ nl)
  /\ inOrder log
  /\ hd_error (calls log) = Some (imageListCall (ConfigPath cfg))
  /\ (forall e,
        r = Returns (Some e) ->
        exists done ev cause,
          log = done ++ [ev] /\ clean done /\ err ev = Some cause
          /\ ((done = [] /\ call ev = imageListCall (ConfigPath cfg)
               /\ e = Errorf_w "failed to find containers: " cause)
              \/ (exists c,
                    In c containers
                    /\ ((call ev = ContainerStopCall (ID c) None
                         /\ e = Errorf_w ("failed to stop container " +:+ ID c
                                          +:+ ": ") cause)
                        \/ (downFlag flags = true
                            /\ call ev = ContainerRemoveCall (ID c) true
                            /\ e = Errorf_w ("failed to remove container "
                                             +:+ ID c +:+ ": ") cause))))).
Proof.
  cbv zeta.
  destruct (handleImage_run cfg w console)
    as (r & w' & evs & console' & -> & _ & Hcase).
  cbn [fst snd listedContainers reply calls map call].
  fold (imageListCall (ConfigPath cfg)).
  destruct (ContainerList _ w) as [[containers [e|]] w1]; cbn [fst snd] in *.
  - destruct Hcase as (-> & -> & ->). cbn [map].
    assert (Hdirty : ~ clean [{| call := imageListCall (ConfigPath cfg);
                                 reply := Containers containers; err := Some e |}]).
    { intros H. inversion H; discriminate. }
    split; [apply prefix_cons, prefix_nil|].
    split; [split; [discriminate | tauto]|].
    split; [split; [intros [p Hp]; discriminate | tauto]|].
    split; [intros [p Hp]; discriminate|].
    split; [tauto|].
    split.
    { intros done ev rest Hsplit.
      destruct done as [|? [|? ?]]; try discriminate; constructor. }
    split; [reflexivity|].
    intros e' [= <-]. eexists [], _, e. split; [reflexivity|].
    split; [constructor|]. split; [reflexivity|]. left. auto.
  - set (ev0 := {| call := imageListCall (ConfigPath cfg);
                   reply := Containers containers; err := None |}).
    assert (H0 : outcome None [ev0] [call ev0]) by (apply outcome_call; reflexivity).
    destruct (find shortID containers) as [short|] eqn:Hshort.
    + destruct Hcase as (-> & ->). cbn [map].
      split; [apply prefix_cons, prefix_nil|].
      split; [split; [discriminate | intros (_ & _ & ?); discriminate]|].
      split; [split; [intros _; split; [repeat constructor | discriminate]
                     | eauto]|].
      split; [reflexivity|].
      split; [intros ->; discriminate|].
      split; [eapply outcome_inOrder, H0|].
      split; [reflexivity | discriminate].
    + destruct Hcase as (res & -> & Hout & Hempty).
      pose proof (outcome_then [ev0] evs res [_] _ H0 Hout) as Hall.
      cbn [app] in Hall. fold (calls evs).
      change (imageListCall (ConfigPath cfg) :: calls evs) with (calls (ev0 :: evs)).
      split; [eapply outcome_prefix; exact Hall|].
      split.
      { pose proof (outcome_success _ _ _ Hall) as Hiff. split.
        - intros [= ->]. destruct Hiff as [Hiff _]. destruct (Hiff eq_refl).
          auto.
        - intros (Hcalls & Hclean & _). f_equal. apply Hiff. auto. }
      split; [split; [intros [p Hp]; discriminate | intros [_ H]; contradiction]|].
      split; [intros [p Hp]; discriminate|].
      split; [|split; [eapply outcome_inOrder; exact Hall|split; [reflexivity|]]].
      * intros -> _.
        assert (Hnone : outcome res evs []).
        { destruct (downFlag flags); exact Hout. }
        clear Hout. rename Hnone into Hout.
        destruct Hout
          as [-> Hcalls Hclean | done ev cause e' Hres Hlog Hdone Herr Hpre Hrep].
        -- destruct evs; [|discriminate]. rewrite (Hempty eq_refl). auto.
        -- exfalso. apply prefix_length in Hpre. subst evs.
           unfold calls in Hpre. rewrite length_map, length_app in Hpre.
           cbn in Hpre. lia.
      * intros e [= ->].
        destruct Hout
          as [Hnone _ _ | done ev cause e' Hres Hlog Hdone Herr Hpre Hrep];
          [discriminate|].
        injection Hres as <-. subst evs.
        exists (ev0 :: done), ev, cause. split; [reflexivity|].
        split; [constructor; [reflexivity | exact Hdone]|].
        split; [exact Herr|]. right.
        destruct Hpre as [later Hplan]. rewrite calls_app in Hplan.
        assert (Hin : In (call ev)
                         (map (fun c => ContainerStopCall (ID c) None) containers
                          ++ (if downFlag flags
                              then map (fun c => ContainerRemoveCall (ID c) true)
                                       containers
                              else []))).
        { rewrite Hplan, <- app_assoc. apply in_or_app. right. left. reflexivity. }
        unfold reported in Hrep.
        apply in_app_or in Hin as [Hin|Hin].
        -- apply in_map_iff in Hin as (c & Hcall & Hc). rewrite <- Hcall in Hrep.
           exists c. split; [exact Hc|]. left. auto.
        -- destruct (downFlag flags); [|contradiction].
           apply in_map_iff in Hin as (c & Hcall & Hc). rewrite <- Hcall in Hrep.
           exists c. split; [exact Hc|]. right. auto.
Qed.

(** X6. [handleCompose] first lists the containers of the project that
    is named after the definition.  A listing that fails is returned
    wrapped, with no further call.  Without a container and without the
    down flag it reports that none was found and returns nil after this
    one call.  In the other cases it panics on a container whose
    identifier is shorter than twelve bytes, before any change is made;
    else it goes on with [DownComposeProject] under the down flag (with
    the volumes flag as its argument) and with [StopComposeProject]
    without it, in the world the listing left, and returns what that
    returns. *)
Theorem handleCompose_composes (cfg : Config) (w : W) (console : Console) :
  let projectName := DeriveProjectNameFromConfig cfg in
  let found := FindComposeContainers (client := client) projectName w in
  let containers := fst (fst found) in
  let op := (if downFlag flags
             then DownComposeProject (client := rec) projectName (volumesFlag flags)
             else StopComposeProject (client := rec) projectName) (snd found, []) in
  let run := handleCompose flags DeriveProjectNameFromConfig (client := rec) cfg
                           ((w, []), console) in
  let r := fst run in
  let log := snd (fst (snd run)) in
  hd_error log = Some (firstEvent client projectName w)
  /\ (forall e, snd (fst found) = Some e ->
      r = Returns (Some (Errorf_w "failed to find compose containers: " e))
      /\ length log = 1)
  /\ (snd (fst found) = None -> containers = [] -> downFlag flags = false ->
      r = Returns None /\ length log = 1
      /\ stdout (snd (snd run))
         = stdout console +:+ "No containers found for compose project '"
           +:+ projectName +:+ "'" +:+ nl)
  /\ (snd (fst found) = None -> containers <> [] \/ downFlag flags = true ->
      match find shortID containers with
      | Some c =>
          r = Panics (SliceBoundsOutOfRange 12 (String.length (ID c)))
          /\ length log = 1
      | None =>
          r = Returns (fst op)
          /\ log = firstEvent client projectName w :: snd (snd op)
      end).
Proof.
  cbv zeta.
  destruct (handleCompose_run cfg w console)
    as (r & w' & evs & console' & -> & _ & Hcase).
  cbn [fst snd hd_error]. split; [reflexivity|].
  destruct (snd (fst (FindComposeContainers _ w))) as [e|].
  - destruct Hcase as (-> & -> & ->).
    split; [intros ? [= <-]; auto|]. split; discriminate.
  - split; [discriminate|]. split.
    + intros _ Hempty Hdown. rewrite Hempty, Hdown in Hcase.
      destruct Hcase as (-> & -> & ->). auto.
    + intros _ Hor.
      assert (Hnot : (length (fst (fst (FindComposeContainers
                         (DeriveProjectNameFromConfig cfg) w))) =? 0)%nat
                     && negb (downFlag flags) = false).
      { destruct Hor as [Hne | ->]; [|apply andb_false_r].
        destruct (fst (fst _)); [contradiction | reflexivity]. }
      rewrite Hnot in Hcase.
      destruct (find shortID _).
      * destruct Hcase as (-> & ->). auto.
      * destruct Hcase as (-> & _ & ->). auto.
Qed.

Lemma handleImage_inner (cfg : Config) (w : W) (console : Console) :
  let run := handleImage flags (client := rec) cfg ((w, []), console) in
  Forall inner (calls (snd (fst (snd run))))
  /\ stderr (snd (snd run)) = stderr console
  /\ hd_error (calls (snd (fst (snd run)))) = Some (imageListCall (ConfigPath cfg)).
Proof.
  cbv zeta.
  destruct (handleImage_run cfg w console)
    as (r & w' & evs & console' & -> & Herr & Hcase).
  cbn [fst snd]. split; [|split; [exact Herr | reflexivity]].
  pose proof (imagePlan_inner (ConfigPath cfg)) as Hplan. unfold imagePlan in Hplan.
  cbn [calls map call].
  destruct (snd (fst (ContainerList _ w))) as [e|].
  - destruct Hcase as (_ & -> & _). eapply Forall_prefix; [|apply (Hplan [])].
    apply prefix_cons, prefix_nil.
  - destruct (find shortID _).
    + destruct Hcase as (_ & ->). eapply Forall_prefix; [|apply (Hplan [])].
      apply prefix_cons, prefix_nil.
    + destruct Hcase as (res & _ & Hout & _).
      eapply Forall_prefix; [|apply Hplan].
      apply prefix_cons, (outcome_prefix _ _ _ Hout).
Qed.

Lemma handleCompose_inner (cfg : Config) (w : W) (console : Console) :
  let run := handleCompose flags DeriveProjectNameFromConfig (client := rec) cfg
                           ((w, []), console) in
  Forall inner (calls (snd (fst (snd run))))
  /\ stderr (snd (snd run)) = stderr console
  /\ hd_error (calls (snd (fst (snd run))))
     = Some (listCall (DeriveProjectNameFromConfig cfg)).
Proof.
  cbv zeta.
  destruct (handleCompose_run cfg w console)
    as (r & w' & evs & console' & -> & Herr & Hcase).
  cbn [fst snd]. split; [|split; [exact Herr | reflexivity]].
  cbn [calls map call firstEvent].
  constructor; [split; [reflexivity | discriminate]|].
  destruct (snd (fst (FindComposeContainers _ w))) as [e|].
  - destruct Hcase as (_ & -> & _). constructor.
  - destruct (_ && _).
    + destruct Hcase as (_ & -> & _). constructor.
    + destruct (find shortID _).
      * destruct Hcase as (_ & ->). constructor.
      * destruct Hcase as (_ & _ & ->). apply operation_inner.
Qed.

End HandlerFacts.

Section RunStopFacts.
Import Devcontainer Docker Os Ui Root Recorder.
Context {fs : FileSystem} {env : Environ} {term : Terminal}.
Context {W : Type}.
Variable flags : Flags.
Variable DeriveProjectNameFromConfig : Config -> string.
Variable Sum256Hex : string -> string.
Variable Quote : string -> string.
Variable NewClientWithOpts : list Opt -> result (ComposeClient W).

Local Abbreviation inner :=
  (fun c : Call => admitted flags c = true /\ c <> CloseCall).

(** The SDK is asked in the same way when its clients are recorded. *)
Lemma NewClientWithContext_recorded (contextName : string) :
  NewClientWithContext Sum256Hex Quote (recorded NewClientWithOpts) contextName
  = match NewClientWithContext Sum256Hex Quote NewClientWithOpts contextName with
    | Ok cli => Ok (recording cli)
    | Err err => Err err
    end.
Proof.
  unfold NewClientWithContext, recorded.
  repeat match goal with
         | |- context [match ?x with _ => _ end] =>
             lazymatch x with
             | context [match _ with _ => _ end] => fail
             | _ => destruct x
             end
         end; reflexivity.
Qed.

(** The definitions that are parsed, in the order of their files, and
    the warnings for the files that are refused. *)
Local Abbreviation parsed :=
  (omap (fun path => match ParseConfig path with
                     | Ok cfg => Some cfg
                     | Err _ => None
                     end)).

Local Abbreviation warnings configPaths :=
  (fold_right String.append ""
     (omap (fun path => match ParseConfig path with
                        | Ok _ => None
                        | Err err => Some ("Warning: failed to parse " +:+ path
                                           +:+ ": " +:+ Error err +:+ nl)
                        end) configPaths)).

Lemma parseConfigs_run {V} (configPaths : list string) (configs : list Config)
      (s : V * Console) :
  parseConfigs configPaths configs s
  = (Returns (configs ++ parsed configPaths),
     (fst s, {| stdout := stdout (snd s) +:+ warnings configPaths;
                stderr := stderr (snd s) |})).
Proof.
  revert configs s.
  induction configPaths as [|path rest IH]; intros configs [v [out0 err0]].
  - cbn. rewrite append_nil_r, app_nil_r. reflexivity.
  - cbn [parseConfigs omap list_omap]. destruct (ParseConfig path) as [cfg|e].
    + rewrite IH, <- app_assoc. reflexivity.
    + unfold bindP at 1, Print at 1. cbv beta iota.
      rewrite IH. cbn [fst snd stdout stderr fold_right].
      rewrite !append_assoc. reflexivity.
Qed.

(** [ParseConfig] records the path it was given. *)
Lemma ParseConfig_path (path : string) (cfg : Config) :
  ParseConfig path = Ok cfg -> ConfigPath cfg = path.
Proof.
  unfold ParseConfig. destruct (ReadFile path); [|discriminate].
  destruct (UnmarshalRawConfig _); [|discriminate].
  destruct (rawDockerComposeFile _); [|intros [= <-]; reflexivity].
  destruct (parseDockerComposeFile _); [|discriminate].
  intros [= <-]. reflexivity.
Qed.

(** The directory that [runStop] looks in. *)
Local Abbreviation target args :=
  (Abs match args with
       | first :: _ => first
       | [] => "."
       end).

(** A run of [runStop]: either no client was made and the client's world
    is as it was, or the last call is [Close], the calls before it are
    the handler's for a definition that was found and parsed, and the
    warning of a failed [Close] is all that was written to the standard
    error. *)
Lemma runStop_run (args : list string) (w : W) (console : Console) :
  exists r w' log console',
    runStop flags DeriveProjectNameFromConfig Sum256Hex Quote
            (recorded NewClientWithOpts) args ((w, []), console)
    = (r, ((w', log), console'))
    /\ ((log = [] /\ w' = w /\ stderr console' = stderr console)
        \/ exists body ev,
             log = body ++ [ev] /\ call ev = CloseCall
             /\ Forall inner (calls body)
             /\ stderr console'
                = stderr console
                  +:+ match err ev with
                      | Some e => "Warning: failed to close docker client: "
                                  +:+ Error e +:+ nl
                      | None => ""
                      end
             /\ exists absDir path cfg,
                  target args = Ok absDir
                  /\ In path (fst (FindDevcontainerConfigs absDir))
                  /\ ParseConfig path = Ok cfg
                  /\ hd_error (calls body)
                     = Some (if IsComposeBased cfg
                             then listCall (DeriveProjectNameFromConfig cfg)
                             else imageListCall path)).
Proof.
  unfold runStop.
  destruct (volumesFlag flags && negb (downFlag flags)).
  { eexists _, _, _, _. split; [reflexivity|]. left. auto. }
  destruct (Abs _) as [absDir|e] eqn:Habs.
  2:{ eexists _, _, _, _. split; [reflexivity|]. left. auto. }
  destruct (FindDevcontainerConfigs absDir) as [configPaths [e|]] eqn:Hfind.
  { eexists _, _, _, _. split; [reflexivity|]. left. auto. }
  destruct (length configPaths =? 0)%nat.
  { eexists _, _, _, _. split; [reflexivity|]. left. auto. }
  unfold bindP at 1.
  rewrite (parseConfigs_run configPaths [] ((w, @nil Event), console)).
  cbn [fst snd app].
  set (configs := omap _ configPaths).
  destruct (length configs =? 0)%nat.
  { eexists _, _, _, _. split; [reflexivity|]. left. auto. }
  unfold bindP at 1, eval at 1, ret at 1.
  destruct (SelectConfig _ configs) as [[selectedConfig|e]|p] eqn:Hselect.
  3:{ eexists _, _, _, _. split; [reflexivity|]. left. auto. }
  2:{ eexists _, _, _, _. split; [reflexivity|]. left. auto. }
  assert (Hfound : exists path,
             In path configPaths /\ ParseConfig path = Ok selectedConfig).
  { apply SelectConfig_member in Hselect.
    destruct (deduplicateConfigs_spec DeriveProjectNameFromConfig configs)
      as (Hsub & _).
    rewrite <- list_elem_of_In in Hselect.
    apply (elem_of_sublist _ _ _ Hselect) in Hsub.
    apply list_elem_of_omap in Hsub as (path & Hpath & Hparse).
    exists path. rewrite <- list_elem_of_In. split; [exact Hpath|].
    destruct (ParseConfig path); [congruence | discriminate]. }
  destruct Hfound as (path & Hpath & Hparse).
  rewrite NewClientWithContext_recorded.
  destruct (NewClientWithContext _ _ _ _) as [cli|e].
  2:{ eexists _, _, _, _. split; [reflexivity|]. left. auto. }
  unfold deferred.
  set (console1 := {| stdout := _; stderr := _ |}).
  assert (Hhandler :
    exists r w1 log1 console2,
      (if IsComposeBased selectedConfig
       then handleCompose flags DeriveProjectNameFromConfig
                          (client := recording cli) selectedConfig
       else handleImage flags (client := recording cli) selectedConfig)
        ((w, []), console1)
      = (r, ((w1, log1), console2))
      /\ Forall inner (calls log1) /\ stderr console2 = stderr console
      /\ hd_error (calls log1)
         = Some (if IsComposeBased selectedConfig
                 then listCall (DeriveProjectNameFromConfig selectedConfig)
                 else imageListCall path)).
  { rewrite <- (ParseConfig_path path selectedConfig Hparse).
    destruct (IsComposeBased selectedConfig).
    - pose proof (handleCompose_inner cli flags DeriveProjectNameFromConfig
                    selectedConfig w console1) as H.
      cbv zeta in H.
      destruct (handleCompose _ _ _ _) as [r [[w1 log1] console2]].
      eexists _, _, _, _. split; [reflexivity|]. exact H.
    - pose proof (handleImage_inner cli flags selectedConfig w console1) as H.
      cbv zeta in H.
      destruct (handleImage _ _ _) as [r [[w1 log1] console2]].
      eexists _, _, _, _. split; [reflexivity|]. exact H. }
  destruct Hhandler as (r & w1 & log1 & console2 & -> & Hinner & Herr & Hhd).
  assert (Htarget : exists absDir0 path cfg,
             Ok absDir = Ok absDir0
             /\ In path (fst (FindDevcontainerConfigs absDir0))
             /\ ParseConfig path = Ok cfg
             /\ hd_error (calls log1)
                = Some (if IsComposeBased cfg
                        then listCall (DeriveProjectNameFromConfig cfg)
                        else imageListCall path)).
  { exists absDir, path, selectedConfig. rewrite Hfind. auto. }
  unfold closeClient, bindP at 1. rewrite lift_run.
  cbn [Close containerClient recording recordingContainers].
  unfold record. destruct (Close w1) as [closeErr w2]. cbn [fst snd].
  destruct closeErr as [e|]; cbn [Eprint retP ret].
  - eexists _, _, _, _. split; [reflexivity|]. right.
    eexists log1, _. split; [reflexivity|]. split; [reflexivity|].
    split; [exact Hinner|]. split; [|exact Htarget].
    cbn [stderr err]. rewrite Herr. reflexivity.
  - eexists _, _, _, _. split; [reflexivity|]. right.
    eexists log1, _. split; [reflexivity|]. split; [reflexivity|].
    split; [exact Hinner|]. split; [|exact Htarget].
    cbn [err]. rewrite append_nil_r. exact Herr.
Qed.

Local Abbreviation run args w console :=
  (runStop flags DeriveProjectNameFromConfig Sum256Hex Quote
           (recorded NewClientWithOpts) args ((w, []), console)).

(** X7. Whatever the arguments, the files, the environment, the user
    and the daemon are, [runStop] asks the daemon only for what the flags
    admit: it lists and stops containers and closes the client, it
    removes a container or lists and removes networks only under the down
    flag, and it lists and removes volumes only under the down flag
    together with the volumes flag.  The volumes flag without the down
    flag is refused before anything is printed or called. *)
Theorem runStop_respects_flags (args : list string) (w : W) (console : Console) :
  Forall (fun c => admitted flags c = true)
         (calls (snd (fst (snd (run args w console)))))
  /\ (volumesFlag flags = true -> downFlag flags = false ->
      run args w console
      = (Returns (Some (errorString "--volumes requires --down flag")),
         ((w, []), console))).
Proof.
  split.
  - destruct (runStop_run args w console) as (r & w' & log & console' & -> & Hlog).
    cbn [fst snd].
    destruct Hlog as [(-> & _)|(body & ev & -> & Hclose & Hinner & _)];
      [constructor|].
    rewrite calls_app. apply Forall_app. split.
    + eapply Forall_impl; [exact Hinner|]. cbv beta. tauto.
    + cbn. rewrite Hclose. repeat constructor.
  - intros Hvolumes Hdown. unfold runStop. rewrite Hvolumes, Hdown. reflexivity.
Qed.

(** X8. [runStop] closes the client it has created, once and last:
    either the run makes no call, leaves the world as it was and writes
    nothing to the standard error; or the last call of the run is the
    closing of the client, no earlier call is, also when the handler
    fails or panics, and the standard error receives one warning exactly
    when the closing fails. *)
Theorem runStop_closes_client (args : list string) (w : W) (console : Console) :
  let log := snd (fst (snd (run args w console))) in
  let written := stderr (snd (snd (run args w console))) in
  (log = [] /\ fst (fst (snd (run args w console))) = w
   /\ written = stderr console)
  \/ (exists body ev,
        log = body ++ [ev] /\ call ev = CloseCall
        /\ Forall (fun c => c <> CloseCall) (calls body)
        /\ written
           = stderr console
             +:+ match err ev with
                 | Some e => "Warning: failed to close docker client: "
                             +:+ Error e +:+ nl
                 | None => ""
                 end).
Proof.
  cbv zeta.
  destruct (runStop_run args w console) as (r & w' & log & console' & -> & Hlog).
  cbn [fst snd].
  destruct Hlog as [H|(body & ev & -> & Hclose & Hinner & Herr & _)]; [left; exact H|].
  right. exists body, ev. split; [reflexivity|]. split; [exact Hclose|].
  split; [|exact Herr].
  eapply Forall_impl; [exact Hinner|]. cbv beta. tauto.
Qed.

(** X10. When the flags are accepted and the target directory holds no
    definition file, [runStop] prints that no devcontainer.json was found
    and returns nil.  When files are found and none of them parses, it
    prints one warning for each, in their order, and returns the error
    that no valid definition was found.  In both cases the daemon is not
    called. *)
Theorem runStop_without_definitions (args : list string) (w : W)
        (console : Console) (absDir : string) (configPaths : list string) :
  target args = Ok absDir ->
  FindDevcontainerConfigs absDir = (configPaths, None) ->
  negb (volumesFlag flags && negb (downFlag flags)) = true ->
  (configPaths = [] ->
   run args w console
   = (Returns None,
      ((w, []), {| stdout := stdout console +:+ "No devcontainer.json found" +:+ nl;
                   stderr := stderr console |})))
  /\ (configPaths <> [] -> parsed configPaths = [] ->
      run args w console
      = (Returns (Some (errorString "no valid devcontainer configs found")),
         ((w, []), {| stdout := stdout console +:+ warnings configPaths;
                      stderr := stderr console |})))
  /\ (Forall (fun path => exists err, ParseConfig path = Err err) configPaths ->
      parsed configPaths = []).
Proof.
  intros Habs Hfind Hflags. apply negb_true_iff in Hflags.
  split; [|split].
  - intros ->. unfold runStop. rewrite Hflags, Habs, Hfind. reflexivity.
  - intros Hne Hnone. unfold runStop. rewrite Hflags, Habs, Hfind.
    destruct configPaths as [|path rest]; [contradiction|].
    cbn [length Nat.eqb]. unfold bindP at 1.
    rewrite (parseConfigs_run (path :: rest) [] ((w, @nil Event), console)).
    rewrite Hnone. reflexivity.
  - clear Hfind. induction 1 as [|path rest [err Herr] _ IH]; [reflexivity|].
    cbn [omap list_omap]. rewrite Herr. exact IH.
Qed.

(** X9. The first call of a run of [runStop] is the listing for a
    definition file that was found below the target directory and that
    parses: the listing by the project name for a compose definition, and
    the listing by the path of the file for any other. *)
Theorem runStop_targets_found (args : list string) (w : W) (console : Console) :
  match calls (snd (fst (snd (run args w console)))) with
  | [] => True
  | first :: _ =>
      exists absDir path cfg,
        target args = Ok absDir
        /\ In path (fst (FindDevcontainerConfigs absDir))
        /\ ParseConfig path = Ok cfg
        /\ first = (if IsComposeBased cfg
                    then listCall (DeriveProjectNameFromConfig cfg)
                    else imageListCall path)
  end.
Proof.
  destruct (runStop_run args w console) as (r & w' & log & console' & -> & Hlog).
  cbn [fst snd].
  destruct Hlog as [(-> & _)|(body & ev & -> & _ & _ & _ & Htarget)]; [exact I|].
  destruct Htarget as (absDir & path & cfg & Habs & Hpath & Hparse & Hhd).
  rewrite calls_app. destruct (calls body) as [|first rest]; [discriminate|].
  injection Hhd as ->. cbn [app]. eauto 10.
Qed.

End RunStopFacts.

(** ** The Docker context *)
Section ContextFacts.
Import Devcontainer Docker Os.
Context {fs : FileSystem} {env : Environ}.
Variable Sum256Hex : string -> string.
Variable Quote : string -> string.
Context {W : Type}.
Variable NewClientWithOpts : list Opt -> result (ComposeClient W).

Local Abbreviation New := (NewClientWithContext Sum256Hex Quote NewClientWithOpts).
Local Abbreviation resolve := (resolveContextEndpoint Sum256Hex Quote).

(** The end of [NewClientWithContext]: the client of the SDK for the
    options. *)
Local Abbreviation connect opts :=
  (match NewClientWithOpts opts with
   | Err err => Err (Errorf_w "failed to create docker client: " err)
   | Ok cli => Ok cli
   end).

(** [NewClientWithContext] for a context that is named. *)
Lemma NewClientWithContext_named (contextName : string) :
  contextName <> "" -> contextName <> "default" ->
  New contextName
  = match resolve contextName with
    | Err err =>
        Err (Errorf_w ("failed to resolve context " +:+ Quote contextName +:+ ": ")
                      err)
    | Ok host => connect [WithAPIVersionNegotiation; WithHost host]
    end.
Proof.
  intros Hne Hdefault. unfold NewClientWithContext. cbv zeta.
  apply String.eqb_neq in Hne, Hdefault. rewrite !Hne, !Hdefault. cbn [negb andb].
  destruct (resolve contextName); reflexivity.
Qed.

(** X11. The context [NewClientWithContext] connects to.  A name that
    is given and is not the default one is resolved to a host and the SDK
    is given that host.  The default name means the options of the
    environment.  Without a name the variable DOCKER_CONTEXT is taken as
    the name; without that variable a DOCKER_HOST that is set means the
    options of the environment; without both the current context of the
    configuration file is taken as the name. *)
Theorem NewClientWithContext_precedence :
  (forall contextName,
      contextName <> "" -> contextName <> "default" ->
      New contextName
      = match resolve contextName with
        | Err err =>
            Err (Errorf_w ("failed to resolve context " +:+ Quote contextName
                           +:+ ": ") err)
        | Ok host => connect [WithAPIVersionNegotiation; WithHost host]
        end)
  /\ New "default" = connect [WithAPIVersionNegotiation; FromEnv]
  /\ (Getenv "DOCKER_CONTEXT" <> "" -> New "" = New (Getenv "DOCKER_CONTEXT"))
  /\ (Getenv "DOCKER_CONTEXT" = "" -> Getenv "DOCKER_HOST" <> "" ->
      New "" = connect [WithAPIVersionNegotiation; FromEnv])
  /\ (Getenv "DOCKER_CONTEXT" = "" -> Getenv "DOCKER_HOST" = "" ->
      New "" = New getCurrentContext).
Proof.
  split; [exact NewClientWithContext_named|]. split; [reflexivity|].
  split; [|split].
  - intros Hctx. unfold NewClientWithContext. cbn [String.eqb].
    apply String.eqb_neq in Hctx. rewrite Hctx. reflexivity.
  - intros Hctx Hhost. unfold NewClientWithContext. cbn [String.eqb].
    apply String.eqb_neq in Hhost. rewrite Hctx, Hhost. reflexivity.
  - intros Hctx Hhost.
    destruct (String.eqb_spec getCurrentContext "") as [Hempty|Hne];
      [rewrite Hempty; reflexivity|].
    destruct (String.eqb_spec getCurrentContext "default") as [Hdefault|Hnamed].
    { rewrite Hdefault. unfold NewClientWithContext. cbv zeta. cbn [String.eqb].
      rewrite !Hctx, !Hhost, !Hdefault. reflexivity. }
    rewrite (NewClientWithContext_named getCurrentContext Hne Hnamed).
    unfold NewClientWithContext. cbv zeta. cbn [String.eqb].
    apply String.eqb_neq in Hne, Hnamed.
    rewrite !Hctx, !Hhost. cbn [String.eqb negb]. rewrite !Hne, !Hnamed.
    cbn [negb andb]. rewrite !Hne, !Hnamed. cbn [negb andb].
    destruct (resolve getCurrentContext); reflexivity.
Qed.

(** The outcomes of [resolveContextEndpoint]: the host of the context's
    docker endpoint, or the reason why there is none. *)
Theorem resolveContextEndpoint_outcomes (contextName : string) :
  let metaPath :=
    Filepath.Join [getDockerConfigDir; "contexts"; "meta"; Sum256Hex contextName;
                   "meta.json"] in
  match resolve contextName with
  | Ok host =>
      (contextName = "default" /\ host = DefaultDockerHost)
      \/ (contextName <> "default" /\ host <> ""
          /\ exists data meta,
               ReadFile metaPath = Ok data
               /\ UnmarshalContextMeta data = Ok meta
               /\ Endpoints meta !! "docker" = Some {| Host := host |})
  | Err e =>
      contextName <> "default"
      /\ ((exists cause,
              ReadFile metaPath = Err cause
              /\ e = Errorf_w ("context " +:+ Quote contextName +:+ " not found: ")
                              cause)
          \/ (exists data cause,
                ReadFile metaPath = Ok data
                /\ UnmarshalContextMeta data = Err cause
                /\ e = Errorf_w "failed to parse context metadata: " cause)
          \/ (exists data meta,
                ReadFile metaPath = Ok data
                /\ UnmarshalContextMeta data = Ok meta
                /\ (Endpoints meta !! "docker" = None
                    /\ e = errorString ("no docker endpoint found in context "
                                        +:+ Quote contextName)
                    \/ Endpoints meta !! "docker" = Some {| Host := "" |}
                       /\ e = errorString ("empty host in context "
                                           +:+ Quote contextName))))
  end.
Proof.
  cbv zeta. unfold resolveContextEndpoint.
  destruct (String.eqb_spec contextName "default") as [->|Hne]; [left; auto|].
  destruct (ReadFile _) as [data|cause].
  2:{ split; [exact Hne|]. left. exists cause. auto. }
  destruct (UnmarshalContextMeta data) as [meta|cause] eqn:Hmeta.
  2:{ split; [exact Hne|]. right. left. exists data, cause. auto. }
  destruct (Endpoints meta !! "docker") as [[host]|] eqn:Hdocker.
  2:{ split; [exact Hne|]. right. right. exists data, meta. auto. }
  cbn [Host]. destruct (String.eqb_spec host "") as [->|Hhost].
  - split; [exact Hne|]. right. right. exists data, meta. auto.
  - right. split; [exact Hne|]. split; [exact Hhost|]. exists data, meta. auto.
Qed.

(** X12. [NewClientWithContext] gives the SDK either the options of the
    environment, or the host of a context that has a name other than the
    default one and resolves to a host that is not empty.  When that
    context does not resolve the SDK is not asked, and the error quotes
    the name of the context. *)
Theorem NewClientWithContext_options (contextName : string) :
  (exists context err,
      context <> "" /\ context <> "default"
      /\ resolve context = Err err
      /\ New contextName
         = Err (Errorf_w ("failed to resolve context " +:+ Quote context +:+ ": ")
                         err))
  \/ New contextName = connect [WithAPIVersionNegotiation; FromEnv]
  \/ (exists context host,
        context <> "" /\ context <> "default"
        /\ resolve context = Ok host /\ host <> ""
        /\ New contextName = connect [WithAPIVersionNegotiation; WithHost host]).
Proof.
  unfold NewClientWithContext.
  set (resolved := if String.eqb contextName "" then _ else contextName).
  destruct (String.eqb_spec resolved "") as [_|Hne]; [right; left; reflexivity|].
  destruct (String.eqb_spec resolved "default") as [_|Hnamed];
    [right; left; reflexivity|].
  cbn [negb andb].
  destruct (resolve resolved) as [host|err] eqn:Hresolve.
  - right. right. exists resolved, host. repeat split; auto.
    intros ->. unfold resolveContextEndpoint in Hresolve.
    apply String.eqb_neq in Hnamed. rewrite Hnamed in Hresolve.
    destruct (ReadFile _); [|discriminate].
    destruct (UnmarshalContextMeta _); [|discriminate].
    destruct (_ !! "docker") as [[host]|]; [|discriminate].
    cbn [Host] in Hresolve.
    destruct (String.eqb_spec host ""); [discriminate|]. congruence.
  - left. exists resolved, err. auto.
Qed.

End ContextFacts.

(** ** What the stripping leaves *)
Section StrippedFacts.
Import Json Devcontainer.

Local Abbreviation L := (stripLineComments false).
Local Abbreviation B := (stripBlockComments Outside).
Local Abbreviation T := stripTrailingCommas.

Lemma length_append (a b : string) :
  String.length (a +:+ b) = String.length a + String.length b.
Proof. induction a as [|c a IH]; cbn; [reflexivity | rewrite IH; reflexivity]. Qed.

Lemma rev_append (a b : string) :
  Strings.rev (a +:+ b) = Strings.rev b +:+ Strings.rev a.
Proof.
  induction a as [|c a IH]; cbn [String.append Strings.rev].
  - rewrite append_nil_r. reflexivity.
  - rewrite IH, append_assoc. reflexivity.
Qed.

Lemma rev_rev (s : string) : Strings.rev (Strings.rev s) = s.
Proof.
  induction s as [|c s IH]; [reflexivity|]. cbn [Strings.rev].
  rewrite rev_append, IH. reflexivity.
Qed.

Lemma cutPrefix_append (prefix s rest : string) :
  Strings.cutPrefix prefix s = Some rest -> s = prefix +:+ rest.
Proof.
  revert s. induction prefix as [|p prefix IH]; intros s; cbn [Strings.cutPrefix].
  - intros [= ->]. reflexivity.
  - destruct s as [|c s]; [discriminate|].
    destruct (Ascii.eqb_spec p c) as [->|_]; [|discriminate].
    intros H. rewrite (IH s H). reflexivity.
Qed.

Lemma cutAny_append (encodings : list string) (s rest : string) :
  Strings.cutAny encodings s = Some rest -> exists e, s = e +:+ rest.
Proof.
  induction encodings as [|e encodings IH]; cbn [Strings.cutAny]; [discriminate|].
  destruct (Strings.cutPrefix e s) as [r|] eqn:Hcut; [|exact IH].
  intros [= <-]. exists e. apply cutPrefix_append, Hcut.
Qed.

Lemma trimLeft_suffix (encodings : list string) (fuel : nat) (s : string) :
  exists cut, s = cut +:+ Strings.trimLeft encodings fuel s.
Proof.
  revert s. induction fuel as [|fuel IH]; intros s; cbn [Strings.trimLeft].
  - exists "". reflexivity.
  - destruct (Strings.cutAny encodings s) as [r|] eqn:Hcut; [|exists ""; reflexivity].
    apply cutAny_append in Hcut as [e ->]. destruct (IH r) as [cut Hr].
    exists (e +:+ cut). rewrite append_assoc, <- Hr. reflexivity.
Qed.

(** [TrimSpace] cuts at both ends. *)
Lemma TrimSpace_infix (s : string) :
  exists before after, s = before +:+ Strings.TrimSpace s +:+ after.
Proof.
  unfold Strings.TrimSpace. cbv zeta.
  set (l := Strings.trimLeft Strings.spaces (String.length s) s).
  destruct (trimLeft_suffix Strings.spaces (String.length s) s) as [before Hs].
  fold l in Hs.
  destruct (trimLeft_suffix (map Strings.rev Strings.spaces) (String.length l)
                            (Strings.rev l)) as [cut Hl].
  set (t := Strings.trimLeft _ _ (Strings.rev l)) in *.
  exists before, (Strings.rev cut).
  rewrite <- rev_append, <- Hl, rev_rev. exact Hs.
Qed.

Lemma HasPrefix_append (s t prefix : string) :
  Strings.HasPrefix s prefix = true -> Strings.HasPrefix (s +:+ t) prefix = true.
Proof.
  unfold Strings.HasPrefix. revert s.
  induction prefix as [|p prefix IH]; intros s; cbn [Strings.cutPrefix]; [reflexivity|].
  destruct s as [|c s]; [discriminate|]. cbn [String.append Strings.cutPrefix].
  destruct (Ascii.eqb p c); [apply IH | discriminate].
Qed.

Lemma hasClose_append (s t : string) :
  hasClose s = true -> hasClose (s +:+ t) = true.
Proof.
  induction s as [|c s IH]; [discriminate|]. cbn [hasClose String.append].
  intros H. apply orb_true_iff in H as [H|H].
  - apply andb_true_iff in H as [-> H]. rewrite (HasPrefix_append _ t _ H). reflexivity.
  - rewrite (IH H). apply orb_true_r.
Qed.

Lemma noLine_suffix (a b : string) : noLine (a +:+ b) = true -> noLine b = true.
Proof.
  induction a as [|c a IH]; [auto|]. cbn [String.append noLine].
  intros H. apply andb_true_iff in H as [_ H]. exact (IH H).
Qed.

Lemma noLine_prefix (a b : string) : noLine (a +:+ b) = true -> noLine a = true.
Proof.
  induction a as [|c a IH]; [reflexivity|]. cbn [String.append noLine].
  intros H. apply andb_true_iff in H as [H1 H2]. rewrite (IH H2), andb_true_r.
  apply negb_true_iff in H1. apply negb_true_iff.
  destruct (isByte c "/"); [|reflexivity]. cbn [andb] in *.
  destruct (Strings.HasPrefix a "/") eqn:Ha; [|reflexivity].
  rewrite (HasPrefix_append _ b _ Ha) in H1. discriminate.
Qed.

Lemma openFree_suffix (a b : string) : openFree (a +:+ b) = true -> openFree b = true.
Proof.
  induction a as [|c a IH]; [auto|]. cbn [String.append openFree].
  intros H. apply andb_true_iff in H as [_ H]. exact (IH H).
Qed.

Lemma drop_append (a b : string) :
  a <> "" -> Utf8.drop 1 (a +:+ b) = Utf8.drop 1 a +:+ b.
Proof. destruct a; [contradiction | reflexivity]. Qed.

Lemma openFree_prefix (a b : string) : openFree (a +:+ b) = true -> openFree a = true.
Proof.
  induction a as [|c a IH]; [reflexivity|]. cbn [String.append openFree].
  intros H. apply andb_true_iff in H as [H1 H2]. rewrite (IH H2), andb_true_r.
  apply negb_true_iff in H1. apply negb_true_iff.
  destruct (isByte c "/"); [|reflexivity]. cbn [andb] in *.
  destruct (Strings.HasPrefix a "*") eqn:Ha; [|reflexivity].
  rewrite (HasPrefix_append _ b _ Ha) in H1. cbn [andb] in *.
  destruct (hasClose (Utf8.drop 1 a)) eqn:Hclose; [|reflexivity].
  rewrite drop_append, (hasClose_append _ b Hclose) in H1; [discriminate|].
  intros ->. discriminate.
Qed.

Lemma L_length (inComment : bool) (s : string) :
  String.length (stripLineComments inComment s) <= String.length s.
Proof.
  revert inComment. induction s as [|c r IH]; intros inComment;
    cbn [stripLineComments String.length]; [lia|].
  pose proof (IH true). pose proof (IH false).
  destruct inComment; [destruct (Ascii.eqb c newline)|destruct (_ && _)];
    cbn [String.length]; lia.
Qed.

Lemma B_length (mode : blockMode) (s : string) :
  String.length (stripBlockComments mode s) <= String.length s.
Proof.
  revert mode. induction s as [|c r IH]; intros mode;
    cbn [stripBlockComments String.length]; [lia|].
  pose proof (IH Outside). pose proof (IH Opening).
  pose proof (IH Inside). pose proof (IH Closing).
  destruct mode; try destruct (_ && _); cbn [String.length]; lia.
Qed.

Lemma T_length (s : string) : String.length (T s) <= String.length s.
Proof.
  induction s as [|c r IH]; cbn [stripTrailingCommas String.length]; [lia|].
  destruct (_ && _); cbn [String.length]; lia.
Qed.

(** X16. What [stripJSONC] returns holds no line comment and no block
    comment that is closed, is not longer than the content, and is a part
    of the content after the three passes.  A second application finds
    no comment and can only remove trailing commas and white space. *)
Theorem stripJSONC_leaves_no_comment (content : string) :
  noLine (stripJSONC content) = true
  /\ openFree (stripJSONC content) = true
  /\ String.length (stripJSONC content) <= String.length content
  /\ (exists before after,
        T (B (L content)) = before +:+ stripJSONC content +:+ after)
  /\ stripJSONC (stripJSONC content)
     = Strings.TrimSpace (T (stripJSONC content)).
Proof.
  assert (Hline : noLine (T (B (L content))) = true).
  { apply T_noLine, B_noLine; [apply L_noLine | exact I]. }
  assert (Hopen : openFree (T (B (L content))) = true).
  { apply T_openFree, B_openFree; [apply L_noLine | exact I]. }
  destruct (TrimSpace_infix (T (B (L content)))) as (before & after & Hcut).
  fold (stripJSONC content) in Hcut.
  assert (Hline' : noLine (stripJSONC content) = true).
  { rewrite Hcut in Hline. eapply noLine_prefix, noLine_suffix, Hline. }
  assert (Hopen' : openFree (stripJSONC content) = true).
  { rewrite Hcut in Hopen. eapply openFree_prefix, openFree_suffix, Hopen. }
  split; [exact Hline'|]. split; [exact Hopen'|]. split; [|split].
  - pose proof (L_length false content). pose proof (B_length Outside (L content)).
    pose proof (T_length (B (L content))).
    apply (f_equal String.length) in Hcut. rewrite !length_append in Hcut. lia.
  - exists before, after. exact Hcut.
  - apply stripJSONC_stripped; assumption.
Qed.

End StrippedFacts.

(** ** Runs on a small workspace *)
Section RunExamples.
Import Devcontainer Docker Os Ui Root Recorder Fixtures.

(** A container with a short identifier: the listing panics before any
    container is stopped. *)
Lemma short_identifier_panics :
  let run := handleImage (flagsOf true false)
                         (client := recording (scripted (healthy [web; stub] [] [])))
                         api ((tt, []), silent) in
  fst run = Panics (SliceBoundsOutOfRange 12 6)
  /\ calls (snd (fst (snd run))) = [imageListCall (ConfigPath api)].
Proof.
  cbv zeta. split; [vm_compute; reflexivity|].
  apply (proj1 (proj2 (proj2 (proj2
           (handleImage_calls (scripted (healthy [web; stub] [] []))
                              (flagsOf true false) pathName api tt silent))))).
  eexists. vm_compute. reflexivity.
Defined.

(** A project without containers under [--down]: its networks are still
    removed. *)
Lemma down_cleans_up_without_containers :
  let run := handleCompose (flagsOf true false) pathName
                           (client := recording
                              (scripted (healthy [] [network "n1" "worker_default"]
                                                 [])))
                           worker ((tt, []), silent) in
  fst run = Returns None
  /\ calls (snd (fst (snd run)))
     = [listCall "worker"; listCall "worker";
        NetworkListCall
          {| NetworkLabelFilter := "com.docker.compose.project=worker" |};
        NetworkRemoveCall "n1"]
  /\ stdout (snd (snd run))
     = "No containers found for compose project 'worker', cleaning up resources..."
       +:+ nl +:+ "Compose project stopped and removed successfully" +:+ nl.
Proof.
  cbv zeta.
  destruct (proj2 (proj2 (proj2
              (handleCompose_composes
                 (scripted (healthy [] [network "n1" "worker_default"] []))
                 (flagsOf true false) pathName worker tt silent)))
              eq_refl (or_intror eq_refl)) as [Hr Hlog].
  split; [rewrite Hr; vm_compute; reflexivity|].
  split; [rewrite Hlog; vm_compute; reflexivity|].
  vm_compute. reflexivity.
Defined.

(** The user takes the second of two names; the third configuration has
    the name of the first and is not offered. *)
Lemma second_name_is_selected :
  SelectConfig (term := chooses 1) pathName [api; worker; api]
  = Returns (Ok worker).
Proof.
  rewrite (proj1 (proj2 (proj2
             (SelectConfig_outcomes (term := chooses 1) pathName
                                    [api; worker; api])))).
  - vm_compute. reflexivity.
  - vm_compute. lia.
Defined.

(** The current context of the configuration file is used when no
    variable names one. *)
Lemma current_context_is_used :
  let New := NewClientWithContext (fs := remoteContext) (env := plainEnv)
                                  contextID id
                                  (reachable "tcp://10.0.0.5:2376"
                                             (healthy [web] [] [])) in
  getCurrentContext (fs := remoteContext) (env := plainEnv) = "remote"
  /\ New "" = New "remote"
  /\ New "" = Ok (scripted (healthy [web] [] [])).
Proof.
  cbv zeta.
  pose proof (proj2 (proj2 (proj2 (proj2
               (NewClientWithContext_precedence
                  (fs := remoteContext) (env := plainEnv) contextID id
                  (reachable "tcp://10.0.0.5:2376" (healthy [web] [] []))))))
               eq_refl eq_refl) as H.
  split; [vm_compute; reflexivity|]. split; [exact H|].
  vm_compute. reflexivity.
Defined.

(** A definition file that holds one brace only: it is reported and
    nothing is stopped. *)
Lemma broken_definition_is_reported :
  let run := runStop (fs := workspace "{") (env := plainEnv) (term := chooses 0)
                     (flagsOf false false) pathName contextID id
                     (recorded (daemon (healthy [web] [] [])))
                     [] ((tt, []), silent) in
  FindDevcontainerConfigs (fs := workspace "{") "/ws" = ([workspaceConfig], None)
  /\ run
     = (Returns (Some (errorString "no valid devcontainer configs found")),
        ((tt, []),
         {| stdout := "Warning: failed to parse " +:+ workspaceConfig +:+ ": "
                      +:+ Error (Errorf_w "failed to parse config: " Json.syntaxError)
                      +:+ nl;
            stderr := "" |})).
Proof.
  cbv zeta. split; [vm_compute; reflexivity|].
  rewrite (proj1 (proj2 (runStop_without_definitions
                           (fs := workspace "{") (env := plainEnv)
                           (term := chooses 0) (flagsOf false false) pathName
                           contextID id (daemon (healthy [web] [] [])) [] tt silent
                           "/ws" [workspaceConfig]
                           ltac:(vm_compute; reflexivity)
                           ltac:(vm_compute; reflexivity)
                           ltac:(vm_compute; reflexivity)))).
  - vm_compute. reflexivity.
  - discriminate.
  - vm_compute. reflexivity.
Defined.

(** Without a flag the one container of an image workspace is stopped and
    nothing is removed. *)
Lemma stop_only_run :
  let run := runStop (fs := workspace (bytes "{'image': 'alpine'}"))
                     (env := plainEnv) (term := chooses 0)
                     (flagsOf false false) pathName contextID id
                     (recorded (daemon (healthy [web] [] [])))
                     [] ((tt, []), silent) in
  Forall (fun c => admitted (flagsOf false false) c = true)
         (calls (snd (fst (snd run))))
  /\ calls (snd (fst (snd run)))
     = [imageListCall workspaceConfig; ContainerStopCall (ID web) None; CloseCall]
  /\ fst run = Returns None
  /\ stdout (snd (snd run))
     = "Found 1 container(s) to stop" +:+ nl
       +:+ "  - /ws-web-1 (4f5e6d7c8b9a)" +:+ nl
       +:+ "Containers stopped successfully" +:+ nl.
Proof.
  cbv zeta. split.
  - apply (runStop_respects_flags (fs := workspace (bytes "{'image': 'alpine'}"))
             (env := plainEnv) (term := chooses 0)).
  - vm_compute. auto.
Defined.

(** With both flags a compose project is taken down and the client is
    closed last. *)
Lemma down_run_closes_last :
  let run := runStop (fs := workspace
                               (bytes "{'dockerComposeFile': 'compose.yml'}"))
                     (env := environ [("DOCKER_HOST", "tcp://10.0.0.5:2376")]
                                     "/home/u" "/")
                     (term := chooses 0)
                     (flagsOf true true) pathName contextID id
                     (recorded (daemon (healthy [web] [network "n1" "ws_default"]
                                                [volume "ws_data"])))
                     ["ws"] ((tt, []), silent) in
  fst run = Returns None
  /\ exists body ev,
       snd (fst (snd run)) = body ++ [ev]
       /\ call ev = CloseCall
       /\ Forall (fun c => c <> CloseCall) (calls body)
       /\ calls body = listCall "ws_devcontainer"
                       :: downPlan "ws_devcontainer" true [web]
                                   [network "n1" "ws_default"] [volume "ws_data"].
Proof.
  cbv zeta. split; [vm_compute; reflexivity|].
  destruct (runStop_closes_client
              (fs := workspace (bytes "{'dockerComposeFile': 'compose.yml'}"))
              (env := environ [("DOCKER_HOST", "tcp://10.0.0.5:2376")] "/home/u" "/")
              (term := chooses 0) (flagsOf true true) pathName contextID id
              (daemon (healthy [web] [network "n1" "ws_default"] [volume "ws_data"]))
              ["ws"] tt silent)
    as [(Hnone & _)|(body & ev & Hlog & Hclose & Hbody & _)].
  - vm_compute in Hnone. discriminate.
  - exists body, ev. repeat split; try assumption.
    assert (Hcalls : calls (body ++ [ev])
                     = (listCall "ws_devcontainer"
                        :: downPlan "ws_devcontainer" true [web]
                             [network "n1" "ws_default"] [volume "ws_data"])
                       ++ [CloseCall]).
    { rewrite <- Hlog. vm_compute. reflexivity. }
    unfold calls in Hcalls. rewrite map_app in Hcalls.
    apply app_inj_tail in Hcalls. apply Hcalls.
Defined.

End RunExamples.
